(** * SecureScript backend: the request pipeline of [backend/server.py]

    A shallow embedding of the FastAPI service of [src/backend/server.py]
    (the copy under [package_linux/] differs in comments and docstrings
    only): the identity verifier, the request validator, the rate limiter,
    the response normaliser and the two endpoints, with the properties the
    specification states about them.

    Python values are modelled as the code has them: a [str] is a sequence
    of Unicode code points, a [dict] read from JSON is an insertion-ordered
    association list, exceptions are values of an inductive type carried by
    a result monad, [os.environ] and the limiter's storage are finite maps.
    What the service reaches outside its own code (the Python parser behind
    [compile], PyJWT, httpx, the Groq client) is a field of the record
    [World]: every theorem holds for all worlds. *)

From Stdlib Require Import String Ascii NArith ZArith.
From Stdlib Require DecimalString.
From stdpp Require Import base option list gmap.

Local Open Scope Z_scope.

(** ** Python strings *)

Module PyStr.

(** A Python [str]: the sequence of its code points. *)
Definition char : Type := N.
Definition str : Type := list N.

(** The code points of an ASCII literal. *)
Definition py (s : string) : str :=
  N_of_ascii <$> list_ascii_of_string s.

(** The same, with each apostrophe of the literal standing for the double
    quote (code point 34) of the Python text. *)
Definition lit (s : string) : str :=
  (fun c => if N.eqb c 39 then 34%N else c) <$> py s.

Definition eqb (s t : str) : bool := bool_decide (s = t).

(** [len(s)] *)
Definition len (s : str) : Z := Z.of_nat (length s).

(** Truth value of a [str]: [bool(s)]. *)
Definition truthy (s : str) : bool :=
  match s with [] => false | _ => true end.

(** [c.isspace()], which is also what [\s] matches in a [str] pattern and
    what [str.strip()] removes. *)
Definition isspace (c : char) : bool :=
  ((9 <=? c) && (c <=? 13) || (28 <=? c) && (c <=? 32)
   || (c =? 133) || (c =? 160) || (c =? 5760)
   || (8192 <=? c) && (c <=? 8202)
   || (c =? 8232) || (c =? 8233) || (c =? 8239) || (c =? 8287)
   || (c =? 12288))%N.

Fixpoint lstrip (s : str) : str :=
  match s with
  | c :: s' => if isspace c then lstrip s' else s
  | [] => []
  end.

Definition rstrip (s : str) : str := reverse (lstrip (reverse s)).

(** [s.strip()] *)
Definition strip (s : str) : str := rstrip (lstrip s).

(** [s.startswith(p)] *)
Fixpoint startswith (s p : str) {struct p} : bool :=
  match p, s with
  | [], _ => true
  | a :: p', b :: s' => N.eqb a b && startswith s' p'
  | _ :: _, [] => false
  end.

(** [s.split(sep)] for a one-character separator. *)
Fixpoint split (sep : char) (s : str) : list str :=
  match s with
  | [] => [[]]
  | c :: s' =>
      if N.eqb c sep then [] :: split sep s'
      else match split sep s' with
           | w :: ws => (c :: w) :: ws
           | [] => [[c]]
           end
  end.

(** [s.lower()] on the ASCII letters.  The only other code points whose
    lower case contains an ASCII letter are U+0130 and U+212A (to [i] and
    [k]); none maps into the letters of ["true"], the one word the service
    compares a lowered string with. *)
Definition lower_char (c : char) : char :=
  if ((65 <=? c) && (c <=? 90))%N then (c + 32)%N else c.

Definition lower (s : str) : str := lower_char <$> s.

(** Number of bytes of the UTF-8 encoding of [s] (a surrogate counted as
    the three bytes [surrogatepass] writes). *)
Definition utf8_width (c : char) : Z :=
  if (c <? 128)%N then 1 else if (c <? 2048)%N then 2
  else if (c <? 65536)%N then 3 else 4.

Definition utf8_len (s : str) : Z :=
  foldr (fun c n => utf8_width c + n) 0 s.

(** [" " * n] and the like. *)
Definition repeat_char (c : char) (n : Z) : str := replicate (Z.to_nat n) c.

End PyStr.

Export PyStr (str, py, lit).

(** ** Exceptions *)

(** The exception classes the service raises or catches.  [Error name]
    stands for any other subclass of [Exception] (an httpx transport
    error, [AttributeError], [IndexError], the Groq client's errors, ...). *)
Inductive exn : Type :=
| HTTPException (status_code : Z) (detail : str)
| RateLimitExceeded
| ExpiredSignatureError
| InvalidTokenError
| JSONDecodeError
| TypeError
| ValidationError
| Error (name : str).

Inductive result (A : Type) : Type :=
| Return (a : A)
| Raise (e : exn).
Arguments Return {A} a.
Arguments Raise {A} e.

Definition result_bind {A B} (m : result A) (k : A -> result B) : result B :=
  match m with
  | Return a => k a
  | Raise e => Raise e
  end.

Notation "x <- m ;; k" := (result_bind m (fun x => k))
  (at level 100, m at next level, right associativity, only parsing).
Notation "m ;;; k" := (result_bind m (fun _ => k))
  (at level 100, right associativity, only parsing).

(** ** JSON: [json.loads] and [json.dumps]

    The values [json.loads] builds, and the decoder of CPython's [json]
    package with its default settings (the accelerated scanner: ASCII
    digits, strict strings, the constants [NaN], [Infinity] and
    [-Infinity] accepted). *)

Module Json.
Import PyStr.

(** A number as read: an [int], or the decimal [mantissa * 10 ^ exponent]
    (with its sign) that [float] rounds, or one of the three constants. *)
Inductive number : Type :=
| Int (n : Z)
| Float (negative : bool) (mantissa : N) (exponent : Z)
| NaN
| Infinity
| NegInfinity.

(** The number is a finite [float] once converted: its magnitude is below
    [2^1024 - 2^970], from where on rounding to the nearest double
    overflows ([float(n)] raises [OverflowError] for an [int], a decimal
    literal reads as infinity). *)
Definition finite (n : number) : bool :=
  let bound := (2 ^ 1024 - 2 ^ 970)%Z in
  match n with
  | Int n => (Z.abs n <? bound)%Z
  | Float _ mantissa exponent =>
      if (0 <=? exponent)%Z then (Z.of_N mantissa * 10 ^ exponent <? bound)%Z
      else (Z.of_N mantissa <? bound * 10 ^ (- exponent))%Z
  | NaN | Infinity | NegInfinity => false
  end.

(** A decoded document.  A [dict] keeps its keys in insertion order. *)
#[warnings="-register-all"]
Inductive value : Type :=
| Null
| Bool (b : bool)
| Num (n : number)
| Str (s : str)
| Arr (items : list value)
| Obj (members : list (str * value)).

(** [d.get(key)] *)
Fixpoint dict_get {A} (key : str) (d : list (str * A)) : option A :=
  match d with
  | [] => None
  | (k, v) :: d' => if eqb k key then Some v else dict_get key d'
  end.

(** [d[key] = v]: a key already present keeps its place. *)
Fixpoint dict_set {A} (key : str) (v : A) (d : list (str * A)) : list (str * A) :=
  match d with
  | [] => [(key, v)]
  | (k, x) :: d' => if eqb k key then (k, v) :: d' else (k, x) :: dict_set key v d'
  end.

(** [dict(pairs)] *)
Definition dict_of_pairs {A} (pairs : list (str * A)) : list (str * A) :=
  foldl (fun d kv => dict_set kv.1 kv.2 d) [] pairs.

(** [float(x) != 0.0] for the decimal [mantissa * 10 ^ exponent]: a double
    is zero exactly when the decimal is at most [2 ^ -1075] in magnitude
    (half the least subnormal, a tie that rounds to even). *)
Definition float_nonzero (mantissa : N) (exponent : Z) : bool :=
  if (mantissa =? 0)%N then false
  else if 0 <=? exponent then true
  else 10 ^ (- exponent) <? Z.of_N mantissa * 2 ^ 1075.

(** Truth value of a decoded value: [bool(v)]. *)
Definition truthy (v : value) : bool :=
  match v with
  | Null => false
  | Bool b => b
  | Num (Int n) => negb (n =? 0)
  | Num (Float _ m e) => float_nonzero m e
  | Num _ => true
  | Str s => PyStr.truthy s
  | Arr l => match l with [] => false | _ => true end
  | Obj d => match d with [] => false | _ => true end
  end.

(** *** Decoding *)

(** What the interpreter allows the decoder: the number of containers it
    may still enter, one inside the other, before the recursion limit is
    reached (it depends on the limit and on the frames in use where
    [json.loads] is called), and the limit on the digits of an [int]
    literal ([sys.get_int_max_str_digits()]: 4300 by default, [0] for
    none, as before Python 3.11). *)
Record Limits : Type := { recursion : nat; max_str_digits : N }.

(** Outcome of a scanner on a suffix of the text: the value read and the
    text after it, a decoding error ([JSONDecodeError]), the budget of the
    definition used up (which does not happen, see [scan_fuel]), or
    another exception ([RecursionError], [ValueError]). *)
Inductive scan (A : Type) : Type :=
| Scanned (a : A) (rest : str)
| Invalid
| OutOfFuel
| Fails (e : exn).
Arguments Scanned {A} a rest.
Arguments Invalid {A}.
Arguments OutOfFuel {A}.
Arguments Fails {A} e.

Definition RecursionError : exn := Error (py "RecursionError").
Definition ValueError : exn := Error (py "ValueError").

Definition ch (a : ascii) : char := N_of_ascii a.

(** [WHITESPACE_STR] *)
Definition is_ws (c : char) : bool :=
  ((c =? 32) || (c =? 9) || (c =? 10) || (c =? 13))%N.

Fixpoint skip_ws (s : str) : str :=
  match s with
  | c :: s' => if is_ws c then skip_ws s' else s
  | [] => []
  end.

Definition is_digit (c : char) : bool := ((48 <=? c) && (c <=? 57))%N.

Definition hex_digit (c : char) : option N :=
  if is_digit c then Some (c - 48)%N
  else if ((97 <=? c) && (c <=? 102))%N then Some (c - 87)%N
  else if ((65 <=? c) && (c <=? 70))%N then Some (c - 55)%N
  else None.

(** The four hexadecimal digits of a [\uXXXX] escape. *)
Definition decode_uXXXX (a b c d : char) : option N :=
  match hex_digit a, hex_digit b, hex_digit c, hex_digit d with
  | Some x, Some y, Some z, Some t => Some (((x * 16 + y) * 16 + z) * 16 + t)%N
  | _, _, _, _ => None
  end.

(** [BACKSLASH] *)
Definition backslash (c : char) : option char :=
  if (c =? 34)%N then Some 34%N          (* quote *)
  else if (c =? 92)%N then Some 92%N     (* backslash *)
  else if (c =? 47)%N then Some 47%N     (* slash *)
  else if (c =? 98)%N then Some 8%N      (* b *)
  else if (c =? 102)%N then Some 12%N    (* f *)
  else if (c =? 110)%N then Some 10%N    (* n *)
  else if (c =? 114)%N then Some 13%N    (* r *)
  else if (c =? 116)%N then Some 9%N     (* t *)
  else None.

Definition is_high_surrogate (u : N) : bool := ((55296 <=? u) && (u <=? 56319))%N.
Definition is_low_surrogate (u : N) : bool := ((56320 <=? u) && (u <=? 57343))%N.

Definition join_surrogates (hi lo : N) : N :=
  (65536 + N.lor (N.shiftl (hi - 55296) 10) (lo - 56320))%N.

Definition scan_cons (c : char) (r : scan str) : scan str :=
  match r with
  | Scanned x rest => Scanned (c :: x) rest
  | other => other
  end.

(** [scanstring(s, end, strict=True)]: [s] is the text after the opening
    quote.  A literal control character, an unknown escape and a missing
    closing quote are errors; a high surrogate escape directly followed by
    a low surrogate escape is one code point. *)
Fixpoint scanstring (s : str) : scan str :=
  match s with
  | [] => Invalid
  | c :: rest =>
      if (c =? 34)%N then Scanned [] rest
      else if (c =? 92)%N then
        match rest with
        | [] => Invalid
        | e :: r1 =>
            if (e =? 117)%N then
              match r1 with
              | a :: b :: c' :: d :: r2 =>
                  match decode_uXXXX a b c' d with
                  | None => Invalid
                  | Some uni =>
                      match r2 with
                      | b1 :: b2 :: r3 =>
                          if is_high_surrogate uni && (b1 =? 92)%N && (b2 =? 117)%N then
                            match r3 with
                            | a2 :: b3 :: c2 :: d2 :: r4 =>
                                match decode_uXXXX a2 b3 c2 d2 with
                                | None => Invalid
                                | Some uni2 =>
                                    if is_low_surrogate uni2
                                    then scan_cons (join_surrogates uni uni2) (scanstring r4)
                                    else scan_cons uni (scanstring r2)
                                end
                            | _ => Invalid
                            end
                          else scan_cons uni (scanstring r2)
                      | _ => scan_cons uni (scanstring r2)
                      end
                  end
              | _ => Invalid
              end
            else
              match backslash e with
              | Some x => scan_cons x (scanstring r1)
              | None => Invalid
              end
        end
      else if (c <? 32)%N then Invalid
      else scan_cons c (scanstring rest)
  end.

(** The longest prefix of digits, and what follows it. *)
Fixpoint span_digits (s : str) : list char * str :=
  match s with
  | c :: s' =>
      if is_digit c then let '(ds, r) := span_digits s' in (c :: ds, r)
      else ([], s)
  | [] => ([], [])
  end.

Definition digits_value (ds : list char) : N :=
  foldl (fun acc c => (acc * 10 + (c - 48))%N) 0%N ds.

(** The integer part of [NUMBER_RE]: [0], or a non-zero digit and more
    digits. *)
Definition match_integer (s : str) : option (list char * str) :=
  match s with
  | c :: r =>
      if (c =? 48)%N then Some ([c], r)
      else if is_digit c then let '(ds, r') := span_digits r in Some (c :: ds, r')
      else None
  | [] => None
  end.

(** The fraction of [NUMBER_RE]: a dot and at least one digit. *)
Definition match_frac (s : str) : option (list char * str) :=
  match s with
  | dot :: d :: r =>
      if (dot =? 46)%N && is_digit d
      then let '(ds, r') := span_digits r in Some (d :: ds, r')
      else None
  | _ => None
  end.

(** The exponent of [NUMBER_RE]: [e] or [E], a sign if any, and at least
    one digit. *)
Definition match_exp (s : str) : option (Z * str) :=
  match s with
  | e :: r =>
      if ((e =? 101) || (e =? 69))%N then
        match r with
        | sg :: d :: r' =>
            if ((sg =? 43) || (sg =? 45))%N then
              if is_digit d then
                let '(ds, r'') := span_digits r' in
                let n := Z.of_N (digits_value (d :: ds)) in
                Some (if (sg =? 45)%N then - n else n, r'')
              else None
            else if is_digit sg then
              let '(ds, r'') := span_digits (d :: r') in
              Some (Z.of_N (digits_value (sg :: ds)), r'')
            else None
        | [d] =>
            if is_digit d then Some (Z.of_N (digits_value [d]), []) else None
        | [] => None
        end
      else None
  | [] => None
  end.

(** [NUMBER_RE.match]: an [int] when the literal has neither fraction nor
    exponent, a [float] otherwise. *)
Definition match_number (s : str) : option (number * str) :=
  let '(neg, s1) :=
    match s with
    | c :: r => if (c =? 45)%N then (true, r) else (false, s)
    | [] => (false, s)
    end in
  match match_integer s1 with
  | None => None
  | Some (ip, r1) =>
      let '(frac, r2) :=
        match match_frac r1 with
        | Some (fp, r) => (Some fp, r)
        | None => (None, r1)
        end in
      let '(exp, r3) :=
        match match_exp r2 with
        | Some (e, r) => (Some e, r)
        | None => (None, r2)
        end in
      match frac, exp with
      | None, None =>
          let n := Z.of_N (digits_value ip) in
          Some (Int (if neg then - n else n), r3)
      | _, _ =>
          let fp := default [] frac in
          Some (Float neg (digits_value (ip ++ fp))
                  (default 0 exp - Z.of_nat (length fp)), r3)
      end
  end.

(** The number of digits of the literal at the start of [s], its sign
    apart, when it is an [int]. *)
Definition int_digits (s : str) : N :=
  let s1 := match s with
            | c :: r => if (c =? 45)%N then r else s
            | [] => s
            end in
  match match_integer s1 with
  | Some (ip, _) => N.of_nat (length ip)
  | None => 0%N
  end.

(** [int(literal)] refuses a literal of more digits than the limit, when
    there is one (a limit is never below 640). *)
Definition too_many_digits (limit digits : N) : bool :=
  ((0 <? limit) && (limit <? digits) && (640 <? digits))%N.

(** [s[idx:idx + len(word)] == word], giving the text after the word. *)
Definition keyword (word s : str) : option str :=
  if startswith s word then Some (drop (length word) s) else None.

(** [scan_once], [JSONObject] and [JSONArray].  [depth] is the number of
    containers that may still be entered: the scanner enters a recursive
    call at every opening brace or bracket and raises [RecursionError]
    when none is left.  [digits] is the limit on [int] literals.  [fuel]
    bounds the calls of the definition itself; [loads] supplies more than
    a text of its length can use (see [scan_fuel]). *)
Fixpoint scan_once (digits : N) (fuel depth : nat) (s : str) : scan value :=
  match fuel with
  | O => OutOfFuel
  | S fuel =>
      match s with
      | [] => Invalid
      | c :: rest =>
          if (c =? ch "034")%N then
            match scanstring rest with
            | Scanned x r => Scanned (Str x) r
            | Invalid => Invalid
            | OutOfFuel => OutOfFuel
            | Fails e => Fails e
            end
          else if (c =? ch "{")%N then
            match depth with
            | O => Fails RecursionError
            | S depth =>
                match skip_ws rest with
                | c1 :: r1 =>
                    if (c1 =? ch "}")%N then Scanned (Obj []) r1
                    else if (c1 =? ch "034")%N then
                      match object_members digits fuel depth r1 with
                      | Scanned pairs r => Scanned (Obj (dict_of_pairs pairs)) r
                      | Invalid => Invalid
                      | OutOfFuel => OutOfFuel
                      | Fails e => Fails e
                      end
                    else Invalid
                | [] => Invalid
                end
            end
          else if (c =? ch "[")%N then
            match depth with
            | O => Fails RecursionError
            | S depth =>
                match skip_ws rest with
                | c1 :: r1 =>
                    if (c1 =? ch "]")%N then Scanned (Arr []) r1
                    else
                      match array_items digits fuel depth (c1 :: r1) with
                      | Scanned items r => Scanned (Arr items) r
                      | Invalid => Invalid
                      | OutOfFuel => OutOfFuel
                      | Fails e => Fails e
                      end
                | [] => Invalid
                end
            end
          else
            match keyword (py "null") s, keyword (py "true") s, keyword (py "false") s with
            | Some r, _, _ => Scanned Null r
            | _, Some r, _ => Scanned (Bool true) r
            | _, _, Some r => Scanned (Bool false) r
            | None, None, None =>
                match match_number s with
                | Some (Int n, r) =>
                    if too_many_digits digits (int_digits s) then Fails ValueError
                    else Scanned (Num (Int n)) r
                | Some (n, r) => Scanned (Num n) r
                | None =>
                    match keyword (py "NaN") s, keyword (py "Infinity") s,
                          keyword (py "-Infinity") s with
                    | Some r, _, _ => Scanned (Num NaN) r
                    | _, Some r, _ => Scanned (Num Infinity) r
                    | _, _, Some r => Scanned (Num NegInfinity) r
                    | None, None, None => Invalid
                    end
                end
            end
      end
  end

(** The members of an object, from the text after the quote that opens a
    key to the closing brace. *)
with object_members (digits : N) (fuel depth : nat) (s : str) : scan (list (str * value)) :=
  match fuel with
  | O => OutOfFuel
  | S fuel =>
      match scanstring s with
      | Scanned key r0 =>
          match skip_ws r0 with
          | colon :: r1 =>
              if (colon =? ch ":")%N then
                match scan_once digits fuel depth (skip_ws r1) with
                | Scanned v r2 =>
                    match skip_ws r2 with
                    | c :: r3 =>
                        if (c =? ch "}")%N then Scanned [(key, v)] r3
                        else if (c =? ch ",")%N then
                          match skip_ws r3 with
                          | q :: r4 =>
                              if (q =? ch "034")%N then
                                match object_members digits fuel depth r4 with
                                | Scanned pairs r => Scanned ((key, v) :: pairs) r
                                | other => other
                                end
                              else Invalid
                          | [] => Invalid
                          end
                        else Invalid
                    | [] => Invalid
                    end
                | Invalid => Invalid
                | OutOfFuel => OutOfFuel
                | Fails e => Fails e
                end
              else Invalid
          | [] => Invalid
          end
      | Invalid => Invalid
      | OutOfFuel => OutOfFuel
      | Fails e => Fails e
      end
  end

(** The items of an array, from its first value to the closing bracket. *)
with array_items (digits : N) (fuel depth : nat) (s : str) : scan (list value) :=
  match fuel with
  | O => OutOfFuel
  | S fuel =>
      match scan_once digits fuel depth s with
      | Scanned v r0 =>
          match skip_ws r0 with
          | c :: r1 =>
              if (c =? ch "]")%N then Scanned [v] r1
              else if (c =? ch ",")%N then
                match array_items digits fuel depth (skip_ws r1) with
                | Scanned items r => Scanned (v :: items) r
                | other => other
                end
              else Invalid
          | [] => Invalid
          end
      | Invalid => Invalid
      | OutOfFuel => OutOfFuel
      | Fails e => Fails e
      end
  end.

(** [json.loads(s)] for a [str]: a byte order mark is refused, white space
    around the document is skipped, anything after it is an error.  A
    document nested deeper than the interpreter allows raises
    [RecursionError], an [int] literal of too many digits [ValueError];
    neither is a [JSONDecodeError]. *)
Definition loads (lim : Limits) (s : str) : result value :=
  match s with
  | 65279%N :: _ => Raise JSONDecodeError
  | _ =>
      match scan_once (max_str_digits lim) (S (2 * length s)) (recursion lim) (skip_ws s) with
      | Scanned v rest =>
          match skip_ws rest with
          | [] => Return v
          | _ :: _ => Raise JSONDecodeError
          end
      | Invalid => Raise JSONDecodeError
      | OutOfFuel => Raise RecursionError
      | Fails e => Raise e
      end
  end.

(** *** Encoding *)

Definition hex_char (d : N) : char :=
  if (d <? 10)%N then (48 + d)%N else (87 + d)%N.

(** ['\\u{0:04x}'.format(n)] *)
Definition escape_u (n : N) : str :=
  [92; 117]%N ++
  [hex_char (N.shiftr n 12 mod 16); hex_char (N.shiftr n 8 mod 16);
   hex_char (N.shiftr n 4 mod 16); hex_char (n mod 16)].

(** The replacement [encode_basestring_ascii] makes for one character:
    printable ASCII stays, the quote, the backslash and the usual control
    characters take their short escapes, everything else becomes
    [\uXXXX], as a surrogate pair above the basic plane. *)
Definition escape_char (c : char) : str :=
  if (c =? 34)%N then [92; 34]%N
  else if (c =? 92)%N then [92; 92]%N
  else if ((32 <=? c) && (c <=? 126))%N then [c]
  else if (c =? 8)%N then [92; 98]%N
  else if (c =? 12)%N then [92; 102]%N
  else if (c =? 10)%N then [92; 110]%N
  else if (c =? 13)%N then [92; 114]%N
  else if (c =? 9)%N then [92; 116]%N
  else if (c <? 65536)%N then escape_u c
  else
    let n := (c - 65536)%N in
    escape_u (N.lor 55296 (N.land (N.shiftr n 10) 1023))
    ++ escape_u (N.lor 56320 (N.land n 1023)).

(** [json.dumps(s)] for a [str]. *)
Definition encode_basestring_ascii (s : str) : str :=
  [34%N] ++ concat (escape_char <$> s) ++ [34%N].

(** [json.dumps({key: s})] for one string member. *)
Definition dumps_member (key s : str) : str :=
  py "{" ++ encode_basestring_ascii key ++ py ": "
  ++ encode_basestring_ascii s ++ py "}".

End Json.

(** ** Regular expressions

    The backtracking matcher of [re] for the constructs the two patterns
    of the service use: literal characters, a greedy and a lazy star over
    a character class, and one capturing group. *)

Module Re.
Import PyStr.

Inductive item : Type :=
| Chr (c : char)
| Greedy (class : char -> bool)
| Lazy (class : char -> bool)
| Open
| Close.

(** A match: [group(0)] and [group(1)]. *)
Record matched : Type := { group0 : str; group1 : str }.

(** Record one consumed character in front of a match of the rest. *)
Definition consume (in_group : bool) (c : char) (r : option matched) : option matched :=
  match r with
  | Some m =>
      Some {| group0 := c :: group0 m;
              group1 := if in_group then c :: group1 m else group1 m |}
  | None => None
  end.

(** The characters of [a] recorded in front of a match. *)
Definition consume_all (in_group : bool) (a : str) (r : option matched) : option matched :=
  foldr (consume in_group) r a.

(** [class*] followed by [k]: take as many characters as the class allows,
    giving one back at a time while [k] fails. *)
Fixpoint greedy_star (class : char -> bool) (in_group : bool)
    (k : str -> option matched) (s : str) : option matched :=
  match s with
  | c :: s' =>
      if class c then
        match consume in_group c (greedy_star class in_group k s') with
        | Some m => Some m
        | None => k s
        end
      else k s
  | [] => k []
  end.

(** [class*?] followed by [k]: try [k] first, take one more character
    each time it fails. *)
Fixpoint lazy_star (class : char -> bool) (in_group : bool)
    (k : str -> option matched) (s : str) : option matched :=
  match k s with
  | Some m => Some m
  | None =>
      match s with
      | c :: s' =>
          if class c then consume in_group c (lazy_star class in_group k s')
          else None
      | [] => None
      end
  end.

(** Match the pattern at the start of [s]. *)
Fixpoint match_here (pat : list item) (in_group : bool) (s : str) : option matched :=
  match pat with
  | [] => Some {| group0 := []; group1 := [] |}
  | Chr c :: pat' =>
      match s with
      | c' :: s' =>
          if (c =? c')%N then consume in_group c' (match_here pat' in_group s') else None
      | [] => None
      end
  | Greedy class :: pat' => greedy_star class in_group (match_here pat' in_group) s
  | Lazy class :: pat' => lazy_star class in_group (match_here pat' in_group) s
  | Open :: pat' => match_here pat' true s
  | Close :: pat' => match_here pat' false s
  end.

(** [re.search(pat, s)]: the match at the leftmost position that has one. *)
Fixpoint search (pat : list item) (s : str) : option matched :=
  match match_here pat false s with
  | Some m => Some m
  | None =>
      match s with
      | _ :: s' => search pat s'
      | [] => None
      end
  end.

Definition literal (s : str) : list item := Chr <$> s.

(** [\s] and [[\s\S]] *)
Definition space : char -> bool := isspace.
Definition any : char -> bool := fun _ => true.

(** [r'```json\s*([\s\S]*?)\s*```'] *)
Definition json_fence : list item :=
  literal (py "```json")
  ++ [Greedy space; Open; Lazy any; Close; Greedy space]
  ++ literal (py "```").

(** [r'\{[\s\S]*\}'] *)
Definition brace_span : list item :=
  [Chr (Json.ch "{"); Greedy any; Chr (Json.ch "}")].

End Re.

(** ** Data models *)

Module SecurityIssue.
Record t : Type := {
  title : str;
  description : str;
  code : str;
  fix_ : str;
  cvss_score : Json.number;
  severity : str
}.
End SecurityIssue.

Module SecurityReport.
Record t : Type := {
  summary : str;
  issues : list SecurityIssue.t
}.
End SecurityReport.

Module AnalyzeRequest.
Record t : Type := { code : str }.
End AnalyzeRequest.

Module FixRequest.
Record t : Type := {
  code : str;
  issues : list SecurityIssue.t
}.
End FixRequest.

(** What pydantic makes of a value whose type is not the field's own: the
    lax conversions ([float] from a numeric string, and the like) differ
    between its versions, so they are left to the installed library. *)
Record Pydantic : Type := {
  lax_str : Json.value -> option str;
  lax_float : Json.value -> option Json.number
}.

Module Model.
Import Json.

(** A required [str] field: a [str] is taken as it is. *)
Definition str_field (px : Pydantic) (key : str) (d : list (str * value)) : result str :=
  match dict_get key d with
  | Some (Str s) => Return s
  | Some v =>
      match lax_str px v with
      | Some s => Return s
      | None => Raise ValidationError
      end
  | None => Raise ValidationError
  end.

(** A required [float] field: a [float] is taken as it is (the constants
    that are not numbers among them), an [int] when it fits a [float]. *)
Definition float_field (px : Pydantic) (key : str) (d : list (str * value)) : result number :=
  match dict_get key d with
  | Some (Num (Int n)) => if finite (Int n) then Return (Int n) else Raise ValidationError
  | Some (Num n) => Return n
  | Some v =>
      match lax_float px v with
      | Some n => Return n
      | None => Raise ValidationError
      end
  | None => Raise ValidationError
  end.

(** Validation of one element of [issues: List[SecurityIssue]]. *)
Definition SecurityIssue_validate (px : Pydantic) (v : value) : result SecurityIssue.t :=
  match v with
  | Obj d =>
      title <- str_field px (py "title") d;;
      description <- str_field px (py "description") d;;
      code <- str_field px (py "code") d;;
      fix_ <- str_field px (py "fix") d;;
      cvss_score <- float_field px (py "cvss_score") d;;
      severity <- str_field px (py "severity") d;;
      Return {| SecurityIssue.title := title;
                SecurityIssue.description := description;
                SecurityIssue.code := code;
                SecurityIssue.fix_ := fix_;
                SecurityIssue.cvss_score := cvss_score;
                SecurityIssue.severity := severity |}
  | _ => Raise ValidationError
  end.

Fixpoint validate_list {A} (f : value -> result A) (l : list value) : result (list A) :=
  match l with
  | [] => Return []
  | v :: l' =>
      match f v, validate_list f l' with
      | Return a, Return r => Return (a :: r)
      | _, _ => Raise ValidationError
      end
  end.

(** [SecurityReport] built from the keyword arguments [**data]: [data]
    must be a mapping; its members
    [summary] and [issues] are validated, any other member is ignored. *)
Definition SecurityReport_init (px : Pydantic) (data : value) : result SecurityReport.t :=
  match data with
  | Obj d =>
      summary <- str_field px (py "summary") d;;
      issues <-
        match dict_get (py "issues") d with
        | Some (Arr l) => validate_list (SecurityIssue_validate px) l
        | _ => Raise ValidationError
        end;;
      Return {| SecurityReport.summary := summary; SecurityReport.issues := issues |}
  | _ => Raise TypeError
  end.

(** Validation of the body of a request against the model of the route's
    body parameter. *)
Definition AnalyzeRequest_validate (px : Pydantic) (body : value) : result AnalyzeRequest.t :=
  match body with
  | Obj d =>
      code <- str_field px (py "code") d;;
      Return {| AnalyzeRequest.code := code |}
  | _ => Raise ValidationError
  end.

Definition FixRequest_validate (px : Pydantic) (body : value) : result FixRequest.t :=
  match body with
  | Obj d =>
      code <- str_field px (py "code") d;;
      issues <-
        match dict_get (py "issues") d with
        | Some (Arr l) => validate_list (SecurityIssue_validate px) l
        | _ => Raise ValidationError
        end;;
      Return {| FixRequest.code := code; FixRequest.issues := issues |}
  | _ => Raise ValidationError
  end.

End Model.

(** ** The rate limiter

    [slowapi.Limiter] over the in-memory storage of [limits] with the
    default fixed-window strategy.  A limit placed on a route by
    [@limiter.limit] is counted under the key function's value and the
    route's own scope; the window of a counter runs from its first hit. *)

Module Limiter.

Record window : Type := { hits : Z; expires : Z }.

(** Counters by (key, scope). *)
Abbreviation storage := (gmap (str * str) window).

(** ["7/day"] *)
Definition amount : Z := 7.
Definition day : Z := 86400.

(** [MemoryStorage.get]: the count of a key at time [now], zero once its
    window has expired. *)
Definition get (now : Z) (key : str * str) (st : storage) : Z :=
  match st !! key with
  | Some w => if expires w <=? now then 0 else hits w
  | None => 0
  end.

(** [MemoryStorage.get] followed by [incr]: an expired counter is dropped,
    the counter is incremented, and a counter that starts gets its expiry. *)
Definition incr (now : Z) (key : str * str) (st : storage) : Z * storage :=
  let live :=
    match st !! key with
    | Some w => if expires w <=? now then None else Some w
    | None => None
    end in
  let w' :=
    match live with
    | Some w => {| hits := hits w + 1; expires := expires w |}
    | None => {| hits := 1; expires := now + day |}
    end in
  (hits w', <[key := w']> st).

(** [FixedWindowRateLimiter.hit] *)
Definition hit (now : Z) (key : str * str) (st : storage) : bool * storage :=
  let '(n, st') := incr now key st in (n <=? amount, st').

(** What the wrapper of [@limiter.limit("7/day")] does before it calls the
    route's function: a limit whose key or scope is empty is skipped. *)
Definition check_request_limit (now : Z) (limit_key scope : str) (st : storage)
    : result unit * storage :=
  if PyStr.truthy limit_key && PyStr.truthy scope then
    let '(ok, st') := hit now (limit_key, scope) st in
    (if ok then Return tt else Raise RateLimitExceeded, st')
  else (Return tt, st).

End Limiter.

(** ** The service *)

(** Outcome of the builtin [compile(source, '<string>', 'exec')]: the code
    object is not used, a [SyntaxError] carries its [str(e)], and the
    parser can fail in other ways ([ValueError] on a null byte before
    Python 3.12, [RecursionError], [MemoryError]). *)
Inductive compile_outcome : Type :=
| Compiled
| RaisesSyntaxError (msg : str)
| RaisesOther (e : exn).

Module Server.
Import PyStr.

(** *** What lies outside the service *)

(** The arguments of [client.chat.completions.create]. *)
Record ChatRequest : Type := {
  model : str;
  messages : list (str * str);       (* role, content *)
  temperature : Json.number;
  max_tokens : Z;
  json_object : bool;                 (* response_format={"type": "json_object"} *)
  stream : bool
}.

(** Outbound calls, in the order they are made. *)
Inductive call : Type :=
| JwksGet (url : str)
| ChatCompletionsCreate (req : ChatRequest).

(** One item of a streamed completion: [delta.content] of each of its
    choices. *)
Definition chunk : Type := list (option str).

Record World : Type := {
  (** [os.environ] *)
  environ : gmap str str;
  (** [compile(source, '<string>', 'exec')] *)
  compile : str -> compile_outcome;
  pydantic : Pydantic;
  (** [client.get(url)] of httpx followed by [.json()] *)
  httpx_get_json : str -> result Json.value;
  (** [jwt.get_unverified_header(token)] *)
  jwt_get_unverified_header : str -> result Json.value;
  (** [RSAAlgorithm.from_jwk(json.dumps(key))]; the key object it builds
      is identified with the JWK it is built from *)
  RSAAlgorithm_from_jwk : Json.value -> result unit;
  (** [jwt.decode]: with a signing key and RS256, or, without a key, with
      [verify_signature] off *)
  jwt_decode : str -> option Json.value -> result Json.value;
  (** [AsyncOpenAI(api_key=..., base_url=...)] *)
  AsyncOpenAI : option str -> result unit;
  (** a completion: [message.content] of each of its choices *)
  chat_completions_create : ChatRequest -> result (list (option str));
  (** a streamed completion: the items it yields, and the exception that
      ends the iteration if one does *)
  chat_completions_stream : ChatRequest -> result (list chunk * option exn);
  (** [str(uuid.uuid4())] *)
  uuid4 : str;
  (** what the interpreter allows [json.loads] where the service calls it *)
  limits : Json.Limits;
  (** FastAPI's serialisation of a report returned by a route into the
      body of the response ([response_model=SecurityReport], then
      [JSONResponse.render]) *)
  serialize_response : SecurityReport.t -> result unit
}.

(** [os.getenv(name)] and [os.getenv(name, default)] *)
Definition getenv (w : World) (name : str) : option str := environ w !! name.
Definition getenv_default (w : World) (name dflt : str) : str :=
  default dflt (environ w !! name).

(** [w] with another Python parser. *)
Definition with_compile (parser : str -> compile_outcome) (w : World) : World :=
  {| environ := environ w;
     compile := parser;
     pydantic := pydantic w;
     httpx_get_json := httpx_get_json w;
     jwt_get_unverified_header := jwt_get_unverified_header w;
     RSAAlgorithm_from_jwk := RSAAlgorithm_from_jwk w;
     jwt_decode := jwt_decode w;
     AsyncOpenAI := AsyncOpenAI w;
     chat_completions_create := chat_completions_create w;
     chat_completions_stream := chat_completions_stream w;
     uuid4 := uuid4 w;
     limits := limits w;
     serialize_response := serialize_response w |}.

(** An incoming request: its headers by lower-cased name (Starlette looks
    headers up without regard to case) and the peer's address. *)
Record Request : Type := {
  headers : gmap str str;
  client_host : option str
}.

Definition headers_get (request : Request) (name : str) : option str :=
  headers request !! lower name.

(** Computations of the service: a result, and the outbound calls made. *)
Definition M (A : Type) : Type := result A * list call.

Definition mret {A} (a : A) : M A := (Return a, []).
Definition mraise {A} (e : exn) : M A := (Raise e, []).
Definition lift {A} (r : result A) : M A := (r, []).
Definition logged {A} (c : call) (r : result A) : M A := (r, [c]).

Definition mbind {A B} (m : M A) (k : A -> M B) : M B :=
  match m with
  | (Return a, l) => let '(r, l') := k a in (r, l ++ l')
  | (Raise e, l) => (Raise e, l)
  end.

(** [try: m except ...: h e] *)
Definition try_except {A} (m : M A) (h : exn -> M A) : M A :=
  match m with
  | (Return a, l) => (Return a, l)
  | (Raise e, l) => let '(r, l') := h e in (r, l ++ l')
  end.

Notation "x <~ m ;; k" := (mbind m (fun x => k))
  (at level 100, m at next level, right associativity, only parsing).

Definition nl : str := [10%N].

(** *** Values as Python compares them *)

(** The exact value of a number that has one: [(m, e)] for [m * 10 ^ e]. *)
Definition decimal (v : Json.value) : option (Z * Z) :=
  match v with
  | Json.Bool b => Some (if b then 1 else 0, 0)
  | Json.Num (Json.Int n) => Some (n, 0)
  | Json.Num (Json.Float neg m e) => Some (if neg then - Z.of_N m else Z.of_N m, e)
  | _ => None
  end.

Definition decimal_eq (a b : Z * Z) : bool :=
  let e := Z.min a.2 b.2 in
  a.1 * 10 ^ (a.2 - e) =? b.1 * 10 ^ (b.2 - e).

(** [a == b] on decoded values.  Numbers are compared by their decimal
    value (two literals that only rounding to a double makes equal are
    kept apart). *)
Fixpoint py_eq (a b : Json.value) {struct a} : bool :=
  match a, b with
  | Json.Null, Json.Null => true
  | Json.Str s, Json.Str t => eqb s t
  | Json.Arr l1, Json.Arr l2 =>
      (fix all2 (l1 l2 : list Json.value) : bool :=
         match l1, l2 with
         | [], [] => true
         | x :: l1', y :: l2' => py_eq x y && all2 l1' l2'
         | _, _ => false
         end) l1 l2
  | Json.Obj d1, Json.Obj d2 =>
      Nat.eqb (length d1) (length d2)
      && (fix all (d : list (str * Json.value)) : bool :=
            match d with
            | [] => true
            | (k, x) :: d' =>
                match Json.dict_get k d2 with
                | Some y => py_eq x y
                | None => false
                end && all d'
            end) d1
  | Json.Num Json.Infinity, Json.Num Json.Infinity => true
  | Json.Num Json.NegInfinity, Json.Num Json.NegInfinity => true
  | _, _ =>
      match decimal a, decimal b with
      | Some x, Some y => decimal_eq x y
      | _, _ => false
      end
  end.

(** [v.get(key)] and [v.get(key, default)]: [v] must be a [dict]; an
    absent key gives [None]. *)
Definition get_method (v : Json.value) (key : str) (dflt : Json.value) : result Json.value :=
  match v with
  | Json.Obj d => Return (default dflt (Json.dict_get key d))
  | _ => Raise (Error (py "AttributeError"))
  end.

(** [for x in v] *)
Definition iterate (v : Json.value) : result (list Json.value) :=
  match v with
  | Json.Arr l => Return l
  | Json.Obj d => Return ((fun kv => Json.Str kv.1) <$> d)
  | Json.Str s => Return ((fun c => Json.Str [c]) <$> s)
  | _ => Raise TypeError
  end.

(** [a or b] *)
Definition py_or (a b : Json.value) : Json.value :=
  if Json.truthy a then a else b.

(** *** Rate-limit key *)

(** [slowapi.util.get_remote_address] *)
Definition get_remote_address (request : Request) : str :=
  match client_host request with
  | Some host => if truthy host then host else py "127.0.0.1"
  | None => py "127.0.0.1"
  end.

Definition get_user_email (request : Request) : str :=
  match headers_get request (py "X-User-Email") with
  | Some email => if truthy email then email else get_remote_address request
  | None => get_remote_address request
  end.

(** *** Identity verification *)

(** The loop over the key set: the first key whose [kid] equals the
    token's is turned into a signing key. *)
Fixpoint find_signing_key (from_jwk : Json.value -> result unit)
    (keys : list Json.value) (kid : Json.value) : result (option Json.value) :=
  match keys with
  | [] => Return None
  | key :: keys' =>
      key_kid <- get_method key (py "kid") Json.Null;;
      if py_eq key_kid kid then
        from_jwk key;;;
        Return (Some key)
      else find_signing_key from_jwk keys' kid
  end.

(** The first half of the [try] block of [verify_authenticated_user]: the
    configuration check, and the token's payload, verified against the
    issuer's key set or, with no issuer configured, decoded unverified. *)
Definition token_payload (w : World) (token : str) : M Json.value :=
  let clerk_frontend_api := getenv_default w (py "CLERK_FRONTEND_API") [] in
  _ <~ (if negb (truthy clerk_frontend_api)
           && eqb (lower (getenv_default w (py "REQUIRE_JWT_VERIFICATION") (py "true")))
                  (py "true")
        then mraise (HTTPException 500
                       (py "Server misconfiguration: CLERK_FRONTEND_API not set"))
        else mret tt);;
  if truthy clerk_frontend_api then
    let jwks_url := py "https://" ++ clerk_frontend_api ++ py "/.well-known/jwks.json" in
    jwks <~ logged (JwksGet jwks_url) (httpx_get_json w jwks_url);;
    lift (
      unverified_header <- jwt_get_unverified_header w token;;
      kid <- get_method unverified_header (py "kid") Json.Null;;
      keys <- get_method jwks (py "keys") (Json.Arr []);;
      keys <- iterate keys;;
      signing_key <- find_signing_key (RSAAlgorithm_from_jwk w) keys kid;;
      match signing_key with
      | None => Raise (HTTPException 401 (py "Unable to find signing key"))
      | Some key => jwt_decode w token (Some key)
      end)
  else lift (jwt_decode w token None).

(** The second half: [payload.get("email") or
    payload.get("primary_email_address") or payload.get("sub")], and the
    check that follows. *)
Definition user_identifier (payload : Json.value) : result Json.value :=
  email <- get_method payload (py "email") Json.Null;;
  primary <- get_method payload (py "primary_email_address") Json.Null;;
  sub <- get_method payload (py "sub") Json.Null;;
  let user_email := py_or (py_or email primary) sub in
  if negb (Json.truthy user_email)
  then Raise (HTTPException 401 (py "Invalid token: no user identifier"))
  else Return user_email.

(** The body of the [try] block. *)
Definition verify_token (w : World) (token : str) : M Json.value :=
  payload <~ token_payload w token;;
  lift (user_identifier payload).

(** The [except] clauses of [verify_authenticated_user], in order. *)
Definition auth_handler {A} (e : exn) : M A :=
  match e with
  | ExpiredSignatureError =>
      mraise (HTTPException 401 (py "Token expired. Please sign in again."))
  | InvalidTokenError =>
      mraise (HTTPException 401 (py "Invalid authentication token."))
  | _ =>
      mraise (HTTPException 401 (py "Authentication failed."))
  end.

(** [auth_header.split(" ")[1]] *)
Definition bearer_token (auth_header : str) : str :=
  default [] (split 32%N auth_header !! 1%nat).

Definition verify_authenticated_user (w : World) (request : Request) : M Json.value :=
  match headers_get request (py "Authorization") with
  | Some auth_header =>
      if truthy auth_header && startswith auth_header (py "Bearer ") then
        let token := bearer_token auth_header in
        try_except (verify_token w token) auth_handler
      else mraise (HTTPException 401 (py "Authentication required. Please sign in."))
  | None => mraise (HTTPException 401 (py "Authentication required. Please sign in."))
  end.

(** *** Validation *)

Definition validate_request (w : World) (request : AnalyzeRequest.t) : result unit :=
  let code := AnalyzeRequest.code request in
  if negb (truthy code) || negb (truthy (strip code)) then
    Raise (HTTPException 400 (py "Code cannot be empty"))
  else if 50000 <? len code then
    Raise (HTTPException 400 (py "Code is too large. Maximum size is 50KB"))
  else
    match compile w code with
    | Compiled => Return tt
    | RaisesSyntaxError msg =>
        Raise (HTTPException 400 (py "Invalid Python syntax: " ++ msg))
    | RaisesOther e => Raise e
    end.

Definition check_api_keys (w : World) : result unit :=
  match getenv w (py "GROQ_API_KEY") with
  | Some key =>
      if truthy key then Return tt
      else Raise (HTTPException 500 (py "Service temporarily unavailable"))
  | None => Raise (HTTPException 500 (py "Service temporarily unavailable"))
  end.

Definition verify_api_key (w : World) (x_api_key : option str) : result bool :=
  if eqb (lower (getenv_default w (py "REQUIRE_API_KEY") (py "false"))) (py "true") then
    let valid_keys := split 44%N (getenv_default w (py "VALID_API_KEYS") []) in
    match x_api_key with
    | Some key =>
        if truthy key && bool_decide (key ∈ valid_keys) then Return true
        else Raise (HTTPException 401 (py "Invalid or missing API key"))
    | None => Raise (HTTPException 401 (py "Invalid or missing API key"))
    end
  else Return true.

(** *** Cross-origin requests *)

(** [cors_origins], the origins the CORS middleware allows:
    [os.getenv("ALLOWED_ORIGINS", ...).split(",")]. *)
Definition cors_origins (w : World) : list str :=
  split 44%N (getenv_default w (py "ALLOWED_ORIGINS")
                (py "http://localhost:3000,http://localhost:3001")).

(** *** Analysis *)

(** [context.SECURITY_RESEARCHER_INSTRUCTIONS] *)
Definition SECURITY_RESEARCHER_INSTRUCTIONS : str := lit "
You are an expert cybersecurity researcher.

Analyze the provided Python code for security vulnerabilities.

For each vulnerability you find, provide:
- A clear title
- Detailed description of the security issue
- The vulnerable code snippet
- How to fix it
- CVSS score (0.0-10.0)
- Severity level (critical/high/medium/low)

Focus on common issues like:
- SQL injection
- Command injection
- Hardcoded secrets
- Insecure eval/exec usage
- Path traversal
- Deserialization issues
- Authentication/authorization flaws
- Cryptographic weaknesses

Return your analysis in JSON format:
{
  'summary': 'Executive summary',
  'issues': [
    {
      'title': 'Issue title',
      'description': 'Detailed description',
      'code': 'Vulnerable code',
      'fix': 'How to fix',
      'cvss_score': 7.5,
      'severity': 'high'
    }
  ]
}
".

(** [context.get_analysis_prompt] *)
Definition get_analysis_prompt (code : str) : str :=
  py "Analyze this Python code for security vulnerabilities:" ++ nl ++ nl ++ code.

Definition analysis_request (code : str) : ChatRequest :=
  {| model := py "llama-3.3-70b-versatile";
     messages := [(py "system", SECURITY_RESEARCHER_INSTRUCTIONS);
                  (py "user", get_analysis_prompt code)];
     temperature := Json.Float false 1 (-1);
     max_tokens := 4000;
     json_object := true;
     stream := false |}.

(** The report returned when no JSON can be located in the reply. *)
Definition degraded_report (output_text : str) : SecurityReport.t :=
  {| SecurityReport.summary :=
       py "Failed to parse analysis results. Raw output: " ++ take 200 output_text;
     SecurityReport.issues := [] |}.

(** The response normaliser: what [run_security_analysis_with_mcp] does
    with the text of the reply (the [# Extract JSON] block and the
    construction of the report). *)
Definition normalize_response (lim : Json.Limits) (px : Pydantic) (output_text : str)
    : result SecurityReport.t :=
  match Json.loads lim output_text with
  | Return data => Model.SecurityReport_init px data
  | Raise JSONDecodeError =>
      match Re.search Re.json_fence output_text with
      | Some json_match =>
          data <- Json.loads lim (Re.group1 json_match);;
          Model.SecurityReport_init px data
      | None =>
          match Re.search Re.brace_span output_text with
          | Some json_match =>
              data <- Json.loads lim (Re.group0 json_match);;
              Model.SecurityReport_init px data
          | None => Return (degraded_report output_text)
          end
      end
  | Raise e => Raise e
  end.

(** The [except Exception] clause of [run_security_analysis_with_mcp] logs
    and raises again, so it is the identity here. *)
Definition run_security_analysis_with_mcp (w : World) (code : str) : M SecurityReport.t :=
  _ <~ lift (AsyncOpenAI w (getenv w (py "GROQ_API_KEY")));;
  choices <~ logged (ChatCompletionsCreate (analysis_request code))
               (chat_completions_create w (analysis_request code));;
  lift (
    match choices with
    | [] => Raise (Error (py "IndexError"))
    | None :: _ => Raise TypeError                 (* len(None) *)
    | Some output_text :: _ => normalize_response (limits w) (pydantic w) output_text
    end).

(** The body of the route [/api/analyze]. *)
Definition analyze_code (w : World) (analyze_request : AnalyzeRequest.t)
    (x_api_key : option str) : M SecurityReport.t :=
  let request_id := take 8 (uuid4 w) in
  try_except
    (_ <~ lift (verify_api_key w x_api_key);;
     _ <~ lift (validate_request w analyze_request);;
     _ <~ lift (check_api_keys w);;
     run_security_analysis_with_mcp w (AnalyzeRequest.code analyze_request))
    (fun e =>
       match e with
       | HTTPException _ _ | RateLimitExceeded => mraise e
       | _ => mraise (HTTPException 500
                        (py "Analysis failed. Contact support with ID: " ++ request_id))
       end).

(** *** Fixes *)

(** [str(n)] for a natural number. *)
Definition str_of_nat (n : nat) : str :=
  py (DecimalString.NilEmpty.string_of_uint (Nat.to_uint n)).

(** [sep.join(l)] *)
Fixpoint join (sep : str) (l : list str) : str :=
  match l with
  | [] => []
  | [x] => x
  | x :: l' => x ++ sep ++ join sep l'
  end.

Definition issues_text (issues : list SecurityIssue.t) : str :=
  join nl (imap (fun i issue =>
                   str_of_nat (i + 1) ++ py ". " ++ SecurityIssue.title issue
                   ++ py ": " ++ SecurityIssue.description issue) issues).

Definition fix_prompt (fix_request : FixRequest.t) : str :=
  py "Fix the following security issues in this Python code:" ++ nl ++ nl
  ++ py "ISSUES TO FIX:" ++ nl
  ++ issues_text (FixRequest.issues fix_request) ++ nl ++ nl
  ++ py "ORIGINAL CODE:" ++ nl
  ++ FixRequest.code fix_request ++ nl ++ nl
  ++ py "Return ONLY the fixed code with all security issues resolved. Maintain the original code structure and comments.".

Definition fix_chat_request (fix_request : FixRequest.t) : ChatRequest :=
  {| model := py "llama-3.3-70b-versatile";
     messages := [(py "user", fix_prompt fix_request)];
     temperature := Json.Float false 2 (-1);
     max_tokens := 4000;
     json_object := false;
     stream := true |}.

(** The four server-sent events, as written on the wire. *)
Definition sse_start : str :=
  py "event: start" ++ nl ++ lit "data: {'status': 'Starting fixes...'}" ++ nl ++ nl.

Definition sse_chunk (content : str) : str :=
  py "event: chunk" ++ nl ++ py "data: "
  ++ Json.dumps_member (py "chunk") content ++ nl ++ nl.

Definition sse_complete (fixed_code : str) : str :=
  py "event: complete" ++ nl ++ py "data: "
  ++ Json.dumps_member (py "fixed_code") fixed_code ++ nl ++ nl.

Definition sse_error : str :=
  py "event: error" ++ nl ++ lit "data: {'error': 'Fix failed'}" ++ nl ++ nl.

(** The [async for] loop of [generate_fix_stream]: the events it yields
    and how it ends, with the fixed code gathered so far.  [import json]
    stands inside the branch that sends a chunk, which makes [json] a
    local name of the generator: [json_bound] tells whether the branch
    has run. *)
Fixpoint stream_chunks (items : list chunk) (failure : option exn)
    (json_bound : bool) (fixed_code : str) : list str * result (bool * str) :=
  match items with
  | [] =>
      match failure with
      | Some e => ([], Raise e)
      | None => ([], Return (json_bound, fixed_code))
      end
  | [] :: _ => ([], Raise (Error (py "IndexError")))        (* chunk.choices[0] *)
  | (Some content :: _) :: items' =>
      if truthy content then
        let '(events, r) := stream_chunks items' failure true (fixed_code ++ content) in
        (sse_chunk content :: events, r)
      else stream_chunks items' failure json_bound fixed_code
  | (None :: _) :: items' => stream_chunks items' failure json_bound fixed_code
  end.

(** The last event: [complete] with the code gathered, or [error] when
    the loop raised, or when it sent no chunk and [json] is not bound
    where the completion is written ([UnboundLocalError], which the
    [except Exception] clause receives like any other). *)
Definition last_event (r : result (bool * str)) : str :=
  match r with
  | Return (true, fixed_code) => sse_complete fixed_code
  | Return (false, _) => sse_error
  | Raise _ => sse_error
  end.

(** The generator behind the streaming response: the events it yields, in
    order, and the outbound calls it makes. *)
Definition generate_fix_stream (w : World) (fix_request : FixRequest.t) : list str * list call :=
  match AsyncOpenAI w (getenv w (py "GROQ_API_KEY")) with
  | Raise _ => ([sse_error], [])
  | Return _ =>
      let req := fix_chat_request fix_request in
      match chat_completions_stream w req with
      | Raise _ => ([sse_start; sse_error], [ChatCompletionsCreate req])
      | Return (items, failure) =>
          let '(events, r) := stream_chunks items failure false [] in
          (sse_start :: events ++ [last_event r], [ChatCompletionsCreate req])
      end
  end.

(** The body of the route [/api/fix]: the events of the streaming response
    it returns. *)
Definition fix_security_issues (w : World) (fix_request : FixRequest.t)
    (x_api_key : option str) : M (list str) :=
  _ <~ lift (verify_api_key w x_api_key);;
  (Return (generate_fix_stream w fix_request).1, (generate_fix_stream w fix_request).2).

(** *** The application *)

Inductive response : Type :=
| Report (report : SecurityReport.t)          (* 200, the report as JSON *)
| EventStream (events : list str)             (* 200, text/event-stream *)
| HTTPError (status : Z) (detail : str)       (* an HTTPException *)
| TooManyRequests                             (* slowapi's handler *)
| InternalServerError                         (* any other exception *)
| UnprocessableEntity.                        (* a RequestValidationError *)

Definition status_code (r : response) : Z :=
  match r with
  | Report _ | EventStream _ => 200
  | HTTPError status _ => status
  | TooManyRequests => 429
  | InternalServerError => 500
  | UnprocessableEntity => 422
  end.

Definition exception_response (e : exn) : response :=
  match e with
  | HTTPException status detail => HTTPError status detail
  | RateLimitExceeded => TooManyRequests
  | _ => InternalServerError
  end.

(** A protected route, from the body of the request read and validated:
    FastAPI resolves the dependency [verify_authenticated_user], then
    calls the route's function, which [@limiter.limit("7/day")] has
    wrapped: the limit is checked under the key [get_user_email] gives
    and the route's path, and only then the body runs.  The response
    stands for the value the function returns or the exception it raises;
    what comes before and after is in [endpoint] below. *)
Definition protected_route {A} (path : str) (body : M A) (respond : A -> response)
    (w : World) (now : Z) (st : Limiter.storage) (request : Request)
    : response * Limiter.storage * list call :=
  match verify_authenticated_user w request with
  | (Raise e, calls) => (exception_response e, st, calls)
  | (Return user_email, calls) =>
      match Limiter.check_request_limit now (get_user_email request) path st with
      | (Raise e, st') => (exception_response e, st', calls)
      | (Return _, st') =>
          match body with
          | (Return a, calls') => (respond a, st', calls ++ calls')
          | (Raise e, calls') => (exception_response e, st', calls ++ calls')
          end
      end
  end.

(** The two routes from the validated body on: the dependency, the
    limiter and the route's function.  [analyze_endpoint] and
    [fix_endpoint] below are the routes from the bytes of the request to
    the response sent. *)
Definition POST_api_analyze (w : World) (now : Z) (st : Limiter.storage)
    (request : Request) (analyze_request : AnalyzeRequest.t)
    : response * Limiter.storage * list call :=
  protected_route (py "/api/analyze")
    (analyze_code w analyze_request (headers_get request (py "X-API-Key")))
    Report w now st request.

Definition POST_api_fix (w : World) (now : Z) (st : Limiter.storage)
    (request : Request) (fix_request : FixRequest.t)
    : response * Limiter.storage * list call :=
  protected_route (py "/api/fix")
    (fix_security_issues w fix_request (headers_get request (py "X-API-Key")))
    EventStream w now st request.

(** The calls to the LLM gateway among the outbound calls. *)
Definition gateway_calls (calls : list call) : list ChatRequest :=
  omap (fun c => match c with ChatCompletionsCreate req => Some req | _ => None end) calls.

(** *** From the bytes of the request

    The body of a request as it arrives: bytes, at least one, sent as
    JSON (a JSON content type, or none) that decode to a text; bytes sent
    as JSON that the encoding [json.loads] detects does not decode; or no
    body, an empty one, or one of another content type. *)
Inductive body : Type :=
| JsonBody (text : str)
| UndecodableBody
| NoJsonBody.

Inductive body_reading : Type :=
| BodyRead (v : option Json.value)
| BodyInvalid                   (* json.JSONDecodeError: RequestValidationError *)
| BodyError.                    (* any other exception: HTTPException 400 *)

(** FastAPI reads the body with [await request.json()] before it resolves
    any dependency. *)
Definition read_body (lim : Json.Limits) (b : body) : body_reading :=
  match b with
  | JsonBody text =>
      match Json.loads lim text with
      | Return v => BodyRead (Some v)
      | Raise JSONDecodeError => BodyInvalid
      | Raise _ => BodyError
      end
  | UndecodableBody => BodyError
  | NoJsonBody => BodyRead None
  end.

(** What FastAPI sends for the value a route returned: a report is
    serialised, and when that fails the exception reaches the server,
    which answers 500; a streaming response and the responses to
    exceptions are sent as they are. *)
Definition send (w : World) (r : response) : response :=
  match r with
  | Report report =>
      match serialize_response w report with
      | Return _ => Report report
      | Raise _ => InternalServerError
      end
  | _ => r
  end.

(** A route with a body parameter, from the request as it arrives: the
    body is read; the dependency [verify_authenticated_user] is resolved;
    the body is validated against the parameter's model; [route] does the
    rest (it takes the verifier's outcome found here), and what it
    returns is sent. *)
Definition endpoint {A} (validate : Json.value -> result A)
    (route : A -> response * Limiter.storage * list call)
    (w : World) (st : Limiter.storage) (request : Request) (b : body)
    : response * Limiter.storage * list call :=
  match read_body (limits w) b with
  | BodyInvalid => (UnprocessableEntity, st, [])
  | BodyError => (HTTPError 400 (py "There was an error parsing the body"), st, [])
  | BodyRead v =>
      match verify_authenticated_user w request with
      | (Raise e, calls) => (exception_response e, st, calls)
      | (Return _, calls) =>
          match v with
          | None => (UnprocessableEntity, st, calls)
          | Some v =>
              match validate v with
              | Raise _ => (UnprocessableEntity, st, calls)
              | Return a =>
                  let '(r, st', calls') := route a in (send w r, st', calls')
              end
          end
      end
  end.

(** [POST /api/analyze] and [POST /api/fix] as the application serves
    them. *)
Definition analyze_endpoint (w : World) (now : Z) (st : Limiter.storage)
    (request : Request) (b : body) : response * Limiter.storage * list call :=
  endpoint (Model.AnalyzeRequest_validate (pydantic w))
    (POST_api_analyze w now st request) w st request b.

Definition fix_endpoint (w : World) (now : Z) (st : Limiter.storage)
    (request : Request) (b : body) : response * Limiter.storage * list call :=
  endpoint (Model.FixRequest_validate (pydantic w))
    (POST_api_fix w now st request) w st request b.

End Server.

(** ** Vocabulary of the properties *)

Module Text.
Import PyStr.

(** The text after the first occurrence of [p] in [s]. *)
Fixpoint find_after (p s : str) : option str :=
  if startswith s p then Some (drop (length p) s)
  else match s with
       | [] => None
       | _ :: s' => find_after p s'
       end.

(** [p in s] *)
Definition contains (p s : str) : bool :=
  match find_after p s with Some _ => true | None => false end.

(** The text holds [```json] and, somewhere after it, [```]. *)
Definition has_json_fence (text : str) : bool :=
  match find_after (py "```json") text with
  | Some rest => contains (py "```") rest
  | None => false
  end.

(** The text holds an opening brace and, somewhere after it, a closing one. *)
Definition has_brace_span (text : str) : bool :=
  match find_after (py "{") text with
  | Some rest => contains (py "}") rest
  | None => false
  end.

(** All characters of [s] are white space. *)
Definition blank (s : str) : bool := forallb isspace s.

(** Neither white space nor a backtick: what the last character of a JSON
    document always is. *)
Definition closing (c : char) : bool := negb (isspace c) && negb (c =? 96)%N.

(** [s] is some text, a digit, and [r]. *)
Definition ends_with_digit (s r : str) : Prop :=
  exists pre c, s = pre ++ c :: r /\ Json.is_digit c = true.

(** [s] in a fenced block tagged [json], with white space [ws1] and [ws2]
    between the fences and the text. *)
Definition fenced (ws1 s ws2 : str) : str :=
  py "```json" ++ ws1 ++ s ++ ws2 ++ py "```".

(** The value [payload.get(name)] of a claim of a token payload, [None]
    when the claim is absent. *)
Definition claim (d : list (str * Json.value)) (name : str) : Json.value :=
  default Json.Null (Json.dict_get name d).




End Text.

(** Streams, as the properties speak of them. *)
Module Stream.
Import PyStr.

(** The text an item of a streamed completion carries: [delta.content] of
    its first choice, when it is there and not empty. *)
Definition fragment (item : Server.chunk) : option str :=
  match item with
  | Some content :: _ => if truthy content then Some content else None
  | _ => None
  end.

(** The texts of the items that carry one, in arrival order. *)
Definition fragments (items : list Server.chunk) : list str := omap fragment items.

(** The items up to the first one that has no choice at all. *)
Fixpoint readable (items : list Server.chunk) : list Server.chunk :=
  match items with
  | [] => []
  | [] :: _ => []
  | item :: items' => item :: readable items'
  end.

(** Every item has a first choice. *)
Definition well_formed (items : list Server.chunk) : bool :=
  forallb (fun item => match item with [] => false | _ => true end) items.

(** Some item carries text. *)
Definition has_text (items : list Server.chunk) : bool :=
  match fragments items with [] => false | _ :: _ => true end.

End Stream.

(** Requests, answers and events, as the properties speak of them. *)
Module Http.
Import PyStr Server.

(** The details of the 401 answers of the identity verifier. *)
Definition rejections : list str :=
  [py "Authentication required. Please sign in.";
   py "Token expired. Please sign in again.";
   py "Invalid authentication token.";
   py "Authentication failed."].

(** The address the key set of the issuer [host] is fetched from. *)
Definition jwks_url (host : str) : str :=
  py "https://" ++ host ++ py "/.well-known/jwks.json".

(** [request] with the header [name] set to [value]. *)
Definition with_header (name value : str) (request : Request) : Request :=
  {| headers := <[lower name := value]> (headers request);
     client_host := client_host request |}.

(** What the [except] clauses of [analyze_code] make of an exception: an
    [HTTPException] passes, anything else becomes a 500 that names the
    request. *)
Definition masked (w : World) (e : exn) : exn :=
  match e with
  | HTTPException _ _ | RateLimitExceeded => e
  | _ => HTTPException 500
           (py "Analysis failed. Contact support with ID: " ++ take 8 (uuid4 w))
  end.


(** A printable ASCII character (no line break among them). *)
Definition printable (c : char) : bool := ((32 <=? c) && (c <=? 126))%N.

(** A Unicode scalar value: a code point that is not a surrogate. *)
Definition scalar (c : char) : bool :=
  ((c <? 55296) || (57344 <=? c) && (c <? 1114112))%N.

(** A server-sent event with an [event] and a [data] field. *)
Definition sse_event (name data : str) : str :=
  py "event: " ++ name ++ nl ++ py "data: " ++ data ++ nl ++ nl.

End Http.

(** Worlds and requests for the examples. *)
Module Demo.
Import PyStr Server.

(** A pydantic that converts nothing. *)
Definition strict : Pydantic :=
  {| lax_str := fun _ => None; lax_float := fun _ => None |}.

(** An interpreter with the default limit on [int] literals and room for
    documents nested nine hundred deep. *)
Definition cpython : Json.Limits := {| Json.recursion := 900; Json.max_str_digits := 4300 |}.

(** A serialiser that fails where [JSONResponse.render] does: on a text
    UTF-8 cannot encode (a lone surrogate in it) and on a score that is
    not a finite number. *)
Definition renders_issue (issue : SecurityIssue.t) : bool :=
  forallb Http.scalar (SecurityIssue.title issue)
  && forallb Http.scalar (SecurityIssue.description issue)
  && forallb Http.scalar (SecurityIssue.code issue)
  && forallb Http.scalar (SecurityIssue.fix_ issue)
  && Json.finite (SecurityIssue.cvss_score issue)
  && forallb Http.scalar (SecurityIssue.severity issue).

Definition render (report : SecurityReport.t) : result unit :=
  if forallb Http.scalar (SecurityReport.summary report)
     && forallb renders_issue (SecurityReport.issues report)
  then Return tt else Raise (Error (py "ValueError")).

(** A world given by its environment, its Python parser, the payload of
    the bearer token, and the replies of the model. *)
Definition world (env : list (str * str)) (parser : str -> compile_outcome)
    (payload : result Json.value) (reply : result (list (option str)))
    (streamed : result (list chunk * option exn)) : World :=
  {| environ := list_to_map env;
     compile := parser;
     pydantic := strict;
     httpx_get_json := fun _ => Raise (Error (py "ConnectError"));
     jwt_get_unverified_header := fun _ => Raise InvalidTokenError;
     RSAAlgorithm_from_jwk := fun _ => Return tt;
     jwt_decode := fun _ _ => payload;
     AsyncOpenAI := fun api_key =>
       match api_key with
       | Some _ => Return tt
       | None => Raise (Error (py "OpenAIError"))
       end;
     chat_completions_create := fun _ => reply;
     chat_completions_stream := fun _ => streamed;
     uuid4 := py "123e4567-e89b-12d3-a456-426614174000";
     limits := cpython;
     serialize_response := render |}.

(** Development settings: no issuer configured and strict verification
    switched off, the model's credential present. *)
Definition dev_env : list (str * str) :=
  [(py "REQUIRE_JWT_VERIFICATION", py "false"); (py "GROQ_API_KEY", py "gsk_test")].

(** Default settings: nothing set but the model's credential. *)
Definition default_env : list (str * str) := [(py "GROQ_API_KEY", py "gsk_test")].

Definition accept_all : str -> compile_outcome := fun _ => Compiled.
Definition reject_all : str -> compile_outcome :=
  fun _ => RaisesSyntaxError (py "invalid syntax (<string>, line 1)").

Definition alice : Json.value :=
  Json.Obj [(py "sub", Json.Str (py "user_1")); (py "email", Json.Str (py "alice@example.com"))].

Definition no_reply : result (list (option str)) := Raise (Error (py "APIConnectionError")).
Definition no_stream : result (list chunk * option exn) := Raise (Error (py "APIConnectionError")).

Definition request (hdrs : list (str * str)) : Request :=
  {| headers := list_to_map hdrs; client_host := Some (py "203.0.113.7") |}.

Definition bearer : list (str * str) :=
  [(py "authorization", py "Bearer eyJhbGciOi.eyJzdWIiOi.c2ln");
   (py "x-user-email", py "alice@example.com")].

(** [n] requests in a row to one route, all at time [now]; the responses
    in order and the limiter's storage afterwards. *)
Fixpoint repeat_route (route : Limiter.storage -> response * Limiter.storage * list call)
    (n : nat) (st : Limiter.storage) : list response * Limiter.storage :=
  match n with
  | O => ([], st)
  | S n' =>
      let '(r, st', _) := route st in
      let '(rs, st'') := repeat_route route n' st' in
      (r :: rs, st'')
  end.

End Demo.

(** More worlds for the examples: an issuer, client API keys, a reply. *)
Module Sample.
Import PyStr Server.

(** The key set an issuer publishes, and the header of a token signed
    with its second key. *)
Definition jwks : Json.value :=
  Json.Obj [(py "keys",
             Json.Arr [Json.Obj [(py "kty", Json.Str (py "RSA"));
                                 (py "kid", Json.Str (py "key_0"))];
                       Json.Obj [(py "kty", Json.Str (py "RSA"));
                                 (py "kid", Json.Str (py "key_1"))]])].

Definition token_header : Json.value :=
  Json.Obj [(py "alg", Json.Str (py "RS256")); (py "kid", Json.Str (py "key_1"))].

(** A world with the issuer [clerk.example.com] configured: its key set
    is served, and a token verifies against the key its header names. *)
Definition issuer_world (reply : result (list (option str))) : World :=
  {| environ := list_to_map [(py "CLERK_FRONTEND_API", py "clerk.example.com");
                             (py "GROQ_API_KEY", py "gsk_test")];
     compile := Demo.accept_all;
     pydantic := Demo.strict;
     httpx_get_json := fun url =>
       if eqb url (py "https://clerk.example.com/.well-known/jwks.json")
       then Return jwks else Raise (Error (py "ConnectError"));
     jwt_get_unverified_header := fun _ => Return token_header;
     RSAAlgorithm_from_jwk := fun _ => Return tt;
     jwt_decode := fun _ key =>
       match key with
       | Some (Json.Obj [(_, _); (_, Json.Str [107; 101; 121; 95; 49]%N)]) =>
           Return Demo.alice
       | _ => Raise InvalidTokenError
       end;
     AsyncOpenAI := fun _ => Return tt;
     chat_completions_create := fun _ => reply;
     chat_completions_stream := fun _ => Demo.no_stream;
     uuid4 := py "123e4567-e89b-12d3-a456-426614174000";
     limits := Demo.cpython;
     serialize_response := Demo.render |}.

(** Settings with the client API key required. *)
Definition keyed_env : list (str * str) :=
  [(py "REQUIRE_API_KEY", py "True"); (py "VALID_API_KEYS", py "k-one,k-two");
   (py "REQUIRE_JWT_VERIFICATION", py "false"); (py "GROQ_API_KEY", py "gsk_test")].

(** A reply of the model that holds a report. *)
Definition report_text : str := lit "{'summary': 'ok', 'issues': []}".
Definition report : SecurityReport.t :=
  {| SecurityReport.summary := py "ok"; SecurityReport.issues := [] |}.

End Sample.

(** * Properties *)

(** ** Strings *)

Section PyStrFacts.
Import PyStr.

Lemma strip_nil : strip [] = [].
Proof. reflexivity. Qed.

Lemma truthy_strip (s : str) : truthy (strip s) = true -> truthy s = true.
Proof. destruct s; [rewrite strip_nil | ]; auto. Qed.

Lemma utf8_width_pos (c : char) : 1 <= utf8_width c.
Proof. unfold utf8_width; repeat case_match; lia. Qed.

(** The UTF-8 encoding of a string has at least one byte per character. *)
Lemma utf8_len_ge (s : str) : len s <= utf8_len s.
Proof.
  unfold len, utf8_len; induction s as [|c s IH]; simpl; [lia|].
  pose proof (utf8_width_pos c); lia.
Qed.

End PyStrFacts.

(** ** The request validator *)

Section Validator.
Import PyStr Server.

Lemma validate_request_nonblank (w : World) (request : AnalyzeRequest.t) :
  truthy (strip (AnalyzeRequest.code request)) = true ->
  validate_request w request =
    if 50000 <? len (AnalyzeRequest.code request) then
      Raise (HTTPException 400 (py "Code is too large. Maximum size is 50KB"))
    else
      match compile w (AnalyzeRequest.code request) with
      | Compiled => Return tt
      | RaisesSyntaxError msg =>
          Raise (HTTPException 400 (py "Invalid Python syntax: " ++ msg))
      | RaisesOther e => Raise e
      end.
Proof.
  intros H. unfold validate_request.
  rewrite H, (truthy_strip _ H). reflexivity.
Qed.

(** C3, as the code has it: an input of more than 50,000 characters (hence
    of more than 50,000 bytes) that holds a character other than white
    space is refused as too large, whatever the parser would say of it. *)
Theorem validate_request_too_large (w : World) (request : AnalyzeRequest.t) :
  50000 < len (AnalyzeRequest.code request) ->
  truthy (strip (AnalyzeRequest.code request)) = true ->
  validate_request w request =
    Raise (HTTPException 400 (py "Code is too large. Maximum size is 50KB"))
  /\ 50000 < utf8_len (AnalyzeRequest.code request).
Proof.
  intros Hlen Hnb. split.
  - rewrite validate_request_nonblank by done.
    apply Z.ltb_lt in Hlen. by rewrite Hlen.
  - pose proof (utf8_len_ge (AnalyzeRequest.code request)). lia.
Qed.

Lemma validate_request_too_large_witness :
  let w := Demo.world Demo.default_env Demo.accept_all (Return Demo.alice)
             Demo.no_reply Demo.no_stream in
  let request := {| AnalyzeRequest.code := repeat_char 120%N 50001 |} in
  validate_request w request =
    Raise (HTTPException 400 (py "Code is too large. Maximum size is 50KB"))
  /\ 50000 < utf8_len (AnalyzeRequest.code request).
Proof.
  apply (validate_request_too_large
           (Demo.world Demo.default_env Demo.accept_all (Return Demo.alice)
              Demo.no_reply Demo.no_stream)
           {| AnalyzeRequest.code := repeat_char 120%N 50001 |});
    vm_compute; reflexivity.
Defined.

(** C3 as stated fails: 50,001 spaces are refused as empty, not as too
    large; and the bound is on [len], which counts characters: a name of
    25,001 letters of two bytes each has 50,002 bytes and passes. *)
Lemma validate_request_blank_not_too_large :
  let w := Demo.world Demo.default_env Demo.accept_all (Return Demo.alice)
             Demo.no_reply Demo.no_stream in
  let request := {| AnalyzeRequest.code := repeat_char 32%N 50001 |} in
  let name := {| AnalyzeRequest.code := repeat_char 233%N 25001 |} in
  50000 < utf8_len (AnalyzeRequest.code request)
  /\ validate_request w request = Raise (HTTPException 400 (py "Code cannot be empty"))
  /\ validate_request w request <>
       Raise (HTTPException 400 (py "Code is too large. Maximum size is 50KB"))
  /\ 50000 < utf8_len (AnalyzeRequest.code name)
  /\ validate_request w name = Return tt.
Proof. vm_compute. repeat split; congruence. Qed.

End Validator.

Section ValidatorSyntax.
Import PyStr Server.

(** C6, as the code has it: among the inputs that are not blank and have
    at most 50,000 characters, those the parser refuses with a
    [SyntaxError] fail with its message and those it accepts pass. *)
Theorem validate_request_syntax_check (w : World) (request : AnalyzeRequest.t) :
  truthy (strip (AnalyzeRequest.code request)) = true ->
  len (AnalyzeRequest.code request) <= 50000 ->
  (forall msg, compile w (AnalyzeRequest.code request) = RaisesSyntaxError msg ->
     validate_request w request =
       Raise (HTTPException 400 (py "Invalid Python syntax: " ++ msg)))
  /\ (compile w (AnalyzeRequest.code request) = Compiled ->
      validate_request w request = Return tt).
Proof.
  intros Hnb Hlen.
  rewrite validate_request_nonblank by done.
  apply Z.ltb_ge in Hlen. rewrite Hlen.
  split; [intros msg Hc | intros Hc]; by rewrite Hc.
Qed.

(** Another failure of the parser ([ValueError], [RecursionError],
    [MemoryError]) is not caught by the validator. *)
Lemma validate_request_parser_failure (w : World) (request : AnalyzeRequest.t) (e : exn) :
  truthy (strip (AnalyzeRequest.code request)) = true ->
  len (AnalyzeRequest.code request) <= 50000 ->
  compile w (AnalyzeRequest.code request) = RaisesOther e ->
  validate_request w request = Raise e.
Proof.
  intros Hnb Hlen Hc. rewrite validate_request_nonblank by done.
  apply Z.ltb_ge in Hlen. by rewrite Hlen, Hc.
Qed.

Lemma validate_request_syntax_check_witness :
  validate_request
    (Demo.world Demo.default_env Demo.reject_all (Return Demo.alice)
       Demo.no_reply Demo.no_stream)
    {| AnalyzeRequest.code := py "x = (" |} =
    Raise (HTTPException 400
             (py "Invalid Python syntax: invalid syntax (<string>, line 1)"))
  /\ validate_request
       (Demo.world Demo.default_env Demo.accept_all (Return Demo.alice)
          Demo.no_reply Demo.no_stream)
       {| AnalyzeRequest.code := py "import os" |} = Return tt.
Proof.
  split.
  - apply (validate_request_syntax_check
             (Demo.world Demo.default_env Demo.reject_all (Return Demo.alice)
                Demo.no_reply Demo.no_stream)
             {| AnalyzeRequest.code := py "x = (" |});
      vm_compute; congruence.
  - apply (validate_request_syntax_check
             (Demo.world Demo.default_env Demo.accept_all (Return Demo.alice)
                Demo.no_reply Demo.no_stream)
             {| AnalyzeRequest.code := py "import os" |});
      vm_compute; congruence.
Defined.

(** C6 as stated fails: an input the parser refuses is answered with the
    size error when it has more than 50,000 characters, and with the
    emptiness error when it is blank (a no-break space is white space for
    [strip], and not Python). *)
Lemma validate_request_invalid_without_syntax_error :
  let w := Demo.world Demo.default_env Demo.reject_all (Return Demo.alice)
             Demo.no_reply Demo.no_stream in
  let large := {| AnalyzeRequest.code := repeat_char 40%N 50001 |} in
  let blank := {| AnalyzeRequest.code := [160%N] |} in
  (exists msg, compile w (AnalyzeRequest.code large) = RaisesSyntaxError msg)
  /\ validate_request w large =
       Raise (HTTPException 400 (py "Code is too large. Maximum size is 50KB"))
  /\ (exists msg, compile w (AnalyzeRequest.code blank) = RaisesSyntaxError msg)
  /\ validate_request w blank = Raise (HTTPException 400 (py "Code cannot be empty")).
Proof.
  cbv zeta. split; [eexists; reflexivity|].
  split; [vm_compute; reflexivity|].
  split; [eexists; reflexivity|]. vm_compute; reflexivity.
Qed.

End ValidatorSyntax.

(** ** The identity verifier *)

Section Authentication.
Import PyStr Server Text.

Lemma verify_authenticated_user_bearer (w : World) (request : Request) (auth_header : str) :
  headers_get request (py "Authorization") = Some auth_header ->
  startswith auth_header (py "Bearer ") = true ->
  verify_authenticated_user w request =
    try_except (verify_token w (bearer_token auth_header)) auth_handler.
Proof.
  intros Hh Hb. unfold verify_authenticated_user. rewrite Hh, Hb.
  by destruct auth_header.
Qed.

Lemma verify_authenticated_user_no_bearer (w : World) (request : Request) :
  (forall h, headers_get request (py "Authorization") = Some h ->
             startswith h (py "Bearer ") = false) ->
  verify_authenticated_user w request =
    (Raise (HTTPException 401 (py "Authentication required. Please sign in.")), []).
Proof.
  intros H. unfold verify_authenticated_user.
  destruct (headers_get request (py "Authorization")) as [h|]; [|done].
  rewrite (H h eq_refl), andb_false_r. done.
Qed.

(** With no issuer configured and strict verification required, the 500
    raised inside the [try] block is caught by [except Exception] and
    leaves as a 401. *)
Lemma verify_authenticated_user_misconfigured (w : World) (request : Request)
    (auth_header : str) :
  headers_get request (py "Authorization") = Some auth_header ->
  startswith auth_header (py "Bearer ") = true ->
  getenv_default w (py "CLERK_FRONTEND_API") [] = [] ->
  lower (getenv_default w (py "REQUIRE_JWT_VERIFICATION") (py "true")) = py "true" ->
  verify_authenticated_user w request =
    (Raise (HTTPException 401 (py "Authentication failed.")), []).
Proof.
  intros Hh Hb Hc Hr.
  rewrite (verify_authenticated_user_bearer _ _ _ Hh Hb).
  unfold verify_token, token_payload. rewrite Hc, Hr. reflexivity.
Qed.

(** C5 at the failing input: the default settings (no [CLERK_FRONTEND_API],
    [REQUIRE_JWT_VERIFICATION] left at its default) and a request with a
    bearer token.  The verifier answers 401 and so does the endpoint;
    nothing answers 500. *)
Theorem misconfigured_issuer_answers_401 :
  let w := Demo.world Demo.default_env Demo.accept_all (Return Demo.alice)
             Demo.no_reply Demo.no_stream in
  let request := Demo.request Demo.bearer in
  verify_authenticated_user w request =
    (Raise (HTTPException 401 (py "Authentication failed.")), [])
  /\ POST_api_analyze w 0 ∅ request {| AnalyzeRequest.code := py "x = 1" |} =
       (HTTPError 401 (py "Authentication failed."), ∅, [])
  /\ POST_api_fix w 0 ∅ request {| FixRequest.code := py "x = 1"; FixRequest.issues := [] |} =
       (HTTPError 401 (py "Authentication failed."), ∅, []).
Proof.
  cbv zeta.
  assert (H : verify_authenticated_user
                (Demo.world Demo.default_env Demo.accept_all (Return Demo.alice)
                   Demo.no_reply Demo.no_stream)
                (Demo.request Demo.bearer) =
              (Raise (HTTPException 401 (py "Authentication failed.")), [])).
  { apply (verify_authenticated_user_misconfigured _ _
             (py "Bearer eyJhbGciOi.eyJzdWIiOi.c2ln")); vm_compute; reflexivity. }
  split; [exact H|].
  unfold POST_api_analyze, POST_api_fix, protected_route. rewrite H. done.
Qed.

(** C9, as the code has it: the identity is the first of the claims
    [email], [primary_email_address] and [sub] whose value is true in
    Python's sense (present, and not empty, null, zero or false); with none
    such the request is answered 401. *)
Theorem identity_is_first_truthy_claim (w : World) (request : Request)
    (auth_header : str) (d : list (str * Json.value)) (calls : list call) :
  headers_get request (py "Authorization") = Some auth_header ->
  startswith auth_header (py "Bearer ") = true ->
  token_payload w (bearer_token auth_header) = (Return (Json.Obj d), calls) ->
  verify_authenticated_user w request =
    (if Json.truthy (claim d (py "email")) then Return (claim d (py "email"))
     else if Json.truthy (claim d (py "primary_email_address"))
          then Return (claim d (py "primary_email_address"))
     else if Json.truthy (claim d (py "sub")) then Return (claim d (py "sub"))
     else Raise (HTTPException 401 (py "Authentication failed.")),
     calls).
Proof.
  intros Hh Hb Hp.
  rewrite (verify_authenticated_user_bearer _ _ _ Hh Hb).
  unfold verify_token. rewrite Hp. cbn -[py].
  unfold user_identifier, get_method, py_or, claim. cbn -[py Json.truthy].
  set (e := default Json.Null (Json.dict_get (py "email") d)).
  set (p := default Json.Null (Json.dict_get (py "primary_email_address") d)).
  set (s := default Json.Null (Json.dict_get (py "sub") d)).
  destruct (Json.truthy e) eqn:He;
    [| destruct (Json.truthy p) eqn:Hq; [| destruct (Json.truthy s) eqn:Hs]];
    repeat (cbn -[py Json.truthy]; rewrite ?He, ?Hq, ?Hs);
    by rewrite ?app_nil_r.
Qed.

Lemma identity_is_first_truthy_claim_witness :
  verify_authenticated_user
    (Demo.world Demo.dev_env Demo.accept_all
       (Return (Json.Obj [(py "sub", Json.Str (py "user_1"));
                          (py "primary_email_address", Json.Str (py "a@example.com"))]))
       Demo.no_reply Demo.no_stream)
    (Demo.request Demo.bearer) =
  (Return (Json.Str (py "a@example.com")), []).
Proof.
  exact (identity_is_first_truthy_claim
           (Demo.world Demo.dev_env Demo.accept_all
              (Return (Json.Obj [(py "sub", Json.Str (py "user_1"));
                                 (py "primary_email_address", Json.Str (py "a@example.com"))]))
              Demo.no_reply Demo.no_stream)
           (Demo.request Demo.bearer)
           (py "Bearer eyJhbGciOi.eyJzdWIiOi.c2ln")
           [(py "sub", Json.Str (py "user_1"));
            (py "primary_email_address", Json.Str (py "a@example.com"))]
           [] eq_refl eq_refl eq_refl).
Defined.

(** C9 as stated fails: an [email] claim that is present and empty is
    passed over for [sub], and a token whose only claim of the three is an
    empty [sub] is refused although a claim is present. *)
Lemma identity_present_claim_passed_over :
  let payload1 := [(py "email", Json.Str []); (py "sub", Json.Str (py "user_1"))] in
  let payload2 := [(py "sub", Json.Str [])] in
  let w payload := Demo.world Demo.dev_env Demo.accept_all (Return (Json.Obj payload))
                     Demo.no_reply Demo.no_stream in
  Json.dict_get (py "email") payload1 = Some (Json.Str [])
  /\ verify_authenticated_user (w payload1) (Demo.request Demo.bearer) =
       (Return (Json.Str (py "user_1")), [])
  /\ Json.dict_get (py "sub") payload2 = Some (Json.Str [])
  /\ verify_authenticated_user (w payload2) (Demo.request Demo.bearer) =
       (Raise (HTTPException 401 (py "Authentication failed.")), []).
Proof. vm_compute. done. Qed.

End Authentication.

(** ** The endpoints *)

Section Endpoints.
Import PyStr Server.

Lemma protected_route_unauthenticated {A} (path : str) (body : M A)
    (respond : A -> response) (w : World) (now : Z) (st : Limiter.storage)
    (request : Request) (e : exn) (calls : list call) :
  verify_authenticated_user w request = (Raise e, calls) ->
  protected_route path body respond w now st request = (exception_response e, st, calls).
Proof. intros H. unfold protected_route. by rewrite H. Qed.

Lemma protected_route_admitted {A} (path : str) (body : M A)
    (respond : A -> response) (w : World) (now : Z) (st st' : Limiter.storage)
    (request : Request) (user : Json.value) (calls : list call) :
  verify_authenticated_user w request = (Return user, calls) ->
  Limiter.check_request_limit now (get_user_email request) path st = (Return tt, st') ->
  protected_route path body respond w now st request =
    (match body.1 with
     | Return a => respond a
     | Raise e => exception_response e
     end, st', calls ++ body.2).
Proof.
  intros Ha Hl. unfold protected_route. rewrite Ha, Hl.
  by destruct body as [[a|e] calls'].
Qed.

(** The route without a bearer credential: 401, no outbound call, the
    limiter untouched. *)
Lemma route_without_bearer (w : World) (now : Z) (st : Limiter.storage)
    (request : Request) (analyze_request : AnalyzeRequest.t) :
  (forall h, headers_get request (py "Authorization") = Some h ->
             startswith h (py "Bearer ") = false) ->
  POST_api_analyze w now st request analyze_request =
    (HTTPError 401 (py "Authentication required. Please sign in."), st, []).
Proof.
  intros H. unfold POST_api_analyze.
  by rewrite (protected_route_unauthenticated _ _ _ _ _ _ _ _ _
                (verify_authenticated_user_no_bearer w request H)).
Qed.

(** An endpoint whose request is not authenticated: the body is read
    first, and the verifier's answer is given when it could be read. *)
Lemma endpoint_unauthenticated {A} (validate : Json.value -> result A)
    (route : A -> response * Limiter.storage * list call)
    (w : World) (st : Limiter.storage) (request : Request) (b : body)
    (e : exn) (calls : list call) :
  verify_authenticated_user w request = (Raise e, calls) ->
  endpoint validate route w st request b =
    match read_body (limits w) b with
    | BodyRead _ => (exception_response e, st, calls)
    | BodyInvalid => (UnprocessableEntity, st, [])
    | BodyError => (HTTPError 400 (py "There was an error parsing the body"), st, [])
    end.
Proof. intros H. unfold endpoint. rewrite H. by destruct (read_body _ b). Qed.

(** An endpoint whose request is authenticated and whose body is read and
    valid: the route's answer is sent. *)
Lemma endpoint_valid {A} (validate : Json.value -> result A)
    (route : A -> response * Limiter.storage * list call)
    (w : World) (st : Limiter.storage) (request : Request) (text : str)
    (v : Json.value) (a : A) (user : Json.value) (calls : list call) :
  Json.loads (limits w) text = Return v -> validate v = Return a ->
  verify_authenticated_user w request = (Return user, calls) ->
  endpoint validate route w st request (JsonBody text) =
    (send w (route a).1.1, (route a).1.2, (route a).2).
Proof.
  intros Hl Hv Ha. unfold endpoint, read_body. rewrite Hl, Ha, Hv.
  by destruct (route a) as [[r st'] calls'].
Qed.

(** C8, as the code has it.  A request to [/api/analyze] with no
    [Authorization] header, or with one that does not start with
    ["Bearer "], is answered 401 when its body can be read (there is
    none, or it decodes as JSON).  A body sent as JSON that cannot be
    decoded is answered before the verifier runs: 422 for a JSON syntax
    error, 400 for another failure of the decoding.  In every case no
    outbound call is made, to the model or anywhere else, and the request
    is not counted by the rate limiter. *)
Theorem analyze_without_bearer_is_401 (w : World) (now : Z) (st : Limiter.storage)
    (request : Request) (b : body) :
  (forall h, headers_get request (py "Authorization") = Some h ->
             startswith h (py "Bearer ") = false) ->
  let answer := analyze_endpoint w now st request b in
  (forall v, read_body (limits w) b = BodyRead v ->
     answer.1.1 = HTTPError 401 (py "Authentication required. Please sign in.")
     /\ status_code answer.1.1 = 401)
  /\ (read_body (limits w) b = BodyInvalid -> answer.1.1 = UnprocessableEntity)
  /\ (read_body (limits w) b = BodyError ->
      answer.1.1 = HTTPError 400 (py "There was an error parsing the body"))
  /\ answer.1.2 = st
  /\ answer.2 = []
  /\ gateway_calls answer.2 = [].
Proof.
  intros H answer. subst answer. unfold analyze_endpoint.
  rewrite (endpoint_unauthenticated _ _ _ _ _ _ _ _
             (verify_authenticated_user_no_bearer w request H)).
  destruct (read_body (limits w) b); repeat split; done.
Qed.

Lemma analyze_without_bearer_is_401_witness :
  let w := Demo.world Demo.dev_env Demo.accept_all (Return Demo.alice)
             (Return [Some (lit "{'summary': 'ok', 'issues': []}")]) Demo.no_stream in
  let request := Demo.request [(py "x-user-email", py "alice@example.com")] in
  let b := JsonBody (lit "{'code': 'import os'}") in
  (analyze_endpoint w 0 ∅ request b).1.1
  = HTTPError 401 (py "Authentication required. Please sign in.")
  /\ gateway_calls (analyze_endpoint w 0 ∅ request b).2 = [].
Proof.
  cbv zeta.
  destruct (analyze_without_bearer_is_401
              (Demo.world Demo.dev_env Demo.accept_all (Return Demo.alice)
                 (Return [Some (lit "{'summary': 'ok', 'issues': []}")]) Demo.no_stream)
              0 ∅
              (Demo.request [(py "x-user-email", py "alice@example.com")])
              (JsonBody (lit "{'code': 'import os'}")))
    as (H1 & _ & _ & _ & _ & H6).
  - intros h. vm_compute. congruence.
  - split; [|exact H6].
    refine (proj1 (H1 (Some (Json.Obj [(py "code", Json.Str (py "import os"))])) _)).
    vm_compute. reflexivity.
Defined.

(** C8 as stated fails: a request without an [Authorization] header
    whose body is not JSON is answered 422, not 401; nothing goes
    upstream. *)
Lemma analyze_undecodable_body_is_422 :
  let w := Demo.world Demo.dev_env Demo.accept_all (Return Demo.alice)
             (Return [Some (lit "{'summary': 'ok', 'issues': []}")]) Demo.no_stream in
  let request := Demo.request [(py "x-user-email", py "alice@example.com")] in
  let answer := analyze_endpoint w 0 ∅ request (JsonBody (lit "{'code': ")) in
  headers_get request (py "Authorization") = None
  /\ answer.1.1 = UnprocessableEntity
  /\ status_code answer.1.1 = 422
  /\ answer.2 = [].
Proof. vm_compute. done. Qed.

End Endpoints.

(** ** The rate limiter *)

Section RateLimiter.
Import PyStr Server.

Lemma limiter_get_incr_same (now : Z) (key : str * str) (st : Limiter.storage) :
  Limiter.get now key (Limiter.incr now key st).2 = Limiter.get now key st + 1.
Proof.
  unfold Limiter.get, Limiter.incr; cbn [fst snd].
  rewrite lookup_insert_eq.
  destruct (st !! key) as [w|]; cbn [Limiter.hits Limiter.expires].
  - destruct (Limiter.expires w <=? now) eqn:E; cbn.
    + assert ((now + Limiter.day <=? now) = false) as ->; [|done].
      apply Z.leb_gt. unfold Limiter.day. lia.
    + by rewrite E.
  - assert ((now + Limiter.day <=? now) = false) as ->; [|done].
    apply Z.leb_gt. unfold Limiter.day. lia.
Qed.


Lemma limiter_incr_count (now : Z) (key : str * str) (st : Limiter.storage) :
  (Limiter.incr now key st).1 = Limiter.get now key st + 1.
Proof.
  unfold Limiter.get, Limiter.incr; cbn [fst snd].
  destruct (st !! key) as [w|]; cbn [Limiter.hits Limiter.expires]; [|done].
  by destruct (Limiter.expires w <=? now).
Qed.

(** The wrapper admits a request exactly when fewer than seven were
    counted under its key and scope in the running window, and counts it
    either way. *)
Lemma check_request_limit_spec (now : Z) (key scope : str) (st : Limiter.storage) :
  truthy key = true -> truthy scope = true ->
  Limiter.check_request_limit now key scope st =
    (if Limiter.get now (key, scope) st <? 7 then Return tt else Raise RateLimitExceeded,
     (Limiter.incr now (key, scope) st).2).
Proof.
  intros Hk Hs. unfold Limiter.check_request_limit, Limiter.hit.
  rewrite Hk, Hs; cbn -[Limiter.incr].
  pose proof (limiter_incr_count now (key, scope) st) as Hc.
  destruct (Limiter.incr now (key, scope) st) as [n st'] eqn:E; cbn in *.
  subst n. unfold Limiter.amount.
  destruct (Limiter.get now (key, scope) st + 1 <=? 7) eqn:E1;
    destruct (Limiter.get now (key, scope) st <? 7) eqn:E2; try done; lia.
Qed.

Lemma get_remote_address_truthy (request : Request) :
  truthy (get_remote_address request) = true.
Proof.
  unfold get_remote_address.
  destruct (client_host request) as [host|]; [|done].
  by destruct (truthy host) eqn:E.
Qed.

Lemma get_user_email_truthy (request : Request) :
  truthy (get_user_email request) = true.
Proof.
  unfold get_user_email.
  destruct (headers_get request (py "X-User-Email")) as [email|];
    [destruct (truthy email) eqn:E|]; auto using get_remote_address_truthy.
Qed.

(** What a protected route answers once the caller is authenticated: 429
    without running the body when seven requests were already counted
    under the caller's key for this route, the body's answer otherwise;
    the request is counted for this route in both cases. *)
Lemma protected_route_limit {A} (path : str) (body : M A) (respond : A -> response)
    (w : World) (now : Z) (st : Limiter.storage) (request : Request)
    (user : Json.value) (calls : list call) :
  truthy path = true ->
  verify_authenticated_user w request = (Return user, calls) ->
  protected_route path body respond w now st request =
    (if Limiter.get now (get_user_email request, path) st <? 7 then
       (match body.1 with
        | Return a => respond a
        | Raise e => exception_response e
        end,
        (Limiter.incr now (get_user_email request, path) st).2, calls ++ body.2)
     else
       (TooManyRequests,
        (Limiter.incr now (get_user_email request, path) st).2, calls)).
Proof.
  intros Hp Ha. unfold protected_route. rewrite Ha.
  rewrite check_request_limit_spec by auto using get_user_email_truthy.
  destruct (Limiter.get now (get_user_email request, path) st <? 7); [|done].
  by destruct body as [[a|e] calls'].
Qed.

Lemma protected_route_storage {A} (path : str) (body : M A) (respond : A -> response)
    (w : World) (now : Z) (st : Limiter.storage) (request : Request)
    (user : Json.value) (calls : list call) :
  truthy path = true ->
  verify_authenticated_user w request = (Return user, calls) ->
  (protected_route path body respond w now st request).1.2 =
    (Limiter.incr now (get_user_email request, path) st).2.
Proof.
  intros Hp Ha. rewrite (protected_route_limit _ _ _ _ _ _ _ _ _ Hp Ha).
  by destruct (Limiter.get now (get_user_email request, path) st <? 7).
Qed.




End RateLimiter.

(** ** The fix stream *)

Section FixStream.
Import PyStr Server.

Lemma readable_well_formed (items : list chunk) :
  Stream.well_formed items = true -> Stream.readable items = items.
Proof.
  induction items as [|[|c item] items IH]; cbn; [done..|].
  intros H. by rewrite IH.
Qed.

(** The loop delivers one event for each readable item that carries text,
    gathers those texts, and ends as the stream does; [json] is bound
    after it when it was before or some item carried text. *)
Lemma stream_chunks_spec (items : list chunk) (failure : option exn)
    (json_bound : bool) (fixed_code : str) :
  stream_chunks items failure json_bound fixed_code =
    (sse_chunk <$> Stream.fragments (Stream.readable items),
     if Stream.well_formed items then
       match failure with
       | Some e => Raise e
       | None => Return (json_bound || Stream.has_text items,
                         fixed_code ++ concat (Stream.fragments items))
       end
     else Raise (Error (py "IndexError"))).
Proof.
  revert json_bound fixed_code.
  induction items as [|[|[content|] item] items IH]; intros json_bound fixed_code;
    cbn -[py sse_chunk].
  - destruct failure; by rewrite ?app_nil_r, ?orb_false_r.
  - done.
  - destruct (truthy content) eqn:E; rewrite IH;
      unfold Stream.has_text, Stream.fragments, Stream.well_formed;
      cbn -[py sse_chunk]; rewrite ?E.
    + by rewrite <- app_assoc, orb_true_r.
    + done.
  - by rewrite IH.
Qed.

(** The events of the generator, case by case.  A stream that runs to its
    end without any text ends in [error]: no chunk was sent, so [json] is
    not bound where [complete] is written. *)
Lemma generate_fix_stream_events (w : World) (fix_request : FixRequest.t) :
  (generate_fix_stream w fix_request).1 =
    match AsyncOpenAI w (getenv w (py "GROQ_API_KEY")) with
    | Raise _ => [sse_error]
    | Return _ =>
        match chat_completions_stream w (fix_chat_request fix_request) with
        | Raise _ => [sse_start; sse_error]
        | Return (items, failure) =>
            sse_start :: (sse_chunk <$> Stream.fragments (Stream.readable items))
            ++ [if Stream.well_formed items then
                  match failure with
                  | Some _ => sse_error
                  | None =>
                      if Stream.has_text items
                      then sse_complete (concat (Stream.fragments items))
                      else sse_error
                  end
                else sse_error]
        end
    end.
Proof.
  unfold generate_fix_stream.
  destruct (AsyncOpenAI w _); [|done].
  destruct (chat_completions_stream w _) as [[items failure]|]; [|done].
  rewrite stream_chunks_spec. cbn [fst].
  destruct (Stream.well_formed items); [|done]. destruct failure; [done|].
  cbn [orb last_event]. by destruct (Stream.has_text items).
Qed.

Lemma verify_authenticated_user_calls (w : World) (request : Request) :
  gateway_calls (verify_authenticated_user w request).2 = [].
Proof.
  unfold verify_authenticated_user.
  destruct (headers_get request (py "Authorization")) as [h|]; [|done].
  destruct (truthy h && startswith h (py "Bearer ")); [|done].
  unfold verify_token, token_payload.
  destruct (negb _ && _); [done|].
  destruct (truthy (getenv_default w (py "CLERK_FRONTEND_API") [])).
  - cbn -[py get_method iterate find_signing_key user_identifier].
    destruct (httpx_get_json w _) as [jwks|e]; [|by destruct e].
    cbn -[py get_method iterate find_signing_key user_identifier].
    match goal with |- context [match ?r with Return _ => _ | Raise _ => _ end] =>
      destruct r as [payload|e] end; [|by destruct e].
    cbn -[py user_identifier].
    destruct (user_identifier payload) as [u|e]; [done|by destruct e].
  - cbn -[py user_identifier].
    destruct (jwt_decode w _ None) as [payload|e]; [|by destruct e].
    cbn -[py user_identifier].
    destruct (user_identifier payload) as [u|e]; [done|by destruct e].
Qed.

(** Once the caller is authenticated, admitted by the limiter and past the
    API-key check, [/api/fix] answers with the event stream of the
    generator, whatever happens inside it. *)
Lemma fix_route_streams (w : World) (now : Z) (st st' : Limiter.storage)
    (request : Request) (fix_request : FixRequest.t) (user : Json.value)
    (calls : list call) :
  verify_authenticated_user w request = (Return user, calls) ->
  Limiter.check_request_limit now (get_user_email request) (py "/api/fix") st
    = (Return tt, st') ->
  verify_api_key w (headers_get request (py "X-API-Key")) = Return true ->
  POST_api_fix w now st request fix_request =
    (EventStream (generate_fix_stream w fix_request).1, st',
     calls ++ (generate_fix_stream w fix_request).2).
Proof.
  intros Ha Hl Hk. unfold POST_api_fix.
  rewrite (protected_route_admitted _ _ _ _ _ _ _ _ _ _ Ha Hl).
  unfold fix_security_issues. rewrite Hk. done.
Qed.

(** C7, as the code has it.  For a fix request that passes
    authentication, is admitted by the rate limiter and passes the API-key
    check, the response is the event stream of the generator, never an
    HTTP error.  The events are [start], one [chunk] for each item that
    carries text (an item whose text is absent or empty yields none), in
    arrival order up to the first item without choices, and one last
    event: [complete] with the concatenation of the texts when the
    model's stream runs to its end and some item carried text; [error]
    when the stream breaks off or yields an item without choices.  When
    the stream cannot be opened the events are [start], [error]; when the
    client itself cannot be built, [error] is the only event. *)
Theorem fix_stream_event_sequence (w : World) (now : Z) (st st' : Limiter.storage)
    (request : Request) (fix_request : FixRequest.t) (user : Json.value)
    (calls : list call) :
  verify_authenticated_user w request = (Return user, calls) ->
  Limiter.check_request_limit now (get_user_email request) (py "/api/fix") st
    = (Return tt, st') ->
  verify_api_key w (headers_get request (py "X-API-Key")) = Return true ->
  let events := (generate_fix_stream w fix_request).1 in
  (POST_api_fix w now st request fix_request).1.1 = EventStream events
  /\ match AsyncOpenAI w (getenv w (py "GROQ_API_KEY")) with
     | Raise _ => events = [sse_error]
     | Return _ =>
         match chat_completions_stream w (fix_chat_request fix_request) with
         | Raise _ => events = [sse_start; sse_error]
         | Return (items, failure) =>
             exists last,
               events = sse_start
                        :: (sse_chunk <$> Stream.fragments (Stream.readable items))
                        ++ [last]
               /\ (Stream.well_formed items = true -> failure = None ->
                   Stream.has_text items = true ->
                   last = sse_complete (concat (Stream.fragments items)))
               /\ (Stream.well_formed items = false -> last = sse_error)
               /\ (failure <> None -> last = sse_error)
         end
     end.
Proof.
  intros Ha Hl Hk events. subst events. split.
  - by rewrite (fix_route_streams _ _ _ _ _ _ _ _ Ha Hl Hk).
  - rewrite generate_fix_stream_events.
    destruct (AsyncOpenAI w _); [|done].
    destruct (chat_completions_stream w _) as [[items failure]|]; [|done].
    eexists. split; [reflexivity|].
    repeat split.
    + by intros -> -> ->.
    + by intros ->.
    + intros Hf. destruct (Stream.well_formed items); [|done]. by destruct failure.
Qed.

Lemma fix_stream_event_sequence_witness :
  let w := Demo.world Demo.dev_env Demo.accept_all (Return Demo.alice) Demo.no_reply
             (Return ([[Some (py "def")]; [Some (py " foo")]; [Some (py "():")]], None)) in
  let fix_request := {| FixRequest.code := py "def foo()"; FixRequest.issues := [] |} in
  (POST_api_fix w 0 ∅ (Demo.request Demo.bearer) fix_request).1.1 =
    EventStream [sse_start; sse_chunk (py "def"); sse_chunk (py " foo");
                 sse_chunk (py "():"); sse_complete (py "def foo():")].
Proof.
  cbv zeta.
  destruct (fix_stream_event_sequence
              (Demo.world Demo.dev_env Demo.accept_all (Return Demo.alice) Demo.no_reply
                 (Return ([[Some (py "def")]; [Some (py " foo")]; [Some (py "():")]], None)))
              0 ∅
              (<[(py "alice@example.com", py "/api/fix") :=
                   {| Limiter.hits := 1; Limiter.expires := 86400 |}]> ∅)
              (Demo.request Demo.bearer)
              {| FixRequest.code := py "def foo()"; FixRequest.issues := [] |}
              (Json.Str (py "alice@example.com")) []
              ltac:(vm_compute; reflexivity) ltac:(reflexivity)
              ltac:(vm_compute; reflexivity)) as [H1 _].
  rewrite H1. vm_compute. reflexivity.
Defined.

(** C7 as stated fails: a stream that opens with an empty text and closes
    with an item without text, as streamed completions do, has four items
    and yields two [chunk] events. *)
Lemma fix_stream_no_chunk_for_empty_fragment :
  let items := [[Some []]; [Some (py "def")]; [Some (py " foo")]; [None]] in
  let w := Demo.world Demo.dev_env Demo.accept_all (Return Demo.alice) Demo.no_reply
             (Return (items, None)) in
  let fix_request := {| FixRequest.code := py "def foo()"; FixRequest.issues := [] |} in
  (generate_fix_stream w fix_request).1 =
    [sse_start; sse_chunk (py "def"); sse_chunk (py " foo"); sse_complete (py "def foo")]
  /\ (generate_fix_stream w fix_request).1 <>
       sse_start :: (sse_chunk <$> [[]; py "def"; py " foo"; []])
       ++ [sse_complete (py "def foo")].
Proof. vm_compute. split; [reflexivity|discriminate]. Qed.

(** A stream that runs to its end and never carries text ends in [error]:
    [json] is bound by the import in the branch that sends a chunk, and
    that branch has not run when [complete] is written. *)
Lemma fix_stream_without_text_ends_in_error :
  let w := Demo.world Demo.dev_env Demo.accept_all (Return Demo.alice) Demo.no_reply
             (Return ([[Some []]; [None]], None)) in
  let fix_request := {| FixRequest.code := py "def foo()"; FixRequest.issues := [] |} in
  (generate_fix_stream w fix_request).1 = [sse_start; sse_error].
Proof. vm_compute. reflexivity. Qed.

Lemma fix_prompt_embeds_code (fix_request : FixRequest.t) :
  exists before after,
    fix_prompt fix_request = before ++ FixRequest.code fix_request ++ after.
Proof.
  exists (py "Fix the following security issues in this Python code:" ++ nl ++ nl
          ++ py "ISSUES TO FIX:" ++ nl
          ++ issues_text (FixRequest.issues fix_request) ++ nl ++ nl
          ++ py "ORIGINAL CODE:" ++ nl).
  eexists. unfold fix_prompt. rewrite <- !app_assoc. reflexivity.
Qed.

Lemma generate_fix_stream_calls (w : World) (fix_request : FixRequest.t) :
  AsyncOpenAI w (getenv w (py "GROQ_API_KEY")) = Return tt ->
  (generate_fix_stream w fix_request).2 = [ChatCompletionsCreate (fix_chat_request fix_request)].
Proof.
  intros H. unfold generate_fix_stream. rewrite H.
  destruct (chat_completions_stream w _) as [[items failure]|]; [|done].
  by destruct (stream_chunks items failure false []).
Qed.

(** C10, as the code has it.  A fix request that passes authentication, is
    admitted by the rate limiter and passes the API-key check is answered
    with the event stream whatever its code is - empty, above 50,000
    characters or not Python: the answer does not depend on the Python
    parser at all.  Once the client of the model is built, exactly one call
    goes upstream, with the code inside its prompt. *)
Theorem fix_skips_validation (w : World) (now : Z) (st st' : Limiter.storage)
    (request : Request) (fix_request : FixRequest.t) (user : Json.value)
    (calls : list call) :
  verify_authenticated_user w request = (Return user, calls) ->
  Limiter.check_request_limit now (get_user_email request) (py "/api/fix") st
    = (Return tt, st') ->
  verify_api_key w (headers_get request (py "X-API-Key")) = Return true ->
  POST_api_fix w now st request fix_request =
    (EventStream (generate_fix_stream w fix_request).1, st',
     calls ++ (generate_fix_stream w fix_request).2)
  /\ (forall parser,
        POST_api_fix (with_compile parser w) now st request fix_request
        = POST_api_fix w now st request fix_request)
  /\ (AsyncOpenAI w (getenv w (py "GROQ_API_KEY")) = Return tt ->
      gateway_calls (POST_api_fix w now st request fix_request).2
        = [fix_chat_request fix_request]
      /\ exists before after,
           snd <$> messages (fix_chat_request fix_request)
           = [before ++ FixRequest.code fix_request ++ after]).
Proof.
  intros Ha Hl Hk.
  pose proof (fix_route_streams _ _ _ _ _ fix_request _ _ Ha Hl Hk) as E.
  split; [exact E|]. split; [reflexivity|].
  intros Hc. split.
  - rewrite E. cbn [snd]. unfold gateway_calls. rewrite omap_app.
    pose proof (verify_authenticated_user_calls w request) as Hv.
    rewrite Ha in Hv. unfold gateway_calls in Hv. cbn [snd] in Hv. rewrite Hv.
    by rewrite (generate_fix_stream_calls _ _ Hc).
  - destruct (fix_prompt_embeds_code fix_request) as (before & after & Hp).
    exists before, after. cbn [messages fix_chat_request fmap list_fmap snd].
    by rewrite Hp.
Qed.

Lemma fix_skips_validation_witness :
  let w := Demo.world Demo.dev_env Demo.reject_all (Return Demo.alice) Demo.no_reply
             (Return ([[Some (py "pass")]], None)) in
  let fix_request := {| FixRequest.code := []; FixRequest.issues := [] |} in
  validate_request w {| AnalyzeRequest.code := FixRequest.code fix_request |}
    = Raise (HTTPException 400 (py "Code cannot be empty"))
  /\ (POST_api_fix w 0 ∅ (Demo.request Demo.bearer) fix_request).1.1
     = EventStream [sse_start; sse_chunk (py "pass"); sse_complete (py "pass")]
  /\ gateway_calls (POST_api_fix w 0 ∅ (Demo.request Demo.bearer) fix_request).2
     = [fix_chat_request fix_request].
Proof.
  cbv zeta.
  destruct (fix_skips_validation
              (Demo.world Demo.dev_env Demo.reject_all (Return Demo.alice) Demo.no_reply
                 (Return ([[Some (py "pass")]], None)))
              0 ∅
              (<[(py "alice@example.com", py "/api/fix") :=
                   {| Limiter.hits := 1; Limiter.expires := 86400 |}]> ∅)
              (Demo.request Demo.bearer)
              {| FixRequest.code := []; FixRequest.issues := [] |}
              (Json.Str (py "alice@example.com")) []
              ltac:(vm_compute; reflexivity) ltac:(reflexivity)
              ltac:(vm_compute; reflexivity)) as (H1 & _ & H3).
  split; [vm_compute; reflexivity|].
  split.
  - rewrite H1. vm_compute. reflexivity.
  - apply H3. vm_compute. reflexivity.
Defined.

(** C10 as stated fails: the eighth fix request of a caller in one window
    passes authentication and the API-key check and is answered 429; no
    stream is opened and nothing goes upstream. *)
Lemma fix_eighth_request_is_refused :
  let w := Demo.world Demo.dev_env Demo.accept_all (Return Demo.alice) Demo.no_reply
             (Return ([[Some (py "pass")]], None)) in
  let request := Demo.request Demo.bearer in
  let fix_request := {| FixRequest.code := py "import os"; FixRequest.issues := [] |} in
  let seven := Demo.repeat_route (fun st => POST_api_fix w 0 st request fix_request) 7 ∅ in
  (verify_authenticated_user w request).1 = Return (Json.Str (py "alice@example.com"))
  /\ verify_api_key w (headers_get request (py "X-API-Key")) = Return true
  /\ status_code <$> seven.1 = [200; 200; 200; 200; 200; 200; 200]
  /\ (POST_api_fix w 10 seven.2 request fix_request).1.1 = TooManyRequests
  /\ (POST_api_fix w 10 seven.2 request fix_request).2 = [].
Proof. vm_compute. done. Qed.

End FixStream.

(** ** Regular expressions *)

Section Regex.
Import PyStr Re.

Lemma consume_some (g : bool) (c : char) (r : option matched) (m : matched) :
  consume g c r = Some m -> exists m', r = Some m'.
Proof. destruct r; [eauto|done]. Qed.

Lemma search_some (pat : list item) (s : str) (m : matched) :
  search pat s = Some m ->
  exists a s', s = a ++ s' /\ match_here pat false s' = Some m.
Proof.
  induction s as [|c s IH]; cbn.
  - destruct (match_here pat false []) eqn:E; [|done].
    intros [= ->]. by exists [], [].
  - destruct (match_here pat false (c :: s)) eqn:E.
    + intros [= ->]. by exists [], (c :: s).
    + intros (a & s' & -> & H)%IH. by exists (c :: a), s'.
Qed.

Lemma search_here (pat : list item) (s : str) (m : matched) :
  match_here pat false s = Some m -> search pat s = Some m.
Proof. intros H. destruct s; cbn; by rewrite H. Qed.

Lemma match_here_literal_some (p : str) (pat : list item) (g : bool) (s : str) (m : matched) :
  match_here (literal p ++ pat) g s = Some m ->
  exists s' m', s = p ++ s' /\ match_here pat g s' = Some m'.
Proof.
  unfold literal. revert s m. induction p as [|c p IH]; intros s m; cbn.
  - intros H. by exists s, m.
  - destruct s as [|c' s]; [done|].
    destruct (c =? c')%N eqn:E; [|done].
    apply N.eqb_eq in E as ->.
    intros (m1 & (s' & m' & -> & H)%IH)%consume_some.
    by exists s', m'.
Qed.

Lemma match_here_literal (p : str) (pat : list item) (g : bool) (s : str) :
  match_here (literal p ++ pat) g (p ++ s) = consume_all g p (match_here pat g s).
Proof.
  unfold literal. induction p as [|c p IH]; cbn; [done|].
  by rewrite N.eqb_refl, IH.
Qed.

Lemma consume_all_group0 (g : bool) (a : str) (m : matched) :
  exists m', consume_all g a (Some m) = Some m'
             /\ group0 m' = a ++ group0 m
             /\ group1 m' = if g then a ++ group1 m else group1 m.
Proof.
  unfold consume_all. induction a as [|c a (m' & E & H0 & H1)]; cbn.
  - exists m. by destruct g.
  - rewrite E. cbn. eexists; split; [done|]. cbn. rewrite H0, H1. by destruct g.
Qed.

Lemma greedy_star_some (class : char -> bool) (g : bool) (k : str -> option matched)
    (s : str) (m : matched) :
  greedy_star class g k s = Some m ->
  exists a s' m', s = a ++ s' /\ k s' = Some m'.
Proof.
  revert m. induction s as [|c s IH]; intros m; cbn.
  - intros H. by exists [], [], m.
  - destruct (class c).
    + destruct (consume g c (greedy_star class g k s)) as [m1|] eqn:E.
      * intros _. apply consume_some in E as (m2 & (a & s' & m' & -> & H)%IH).
        by exists (c :: a), s', m'.
      * intros H. by exists [], (c :: s), m.
    + intros H. by exists [], (c :: s), m.
Qed.

(** A greedy star takes a whole run of its class when what follows the
    run matches. *)
Lemma greedy_star_run (class : char -> bool) (g : bool) (k : str -> option matched)
    (a s : str) (m : matched) :
  forallb class a = true -> k s = Some m ->
  match s with [] => True | c :: _ => class c = false end ->
  greedy_star class g k (a ++ s) = consume_all g a (Some m).
Proof.
  intros Ha Hk Hs. induction a as [|c a IH].
  - destruct s as [|c s]; cbn; [done|]. by rewrite Hs.
  - cbn in Ha. apply andb_true_iff in Ha as [Hc Ha].
    cbn. rewrite Hc, (IH Ha). fold (consume_all g a (Some m)).
    destruct (consume_all_group0 g a m) as (m' & -> & _). done.
Qed.

Lemma lazy_star_some (class : char -> bool) (g : bool) (k : str -> option matched)
    (s : str) (m : matched) :
  lazy_star class g k s = Some m ->
  exists a s' m', s = a ++ s' /\ k s' = Some m'.
Proof.
  revert m. induction s as [|c s IH]; intros m; cbn.
  - destruct (k []) eqn:E; [|done]. intros _. by exists [], [], m0.
  - destruct (k (c :: s)) eqn:E.
    + intros _. by exists [], (c :: s), m0.
    + destruct (class c); [|done].
      intros (m1 & (a & s' & m' & -> & H)%IH)%consume_some.
      by exists (c :: a), s', m'.
Qed.

(** A lazy star stops at the first place where what follows matches. *)
Lemma lazy_star_first (class : char -> bool) (g : bool) (k : str -> option matched)
    (j t : str) (m : matched) :
  forallb class j = true ->
  (forall a b, j = a ++ b -> b <> [] -> k (b ++ t) = None) ->
  k t = Some m ->
  lazy_star class g k (j ++ t) = consume_all g j (Some m).
Proof.
  intros Hj Hnone Hk. induction j as [|c j IH].
  - destruct t; cbn; by rewrite Hk.
  - pose proof (Hnone [] (c :: j) eq_refl ltac:(done)) as H0.
    cbn in Hj. apply andb_true_iff in Hj as [Hc Hj].
    cbn in *. rewrite H0, Hc.
    fold (consume_all g j (Some m)). rewrite IH; [done..|].
    intros a b -> Hb. by apply (Hnone (c :: a) b).
Qed.

End Regex.

(** ** Texts *)

Section TextFacts.
Import PyStr Text.

Lemma startswith_app (p t : str) : startswith (p ++ t) p = true.
Proof. induction p as [|c p IH]; cbn; [by destruct t|]. by rewrite N.eqb_refl. Qed.

Lemma startswith_true (s p : str) : startswith s p = true -> s = p ++ drop (length p) s.
Proof.
  revert s. induction p as [|c p IH]; intros s; cbn; [done|].
  destruct s as [|c' s]; [done|].
  intros [->%N.eqb_eq H]%andb_true_iff. cbn. f_equal. by apply IH.
Qed.

Lemma find_after_here (p s : str) :
  startswith s p = true -> find_after p s = Some (drop (length p) s).
Proof. intros H. destruct s; cbn [find_after]; by rewrite H. Qed.

(** [find_after] stops at the first occurrence, which is at or before any
    given one. *)
Lemma find_after_app (p a t : str) :
  exists n, (n <= length a)%nat
            /\ find_after p (a ++ p ++ t) = Some (drop (n + length p) (a ++ p ++ t)).
Proof.
  induction a as [|c a (n & Hn & IH)].
  - exists 0%nat. split; [done|]. cbn [app].
    apply find_after_here, startswith_app.
  - destruct (startswith ((c :: a) ++ p ++ t) p) eqn:E.
    + exists 0%nat. split; [cbn; lia|]. by apply find_after_here.
    + exists (S n). split; [cbn; lia|].
      cbn [app find_after] in *. by rewrite E, IH.
Qed.

Lemma contains_app (p a t : str) : contains p (a ++ p ++ t) = true.
Proof.
  unfold contains. destruct (find_after_app p a t) as (n & _ & ->). done.
Qed.

Lemma find_after_some (p s r : str) :
  find_after p s = Some r -> exists a, s = a ++ p ++ r.
Proof.
  revert r. induction s as [|c s IH]; intros r; cbn [find_after].
  - destruct (startswith [] p) eqn:E; [|done].
    intros [= <-]. exists []. by apply startswith_true in E.
  - destruct (startswith (c :: s) p) eqn:E.
    + intros [= <-]. exists []. by apply startswith_true in E.
    + intros (a & ->)%IH. by exists (c :: a).
Qed.

(** An occurrence of [p], then later one of [q]: the first occurrence of
    [p] is followed by one of [q] too. *)
Lemma find_after_then_contains (p q a x t : str) :
  match find_after p (a ++ p ++ x ++ q ++ t) with
  | Some rest => contains q rest
  | None => false
  end = true.
Proof.
  destruct (find_after_app p a (x ++ q ++ t)) as (n & Hn & ->).
  replace (a ++ p ++ x ++ q ++ t) with ((a ++ p ++ x) ++ q ++ t)
    by (by rewrite <- !app_assoc).
  rewrite drop_app_le by (rewrite !length_app; lia).
  apply contains_app.
Qed.

End TextFacts.

(** ** The two patterns of the normaliser *)

Section Patterns.
Import PyStr Re Text.

Lemma match_here_literal_none (p : str) (pat : list item) (g : bool) (s : str) :
  startswith s p = false -> match_here (literal p ++ pat) g s = None.
Proof.
  unfold literal. revert s. induction p as [|c p IH]; intros s; cbn; [done|].
  destruct s as [|c' s]; [done|].
  rewrite N.eqb_sym. destruct (c' =? c)%N; cbn; [|done].
  intros H. by rewrite IH.
Qed.

Lemma greedy_star_none (class : char -> bool) (g : bool) (k : str -> option matched)
    (s : str) :
  (forall a s', s = a ++ s' -> forallb class a = true -> k s' = None) ->
  greedy_star class g k s = None.
Proof.
  induction s as [|c s IH]; intros H; cbn.
  - by apply (H [] []).
  - rewrite (H [] (c :: s)) by done.
    destruct (class c) eqn:Hc; [|done].
    rewrite IH; [done|].
    intros a s' -> Ha. apply (H (c :: a) s'); [done|]. cbn. by rewrite Hc.
Qed.

(** The fence pattern finds nothing in a text without [```json] followed
    by [```]. *)
Lemma search_json_fence_none (text : str) :
  has_json_fence text = false -> search json_fence text = None.
Proof.
  intros Hno. destruct (search json_fence text) as [m|] eqn:E; [exfalso|done].
  apply search_some in E as (a & s' & -> & E).
  unfold json_fence in E.
  apply match_here_literal_some in E as (s1 & m1 & -> & E).
  cbn [app match_here] in E.
  apply greedy_star_some in E as (a1 & s2 & m2 & -> & E).
  cbn [match_here] in E.
  apply lazy_star_some in E as (a2 & s3 & m3 & -> & E).
  cbn [match_here] in E.
  apply greedy_star_some in E as (a3 & s4 & m4 & -> & E).
  rewrite <- (app_nil_r (literal (py "```"))) in E.
  apply match_here_literal_some in E as (s5 & m5 & -> & _).
  pose proof (find_after_then_contains (py "```json") (py "```") a
                (a1 ++ a2 ++ a3) s5) as H.
  unfold has_json_fence in Hno.
  rewrite <- !app_assoc in H. rewrite Hno in H. done.
Qed.


Lemma nonempty_suffix_last {A} (j0 x b : list A) (c : A) :
  j0 ++ [c] = x ++ b -> b <> [] -> exists b0, b = b0 ++ [c].
Proof.
  intros H Hb. destruct b as [|d b _] using rev_ind; [done|].
  rewrite app_assoc in H. apply app_inj_tail in H as [_ ->]. by exists b.
Qed.

(** No suffix of a text that is free of [```] and ends with another
    character starts a closing fence, whatever follows the text. *)
Lemma suffix_not_fence (j0 x b t : str) (c : char) :
  contains (py "```") (j0 ++ [c]) = false -> c <> 96%N ->
  j0 ++ [c] = x ++ b -> b <> [] ->
  startswith (b ++ t) (py "```") = false.
Proof.
  intros Hfree Hc Hj Hb.
  destruct (startswith (b ++ t) (py "```")) eqn:E; [exfalso|done].
  destruct (nonempty_suffix_last _ _ _ _ Hj Hb) as (b0 & ->).
  change (py "```") with [96%N; 96%N; 96%N] in *.
  destruct b0 as [|c1 [|c2 [|c3 b0]]]; cbn -[N.eqb] in E.
  - apply andb_true_iff in E as [E1%N.eqb_eq _]. done.
  - apply andb_true_iff in E as [_ [E1%N.eqb_eq _]%andb_true_iff]. done.
  - apply andb_true_iff in E as [_ [_ [E1%N.eqb_eq _]%andb_true_iff]%andb_true_iff].
    done.
  - apply andb_true_iff in E
      as [<-%N.eqb_eq [<-%N.eqb_eq [<-%N.eqb_eq _]%andb_true_iff]%andb_true_iff].
    rewrite Hj in Hfree.
    change (x ++ (96 :: 96 :: 96 :: b0)%N ++ [c])
      with (x ++ [96; 96; 96]%N ++ b0 ++ [c]) in Hfree.
    by rewrite contains_app in Hfree.
Qed.


End Patterns.

(** ** The JSON decoder *)

Section JsonFacts.
Import PyStr Json Text.

Lemma skip_ws_split (s : str) :
  exists ws, s = ws ++ skip_ws s /\ forallb is_ws ws = true.
Proof.
  induction s as [|c s (ws & E & H)]; [by exists []|].
  cbn. destruct (is_ws c) eqn:Hc.
  - exists (c :: ws). split; [by rewrite E at 1|]. cbn. by rewrite Hc.
  - by exists [].
Qed.

Lemma skip_ws_length (s : str) : (length (skip_ws s) <= length s)%nat.
Proof.
  destruct (skip_ws_split s) as (ws & E & _).
  rewrite E at 2. rewrite length_app. lia.
Qed.

Lemma is_ws_isspace (c : char) : is_ws c = true -> isspace c = true.
Proof.
  unfold is_ws. rewrite !orb_true_iff, !N.eqb_eq. by intros [[[->| ->]| ->]| ->].
Qed.

Lemma is_digit_closing (c : char) : is_digit c = true -> closing c = true.
Proof.
  unfold is_digit, closing, isspace.
  rewrite andb_true_iff, !N.leb_le. intros [H1 H2].
  apply andb_true_iff. split; apply negb_true_iff.
  - repeat (apply orb_false_iff; split); try apply andb_false_iff;
      rewrite ?N.leb_gt, ?N.eqb_neq; lia.
  - apply N.eqb_neq. lia.
Qed.

Lemma scan_cons_scanned (c : char) (r : scan str) (x rest : str) :
  scan_cons c r = Scanned x rest -> exists x', r = Scanned x' rest.
Proof. destruct r; [|done..]. intros [= <- <-]. eauto. Qed.

Lemma scanstring_ends (s x rest : str) :
  scanstring s = Scanned x rest -> exists pre, s = pre ++ 34%N :: rest.
Proof.
  remember (length s) as n eqn:Hn. revert s Hn x rest.
  induction n as [n IH] using lt_wf_ind. intros s Hn x rest.
  assert (Hrec : forall s' pre' x', (length s' < n)%nat -> s = pre' ++ s' ->
            scanstring s' = Scanned x' rest -> exists pre, s = pre ++ 34%N :: rest).
  { intros s' pre' x' Hlt -> H. destruct (IH _ Hlt s' eq_refl _ _ H) as (pre & ->).
    exists (pre' ++ pre). by rewrite <- app_assoc. }
  destruct s as [|c s]; cbn [scanstring]; [done|].
  destruct (c =? 34)%N eqn:E34.
  { apply N.eqb_eq in E34 as ->. intros [= <- <-]. by exists []. }
  destruct (c =? 92)%N.
  - destruct s as [|e r1]; [done|].
    destruct (e =? 117)%N.
    + destruct r1 as [|a [|b [|c' [|d r2]]]]; try done.
      destruct (decode_uXXXX a b c' d) as [uni|]; [|done].
      destruct r2 as [|b1 [|b2 r3]].
      * intros (x' & H)%scan_cons_scanned. 
        eapply (Hrec [] [c; e; a; b; c'; d]); [subst; cbn; lia|done|done].
      * intros (x' & H)%scan_cons_scanned.
        eapply (Hrec [b1] [c; e; a; b; c'; d]); [subst; cbn; lia|done|done].
      * destruct (is_high_surrogate uni && (b1 =? 92)%N && (b2 =? 117)%N).
        -- destruct r3 as [|a2 [|b3 [|c2 [|d2 r4]]]]; try done.
           destruct (decode_uXXXX a2 b3 c2 d2) as [uni2|]; [|done].
           destruct (is_low_surrogate uni2).
           ++ intros (x' & H)%scan_cons_scanned.
              eapply (Hrec r4 [c; e; a; b; c'; d; b1; b2; a2; b3; c2; d2]);
                [subst; cbn; lia|done|done].
           ++ intros (x' & H)%scan_cons_scanned.
              eapply (Hrec (b1 :: b2 :: a2 :: b3 :: c2 :: d2 :: r4) [c; e; a; b; c'; d]);
                [subst; cbn; lia|done|done].
        -- intros (x' & H)%scan_cons_scanned.
           eapply (Hrec (b1 :: b2 :: r3) [c; e; a; b; c'; d]); [subst; cbn; lia|done|done].
    + destruct (backslash e); [|done].
      intros (x' & H)%scan_cons_scanned.
      eapply (Hrec r1 [c; e]); [subst; cbn; lia|done|done].
  - destruct (c <? 32)%N; [done|].
    intros (x' & H)%scan_cons_scanned.
    eapply (Hrec s [c]); [subst; cbn; lia|done|done].
Qed.


Lemma span_digits_split (s : str) :
  s = (span_digits s).1 ++ (span_digits s).2
  /\ forallb is_digit (span_digits s).1 = true.
Proof.
  induction s as [|c s [E H]]; [done|].
  cbn. destruct (is_digit c) eqn:Hc; [|done].
  destruct (span_digits s) as [ds r]. cbn in *. rewrite Hc, H. split; [|done].
  by rewrite E at 1.
Qed.

(** A non-empty run of digits in front of [r] ends with a digit. *)
Lemma digits_end (d : char) (ds r : str) :
  is_digit d = true -> forallb is_digit ds = true ->
  exists pre c, (d :: ds) ++ r = pre ++ c :: r /\ is_digit c = true.
Proof.
  intros Hd Hds.
  destruct ds as [|c ds _] using rev_ind.
  - by exists [], d.
  - exists (d :: ds), c. rewrite forallb_app in Hds. cbn in Hds.
    split; [cbn; by rewrite <- app_assoc|].
    by apply andb_true_iff in Hds as [_ [-> _]%andb_true_iff].
Qed.

Lemma ends_with_digit_cons (c : char) (s r : str) :
  ends_with_digit s r -> ends_with_digit (c :: s) r.
Proof. intros (pre & d & -> & H). by exists (c :: pre), d. Qed.

Lemma ends_with_digit_trans (s r r' : str) :
  ends_with_digit s r -> ends_with_digit r r' -> ends_with_digit s r'.
Proof.
  intros (pre & d & -> & H) (pre' & d' & -> & H').
  exists (pre ++ d :: pre'), d'. split; [|done].
  by rewrite <- app_assoc.
Qed.

Lemma span_digits_ends (d : char) (s : str) :
  is_digit d = true ->
  ends_with_digit (d :: s) (span_digits s).2.
Proof.
  intros Hd. destruct (span_digits_split s) as [E H].
  rewrite E at 1. by apply (digits_end d).
Qed.

Lemma match_integer_ends (s ds r : str) :
  match_integer s = Some (ds, r) -> ends_with_digit s r.
Proof.
  destruct s as [|c s]; cbn; [done|].
  destruct (c =? 48)%N eqn:E.
  - apply N.eqb_eq in E as ->. intros [= <- <-]. by exists [], 48%N.
  - destruct (is_digit c) eqn:Hc; [|done].
    pose proof (span_digits_ends c s Hc) as H.
    destruct (span_digits s) as [ds' r']. by intros [= <- <-].
Qed.

Lemma match_frac_ends (s fp r : str) :
  match_frac s = Some (fp, r) -> ends_with_digit s r.
Proof.
  destruct s as [|dot [|d s]]; cbn; [done..|].
  destruct ((dot =? 46)%N && is_digit d) eqn:E; [|done].
  apply andb_true_iff in E as [_ Hd].
  pose proof (span_digits_ends d s Hd) as H.
  destruct (span_digits s) as [ds' r']. intros [= <- <-].
  by apply ends_with_digit_cons.
Qed.

Lemma match_exp_ends (s : str) (e : Z) (r : str) :
  match_exp s = Some (e, r) -> ends_with_digit s r.
Proof.
  destruct s as [|c s]; cbn -[span_digits]; [done|].
  destruct ((c =? 101) || (c =? 69))%N; [|done].
  destruct s as [|sg [|d s]]; [done| |].
  - destruct (is_digit sg) eqn:Hd.
    + intros [= <- <-]. by exists [c], sg.
    + by destruct ((sg =? 43) || (sg =? 45))%N.
  - destruct ((sg =? 43) || (sg =? 45))%N.
    + destruct (is_digit d) eqn:Hd; [|done].
      pose proof (span_digits_ends d s Hd) as H.
      destruct (span_digits s) as [ds' r']. intros [= <- <-].
      by do 2 apply ends_with_digit_cons.
    + destruct (is_digit sg) eqn:Hd; [|done].
      pose proof (span_digits_ends sg (d :: s) Hd) as H.
      destruct (span_digits (d :: s)) as [ds' r']. intros [= <- <-].
      by apply ends_with_digit_cons.
Qed.

Lemma match_number_ends (s : str) (n : number) (r : str) :
  match_number s = Some (n, r) -> ends_with_digit s r.
Proof.
  unfold match_number.
  set (p := match s with
            | c :: r0 => if (c =? 45)%N then (true, r0) else (false, s)
            | [] => (false, s)
            end).
  assert (Hp : p.2 = s \/ exists c, s = c :: p.2).
  { subst p. destruct s as [|c s]; [by left|]. destruct (c =? 45)%N; eauto. }
  destruct p as [neg s1]. cbn in Hp.
  destruct (match_integer s1) as [[ip r1]|] eqn:Ei; [|done].
  apply match_integer_ends in Ei.
  assert (H1 : ends_with_digit s r1).
  { destruct Hp as [<-|[c ->]]; [done|by apply ends_with_digit_cons]. }
  clear Hp Ei.
  assert (H2 : ends_with_digit s
                 (match match_frac r1 with Some (fp, r) => (Some fp, r) | None => (None, r1) end).2).
  { destruct (match_frac r1) as [[fp r']|] eqn:Ef; [|done].
    apply match_frac_ends in Ef. by eapply ends_with_digit_trans. }
  destruct (match match_frac r1 with Some (fp, r) => (Some fp, r) | None => (None, r1) end)
    as [frac r2]. cbn in H2.
  assert (H3 : ends_with_digit s
                 (match match_exp r2 with Some (e, r) => (Some e, r) | None => (None, r2) end).2).
  { destruct (match_exp r2) as [[e r']|] eqn:Ee; [|done].
    apply match_exp_ends in Ee. by eapply ends_with_digit_trans. }
  destruct (match match_exp r2 with Some (e, r) => (Some e, r) | None => (None, r2) end)
    as [exp r3]. cbn in H3.
  destruct frac, exp; by intros [= <- <-].
Qed.

Lemma keyword_split (word s r : str) : keyword word s = Some r -> s = word ++ r.
Proof.
  unfold keyword. destruct (startswith s word) eqn:E; [|done].
  intros [= <-]. by apply startswith_true.
Qed.


Lemma skip_ws_suffix (s x : str) : skip_ws s = x -> x `suffix_of` s.
Proof. intros <-. destruct (skip_ws_split s) as (ws & E & _). by exists ws. Qed.

Lemma scanstring_suffix (s x rest : str) :
  scanstring s = Scanned x rest -> (34%N :: rest) `suffix_of` s.
Proof. intros (pre & ->)%scanstring_ends. by exists pre. Qed.

Lemma match_number_suffix (s : str) (n : number) (r : str) :
  match_number s = Some (n, r) ->
  exists c, closing c = true /\ (c :: r) `suffix_of` s.
Proof.
  intros (pre & c & -> & H)%match_number_ends.
  exists c. split; [by apply is_digit_closing|by exists pre].
Qed.

Lemma keyword_suffix (w : str) (c : char) (s r : str) :
  keyword (w ++ [c]) s = Some r -> (c :: r) `suffix_of` s.
Proof. intros ->%keyword_split. exists w. by rewrite <- app_assoc. Qed.

(** Whatever the scanners accept ends where they say: a value with a
    character that is neither white space nor a backtick, the members of
    an object with its closing brace, the items of an array with its
    closing bracket. *)
Lemma scan_ends (digits : N) (fuel : nat) :
  (forall depth s v r, scan_once digits fuel depth s = Scanned v r ->
     exists c, closing c = true /\ (c :: r) `suffix_of` s)
  /\ (forall depth s ps r, object_members digits fuel depth s = Scanned ps r ->
      (125%N :: r) `suffix_of` s)
  /\ (forall depth s vs r, array_items digits fuel depth s = Scanned vs r ->
      (93%N :: r) `suffix_of` s).
Proof.
  induction fuel as [|fuel (IH1 & IH2 & IH3)]; [by repeat split|].
  split; [|split].
  - intros depth s v r. cbn [scan_once]. destruct s as [|c rest]; [done|].
    destruct (c =? ch "034")%N.
    { destruct (scanstring rest) as [x r'| | |] eqn:E; [|done..].
      intros [= <- <-]. exists 34%N. split; [done|].
      apply scanstring_suffix in E. by apply suffix_cons_r. }
    destruct (c =? ch "{")%N.
    { destruct depth as [|depth]; [done|].
      destruct (skip_ws rest) as [|c1 r1] eqn:Ews; [done|].
      apply skip_ws_suffix in Ews.
      destruct (c1 =? ch "}")%N eqn:E1.
      { apply N.eqb_eq in E1 as ->. intros [= <- <-]. exists 125%N.
        split; [done|]. by apply suffix_cons_r. }
      destruct (c1 =? ch "034")%N; [|done].
      destruct (object_members digits fuel depth r1) as [ps r'| | |] eqn:E; [|done..].
      intros [= <- <-]. exists 125%N. split; [done|].
      apply IH2 in E. apply suffix_cons_r. etrans; [exact E|].
      by apply suffix_cons_l in Ews. }
    destruct (c =? ch "[")%N.
    { destruct depth as [|depth]; [done|].
      destruct (skip_ws rest) as [|c1 r1] eqn:Ews; [done|].
      apply skip_ws_suffix in Ews.
      destruct (c1 =? ch "]")%N eqn:E1.
      { apply N.eqb_eq in E1 as ->. intros [= <- <-]. exists 93%N.
        split; [done|]. by apply suffix_cons_r. }
      destruct (array_items digits fuel depth (c1 :: r1)) as [vs r'| | |] eqn:E; [|done..].
      intros [= <- <-]. exists 93%N. split; [done|].
      apply IH3 in E. apply suffix_cons_r. by etrans. }
    destruct (keyword (py "null") (c :: rest)) as [r'|] eqn:K1.
    { intros [= <- <-]. exists 108%N. split; [done|].
      by apply (keyword_suffix [110; 117; 108]%N). }
    destruct (keyword (py "true") (c :: rest)) as [r'|] eqn:K2.
    { intros [= <- <-]. exists 101%N. split; [done|].
      by apply (keyword_suffix [116; 114; 117]%N). }
    destruct (keyword (py "false") (c :: rest)) as [r'|] eqn:K3.
    { intros [= <- <-]. exists 101%N. split; [done|].
      by apply (keyword_suffix [102; 97; 108; 115]%N). }
    destruct (match_number (c :: rest)) as [[n r']|] eqn:En.
    { apply match_number_suffix in En.
      destruct n; [destruct (too_many_digits _ _); [done|]|..]; by intros [= <- <-]. }
    destruct (keyword (py "NaN") (c :: rest)) as [r'|] eqn:K4.
    { intros [= <- <-]. exists 78%N. split; [done|].
      by apply (keyword_suffix [78; 97]%N). }
    destruct (keyword (py "Infinity") (c :: rest)) as [r'|] eqn:K5.
    { intros [= <- <-]. exists 121%N. split; [done|].
      by apply (keyword_suffix [73; 110; 102; 105; 110; 105; 116]%N). }
    destruct (keyword (py "-Infinity") (c :: rest)) as [r'|] eqn:K6; [|done].
    intros [= <- <-]. exists 121%N. split; [done|].
    by apply (keyword_suffix [45; 73; 110; 102; 105; 110; 105; 116]%N).
  - intros depth s ps r. cbn [object_members].
    destruct (scanstring s) as [key r0| | |] eqn:Ek; [|done..].
    apply scanstring_suffix, suffix_cons_l in Ek.
    destruct (skip_ws r0) as [|colon r1] eqn:Ews0; [done|].
    apply skip_ws_suffix, suffix_cons_l in Ews0.
    destruct (colon =? ch ":")%N; [|done].
    destruct (scan_once digits fuel depth (skip_ws r1)) as [v r2| | |] eqn:Ev; [|done..].
    apply IH1 in Ev as (cv & _ & Ev). apply suffix_cons_l in Ev.
    pose proof (skip_ws_suffix r1 _ eq_refl) as Ews1.
    assert (Hr2 : r2 `suffix_of` s) by (do 3 (etrans; [eassumption|]); done).
    destruct (skip_ws r2) as [|c r3] eqn:Ews2; [done|].
    apply skip_ws_suffix in Ews2.
    destruct (c =? ch "}")%N eqn:E1.
    { apply N.eqb_eq in E1 as ->. intros [= <- <-]. by etrans. }
    destruct (c =? ch ",")%N; [|done].
    destruct (skip_ws r3) as [|q r4] eqn:Ews3; [done|].
    apply skip_ws_suffix, suffix_cons_l in Ews3.
    destruct (q =? ch "034")%N; [|done].
    destruct (object_members digits fuel depth r4) as [ps' r'| | |] eqn:E; [|done..].
    intros [= <- <-]. apply IH2 in E.
    apply suffix_cons_l in Ews2.
    do 3 (etrans; [eassumption|]). done.
  - intros depth s vs r. cbn [array_items].
    destruct (scan_once digits fuel depth s) as [v r0| | |] eqn:Ev; [|done..].
    apply IH1 in Ev as (cv & _ & Ev). apply suffix_cons_l in Ev.
    destruct (skip_ws r0) as [|c r1] eqn:Ews0; [done|].
    apply skip_ws_suffix in Ews0.
    destruct (c =? ch "]")%N eqn:E1.
    { apply N.eqb_eq in E1 as ->. intros [= <- <-]. by etrans. }
    destruct (c =? ch ",")%N; [|done].
    destruct (array_items digits fuel depth (skip_ws r1)) as [vs' r'| | |] eqn:E; [|done..].
    intros [= <- <-]. apply IH3 in E.
    pose proof (skip_ws_suffix r1 _ eq_refl) as Ews1.
    apply suffix_cons_l in Ews0.
    do 3 (etrans; [eassumption|]). done.
Qed.


Lemma scanstring_fuel (s : str) : scanstring s <> OutOfFuel.
Proof.
  remember (length s) as n eqn:Hn. revert s Hn.
  induction n as [n IH] using lt_wf_ind. intros s Hn.
  assert (Hrec : forall c s', (length s' < n)%nat -> scan_cons c (scanstring s') <> OutOfFuel).
  { intros c s' Hlt. specialize (IH _ Hlt s' eq_refl). by destruct (scanstring s'). }
  destruct s as [|c s]; cbn [scanstring]; [done|].
  destruct (c =? 34)%N; [done|].
  destruct (c =? 92)%N.
  - destruct s as [|e r1]; [done|].
    destruct (e =? 117)%N.
    + destruct r1 as [|a [|b [|c' [|d r2]]]]; try done.
      destruct (decode_uXXXX a b c' d) as [uni|]; [|done].
      destruct r2 as [|b1 [|b2 r3]]; try (apply Hrec; subst; cbn; lia).
      destruct (is_high_surrogate uni && (b1 =? 92)%N && (b2 =? 117)%N);
        [|apply Hrec; subst; cbn; lia].
      destruct r3 as [|a2 [|b3 [|c2 [|d2 r4]]]]; try done.
      destruct (decode_uXXXX a2 b3 c2 d2) as [uni2|]; [|done].
      destruct (is_low_surrogate uni2); apply Hrec; subst; cbn; lia.
    + destruct (backslash e); [|done]. apply Hrec; subst; cbn; lia.
  - destruct (c <? 32)%N; [done|]. apply Hrec; subst; cbn; lia.
Qed.

Lemma scanstring_fails (s : str) (err : exn) : scanstring s <> Fails err.
Proof.
  remember (length s) as n eqn:Hn. revert s Hn.
  induction n as [n IH] using lt_wf_ind. intros s Hn.
  assert (Hrec : forall c s', (length s' < n)%nat -> scan_cons c (scanstring s') <> Fails err).
  { intros c s' Hlt. specialize (IH _ Hlt s' eq_refl). by destruct (scanstring s'). }
  destruct s as [|c s]; cbn [scanstring]; [done|].
  destruct (c =? 34)%N; [done|].
  destruct (c =? 92)%N.
  - destruct s as [|e r1]; [done|].
    destruct (e =? 117)%N.
    + destruct r1 as [|a [|b [|c' [|d r2]]]]; try done.
      destruct (decode_uXXXX a b c' d) as [uni|]; [|done].
      destruct r2 as [|b1 [|b2 r3]]; try (apply Hrec; subst; cbn; lia).
      destruct (is_high_surrogate uni && (b1 =? 92)%N && (b2 =? 117)%N);
        [|apply Hrec; subst; cbn; lia].
      destruct r3 as [|a2 [|b3 [|c2 [|d2 r4]]]]; try done.
      destruct (decode_uXXXX a2 b3 c2 d2) as [uni2|]; [|done].
      destruct (is_low_surrogate uni2); apply Hrec; subst; cbn; lia.
    + destruct (backslash e); [|done]. apply Hrec; subst; cbn; lia.
  - destruct (c <? 32)%N; [done|]. apply Hrec; subst; cbn; lia.
Qed.

(** The fuel [loads] gives is enough: twice the length of the text, and
    one more, is never used up. *)
Lemma scan_fuel (digits : N) (fuel : nat) :
  (forall depth s, (2 * length s < fuel)%nat -> scan_once digits fuel depth s <> OutOfFuel)
  /\ (forall depth s, (2 * length s < fuel)%nat ->
      object_members digits fuel depth s <> OutOfFuel)
  /\ (forall depth s, (2 * length s + 1 < fuel)%nat ->
      array_items digits fuel depth s <> OutOfFuel).
Proof.
  induction fuel as [|fuel (IH1 & IH2 & IH3)]; [repeat split; intros; lia|].
  split; [|split].
  - intros depth s Hf. cbn [scan_once]. destruct s as [|c rest]; [done|]. cbn [length] in Hf.
    destruct (c =? ch "034")%N.
    { pose proof (scanstring_fuel rest). by destruct (scanstring rest). }
    destruct (c =? ch "{")%N.
    { destruct depth as [|depth]; [done|].
      destruct (skip_ws rest) as [|c1 r1] eqn:Ews; [done|].
      apply skip_ws_suffix, suffix_length in Ews. cbn [length] in Ews.
      destruct (c1 =? ch "}")%N; [done|].
      destruct (c1 =? ch "034")%N; [|done].
      pose proof (IH2 depth r1 ltac:(unfold str, char in *; lia)).
      by destruct (object_members digits fuel depth r1). }
    destruct (c =? ch "[")%N.
    { destruct depth as [|depth]; [done|].
      destruct (skip_ws rest) as [|c1 r1] eqn:Ews; [done|].
      apply skip_ws_suffix, suffix_length in Ews.
      destruct (c1 =? ch "]")%N; [done|].
      pose proof (IH3 depth (c1 :: r1) ltac:(unfold str, char in *; lia)).
      by destruct (array_items digits fuel depth (c1 :: r1)). }
    repeat case_match; done.
  - intros depth s Hf. cbn [object_members].
    destruct (scanstring s) as [key r0| | |] eqn:Ek; [|done|by apply scanstring_fuel in Ek|done].
    apply scanstring_suffix, suffix_length in Ek. cbn [length] in Ek.
    destruct (skip_ws r0) as [|colon r1] eqn:Ews0; [done|].
    apply skip_ws_suffix, suffix_length in Ews0. cbn [length] in Ews0.
    destruct (colon =? ch ":")%N; [|done].
    pose proof (suffix_length _ _ (skip_ws_suffix r1 _ eq_refl)) as Ews1.
    destruct (scan_once digits fuel depth (skip_ws r1)) as [v r2| | |] eqn:Ev;
      [|done|by apply IH1 in Ev; [|unfold str, char in *; lia]|done].
    apply scan_ends in Ev as (cv & _ & Ev%suffix_length). cbn [length] in Ev.
    destruct (skip_ws r2) as [|c r3] eqn:Ews2; [done|].
    apply skip_ws_suffix, suffix_length in Ews2. cbn [length] in Ews2.
    destruct (c =? ch "}")%N; [done|].
    destruct (c =? ch ",")%N; [|done].
    destruct (skip_ws r3) as [|q r4] eqn:Ews3; [done|].
    apply skip_ws_suffix, suffix_length in Ews3. cbn [length] in Ews3.
    destruct (q =? ch "034")%N; [|done].
    pose proof (IH2 depth r4 ltac:(unfold str, char in *; lia)).
    by destruct (object_members digits fuel depth r4).
  - intros depth s Hf. cbn [array_items].
    destruct (scan_once digits fuel depth s) as [v r0| | |] eqn:Ev;
      [|done|by apply IH1 in Ev; [|unfold str, char in *; lia]|done].
    apply scan_ends in Ev as (cv & _ & Ev%suffix_length). cbn [length] in Ev.
    destruct (skip_ws r0) as [|c r1] eqn:Ews0; [done|].
    apply skip_ws_suffix, suffix_length in Ews0. cbn [length] in Ews0.
    destruct (c =? ch "]")%N; [done|].
    destruct (c =? ch ",")%N; [|done].
    pose proof (suffix_length _ _ (skip_ws_suffix r1 _ eq_refl)) as Ews1.
    pose proof (IH3 depth (skip_ws r1) ltac:(unfold str, char in *; lia)).
    by destruct (array_items digits fuel depth (skip_ws r1)).
Qed.

(** The scanners raise nothing but [RecursionError], from a container
    nested deeper than the interpreter allows, and [ValueError], from an
    [int] literal longer than it allows. *)
Lemma scan_fails (digits : N) (fuel : nat) :
  (forall depth s e, scan_once digits fuel depth s = Fails e ->
     e = RecursionError \/ e = ValueError)
  /\ (forall depth s e, object_members digits fuel depth s = Fails e ->
      e = RecursionError \/ e = ValueError)
  /\ (forall depth s e, array_items digits fuel depth s = Fails e ->
      e = RecursionError \/ e = ValueError).
Proof.
  induction fuel as [|fuel (IH1 & IH2 & IH3)]; [by repeat split|].
  split; [|split]; intros depth s e;
    cbn [scan_once object_members array_items];
    repeat case_match; try done; intros [= <-]; eauto;
    exfalso; eapply scanstring_fails; eassumption.
Qed.

(** [loads] returns a value or raises one of three exceptions. *)
Lemma loads_outcome (lim : Limits) (s : str) :
  (exists v, loads lim s = Return v)
  \/ loads lim s = Raise JSONDecodeError
  \/ loads lim s = Raise RecursionError
  \/ loads lim s = Raise ValueError.
Proof.
  unfold loads.
  assert (H : scan_once (max_str_digits lim) (S (2 * length s)) (recursion lim) (skip_ws s)
              <> OutOfFuel).
  { apply scan_fuel. pose proof (suffix_length _ _ (skip_ws_suffix s _ eq_refl)).
    unfold str, char in *. lia. }
  destruct (scan_once _ _ _ (skip_ws s)) as [v rest| | |e] eqn:E.
  - destruct (skip_ws rest); repeat case_match; eauto.
  - repeat case_match; auto.
  - done.
  - apply scan_fails in E as [-> | ->]; repeat case_match; auto.
Qed.

Lemma skip_ws_nil (r : str) : skip_ws r = [] -> forallb is_ws r = true.
Proof.
  induction r as [|c r IH]; cbn; [done|].
  destruct (is_ws c); [done|]. done.
Qed.

(** A text that decodes consists of white space, a document ending with a
    character that is neither white space nor a backtick, and white space. *)
Lemma loads_ends (lim : Limits) (j : str) (d : value) :
  loads lim j = Return d ->
  exists c r, closing c = true /\ (c :: r) `suffix_of` j /\ forallb is_ws r = true.
Proof.
  unfold loads. intros H.
  assert (exists v rest,
            scan_once (max_str_digits lim) (S (2 * length j)) (recursion lim) (skip_ws j)
            = Scanned v rest
            /\ skip_ws rest = []) as (v & rest & E & Hr).
  { destruct (scan_once _ _ _ (skip_ws j)) as [v rest| | |];
      [|by repeat case_match..].
    exists v, rest. split; [done|]. destruct (skip_ws rest); [done|by repeat case_match]. }
  apply scan_ends in E as (c & Hc & E).
  exists c, rest. split; [done|]. split; [|by apply skip_ws_nil].
  etrans; [exact E|]. by eapply skip_ws_suffix.
Qed.


Lemma lstrip_suffix (s : str) : lstrip s `suffix_of` s.
Proof.
  induction s as [|c s IH]; cbn; [done|].
  destruct (isspace c); [by apply suffix_cons_r|done].
Qed.

Lemma lstrip_fixed (s : str) :
  length (lstrip s) = length s ->
  match s with [] => True | c :: _ => isspace c = false end.
Proof.
  destruct s as [|c s]; cbn; [done|].
  destruct (isspace c); [|done].
  intros H. pose proof (suffix_length _ _ (lstrip_suffix s)).
  exfalso. unfold str, char in *. lia.
Qed.

(** A text that [strip] leaves as it is neither begins nor ends with white
    space. *)
Lemma strip_fixed (j : str) :
  strip j = j ->
  match j with [] => True | c :: _ => isspace c = false end
  /\ (forall j0 c, j = j0 ++ [c] -> isspace c = false).
Proof.
  unfold strip, rstrip. intros H.
  pose proof (suffix_length _ _ (lstrip_suffix j)) as H1.
  pose proof (suffix_length _ _ (lstrip_suffix (reverse (lstrip j)))) as H2.
  rewrite length_reverse in H2.
  assert (H3 : length (reverse (lstrip (reverse (lstrip j)))) = length j) by by rewrite H.
  rewrite length_reverse in H3.
  assert (E1 : length (lstrip j) = length j) by (unfold str, char in *; lia).
  split; [by apply lstrip_fixed|].
  intros j0 c ->.
  assert (E2 : lstrip (j0 ++ [c]) = j0 ++ [c]).
  { destruct (lstrip_suffix (j0 ++ [c])) as (k & Hk).
    destruct k as [|n k]; [done|]. exfalso.
    assert (length (j0 ++ [c]) = length (n :: k) + length (lstrip (j0 ++ [c])))%nat as Hl
      by (rewrite Hk at 1; apply length_app).
    cbn [length] in Hl. unfold str, char in *. lia. }
  rewrite E2 in H2, H3.
  assert (E3 : length (lstrip (reverse (j0 ++ [c]))) = length (reverse (j0 ++ [c])))
    by (rewrite length_reverse; unfold str, char in *; lia).
  apply lstrip_fixed in E3. by rewrite reverse_snoc in E3.
Qed.

Lemma is_ws_last_isspace (r0 : str) (c : char) :
  forallb is_ws (r0 ++ [c]) = true -> isspace c = true.
Proof.
  rewrite forallb_app. cbn. intros [_ [H _]%andb_true_iff]%andb_true_iff.
  by apply is_ws_isspace.
Qed.

(** A text that decodes and has no white space around it is not empty and
    ends with a character that is neither white space nor a backtick. *)
Lemma loads_stripped_ends (lim : Limits) (j : str) (d : value) :
  loads lim j = Return d -> strip j = j ->
  exists j0 c, j = j0 ++ [c] /\ closing c = true.
Proof.
  intros (c & r & Hc & (pre & ->) & Hr)%loads_ends [_ Hlast]%strip_fixed.
  destruct r as [|c' r _] using rev_ind; [by exists pre, c|].
  exfalso. apply is_ws_last_isspace in Hr.
  specialize (Hlast (pre ++ c :: r) c'). rewrite <- app_assoc in Hlast.
  rewrite Hlast in Hr; done.
Qed.

End JsonFacts.

(** ** The response normaliser *)

Section Normaliser.
Import PyStr Server Text.

Lemma normalize_response_direct (lim : Json.Limits) (px : Pydantic) (text : str)
    (data : Json.value) :
  Json.loads lim text = Return data ->
  normalize_response lim px text = Model.SecurityReport_init px data.
Proof. intros H. unfold normalize_response. by rewrite H. Qed.

(** The fallback chain, once the reply has failed to decode as a whole. *)
Lemma normalize_response_fallback (lim : Json.Limits) (px : Pydantic) (text : str) :
  Json.loads lim text = Raise JSONDecodeError ->
  normalize_response lim px text =
    match Re.search Re.json_fence text with
    | Some json_match =>
        data <- Json.loads lim (Re.group1 json_match);;
        Model.SecurityReport_init px data
    | None =>
        match Re.search Re.brace_span text with
        | Some json_match =>
            data <- Json.loads lim (Re.group0 json_match);;
            Model.SecurityReport_init px data
        | None => Return (degraded_report text)
        end
    end.
Proof. intros Hl. unfold normalize_response. by rewrite Hl. Qed.


(** An exception of the decoder other than [JSONDecodeError] is not
    caught: it leaves the normaliser. *)
Lemma normalize_response_raises (lim : Json.Limits) (px : Pydantic) (text : str) (e : exn) :
  Json.loads lim text = Raise e -> e <> JSONDecodeError ->
  normalize_response lim px text = Raise e.
Proof. intros Hl He. unfold normalize_response. rewrite Hl. by destruct e. Qed.












(** A reply nested deeper than the interpreter allows does not decode,
    and not with a [JSONDecodeError]: the [RecursionError] leaves the
    normaliser, though the reply holds neither a fence nor a brace. *)
Lemma normalizer_raises_on_deep_nesting :
  let text := repeat 91%N 1000 in
  Json.loads Demo.cpython text = Raise Json.RecursionError
  /\ has_json_fence text = false /\ has_brace_span text = false
  /\ normalize_response Demo.cpython Demo.strict text = Raise Json.RecursionError.
Proof. vm_compute. done. Qed.

End Normaliser.

(** ** Comma-separated settings *)

Section Splitting.
Import PyStr Server.

Lemma split_cons (sep : char) (s : str) : exists w ws, split sep s = w :: ws.
Proof.
  induction s as [|c s (w & ws & IH)]; cbn; [eauto|].
  destruct (N.eqb c sep); [eauto|]. rewrite IH. eauto.
Qed.

Lemma join_cons (sep x : str) (y : str) (l : list str) :
  join sep (x :: y :: l) = x ++ sep ++ join sep (y :: l).
Proof. reflexivity. Qed.

(** Joining the parts of a split gives the text back. *)
Lemma join_split (sep : char) (s : str) : join [sep] (split sep s) = s.
Proof.
  induction s as [|c s IH]; [reflexivity|]. cbn [split].
  destruct (N.eqb_spec c sep) as [->|Hc].
  - destruct (split_cons sep s) as (w & ws & E). rewrite E in *.
    rewrite join_cons, IH. reflexivity.
  - destruct (split_cons sep s) as (w & ws & E). rewrite E in *.
    destruct ws as [|w' ws].
    + cbn in *. by rewrite IH.
    + rewrite join_cons in *. cbn. by rewrite <- IH.
Qed.

Lemma split_no_sep (sep : char) (s : str) : Forall (fun w => sep ∉ w) (split sep s).
Proof.
  induction s as [|c s IH]; cbn.
  - constructor; [|constructor]. apply not_elem_of_nil.
  - destruct (N.eqb_spec c sep) as [->|Hc].
    + constructor; [apply not_elem_of_nil|done].
    + destruct (split_cons sep s) as (w & ws & E). rewrite E in *.
      inversion IH; subst. constructor; [|done].
      rewrite not_elem_of_cons. split; [congruence|done].
Qed.

Lemma split_app_sep (sep : char) (x s : str) :
  sep ∉ x -> split sep (x ++ sep :: s) = x :: split sep s.
Proof.
  induction x as [|c x IH]; intros Hx; cbn.
  - by rewrite N.eqb_refl.
  - apply not_elem_of_cons in Hx as [Hc Hx].
    destruct (N.eqb_spec c sep) as [->|_]; [done|]. by rewrite IH.
Qed.

Lemma split_one (sep : char) (x : str) : sep ∉ x -> split sep x = [x].
Proof.
  induction x as [|c x IH]; intros Hx; cbn; [done|].
  apply not_elem_of_cons in Hx as [Hc Hx].
  destruct (N.eqb_spec c sep) as [->|_]; [done|]. by rewrite IH.
Qed.

(** Splitting the join of parts that are free of the separator gives the
    parts back. *)
Lemma split_join (sep : char) (l : list str) :
  l <> [] -> Forall (fun w => sep ∉ w) l -> split sep (join [sep] l) = l.
Proof.
  induction l as [|x l IH]; [done|]. intros _ H. inversion H as [|? ? Hx Hl]; subst.
  destruct l as [|y l].
  - cbn. by apply split_one.
  - rewrite join_cons. cbn [app]. rewrite split_app_sep by done.
    f_equal. by apply IH.
Qed.

(** X2: with the client API key required ([REQUIRE_API_KEY] is ["true"] in
    any case of letters) and [VALID_API_KEYS] set to keys joined by commas,
    a request passes the check exactly when its [X-API-Key] is not empty
    and is one of the keys, compared as they are written; any other request
    is refused with 401. *)
Theorem verify_api_key_configured (w : World) (keys : list str) (x_api_key : option str) :
  lower (getenv_default w (py "REQUIRE_API_KEY") (py "false")) = py "true" ->
  keys <> [] -> Forall (fun key => 44%N ∉ key) keys ->
  getenv w (py "VALID_API_KEYS") = Some (join [44%N] keys) ->
  verify_api_key w x_api_key =
    match x_api_key with
    | Some key =>
        if truthy key && bool_decide (key ∈ keys) then Return true
        else Raise (HTTPException 401 (py "Invalid or missing API key"))
    | None => Raise (HTTPException 401 (py "Invalid or missing API key"))
    end.
Proof.
  intros Hr Hk Hc Hv. unfold verify_api_key, getenv_default, getenv in *.
  rewrite Hr, Hv. cbn [default from_option id]. rewrite split_join by done.
  unfold eqb. rewrite bool_decide_eq_true_2 by done. reflexivity.
Qed.

Lemma verify_api_key_configured_witness :
  let w := Demo.world Sample.keyed_env Demo.accept_all (Return Demo.alice)
             Demo.no_reply Demo.no_stream in
  verify_api_key w (Some (py "k-two")) = Return true
  /\ verify_api_key w (Some (py "k-three"))
     = Raise (HTTPException 401 (py "Invalid or missing API key")).
Proof.
  cbv zeta. split.
  - rewrite (verify_api_key_configured _ [py "k-one"; py "k-two"] (Some (py "k-two")));
      [reflexivity|reflexivity|done| |reflexivity].
    refine (bool_decide_eq_true_1 _ _). reflexivity.
  - reflexivity.
Defined.

(** X3: with [ALLOWED_ORIGINS] set to origins joined by commas, the
    origins the CORS middleware allows are those origins, in order and as
    they are written. *)
Theorem cors_origins_configured (w : World) (origins : list str) :
  origins <> [] -> Forall (fun origin => 44%N ∉ origin) origins ->
  getenv w (py "ALLOWED_ORIGINS") = Some (join [44%N] origins) ->
  cors_origins w = origins.
Proof.
  intros Hne Hc He. unfold cors_origins, getenv_default, getenv in *. rewrite He.
  cbn [default from_option id]. by apply split_join.
Qed.

Lemma cors_origins_configured_witness :
  cors_origins
    (Demo.world [(py "ALLOWED_ORIGINS", py "https://app.example.com,https://example.com")]
       Demo.accept_all (Return Demo.alice) Demo.no_reply Demo.no_stream)
  = [py "https://app.example.com"; py "https://example.com"].
Proof.
  apply cors_origins_configured; [done| |reflexivity].
  refine (bool_decide_eq_true_1 _ _). reflexivity.
Defined.

End Splitting.

(** ** What the validator lets through *)

Section ValidatorAccepts.
Import PyStr Server.

(** X1: the request validator accepts a request exactly when its code
    holds a character other than white space, has at most 50,000
    characters and is accepted by the Python parser.  Every refusal is a
    400, except a failure of the parser other than a [SyntaxError], which
    is raised as it is. *)
Theorem validate_request_accepts_iff (w : World) (request : AnalyzeRequest.t) :
  (validate_request w request = Return tt <->
     truthy (strip (AnalyzeRequest.code request)) = true
     /\ len (AnalyzeRequest.code request) <= 50000
     /\ compile w (AnalyzeRequest.code request) = Compiled)
  /\ (forall e, validate_request w request = Raise e ->
        (exists detail, e = HTTPException 400 detail)
        \/ compile w (AnalyzeRequest.code request) = RaisesOther e).
Proof.
  unfold validate_request.
  destruct (truthy (strip (AnalyzeRequest.code request))) eqn:Hs.
  2: { rewrite orb_true_r.
       split; [split; [discriminate | intros (? & _); discriminate]
              | intros e [= <-]; eauto]. }
  rewrite (truthy_strip _ Hs). cbn [negb orb].
  destruct (Z.ltb_spec 50000 (len (AnalyzeRequest.code request))).
  { split; [split; [discriminate | intros (_ & ? & _); lia] | intros e [= <-]; eauto]. }
  destruct (compile w (AnalyzeRequest.code request)) as [|msg|e0].
  - split; [split; [done|done] | discriminate].
  - split; [split; [discriminate | intros (_ & _ & ?); discriminate]
           | intros e [= <-]; eauto].
  - split; [split; [discriminate | intros (_ & _ & ?); discriminate]
           | intros e [= <-]; eauto].
Qed.

End ValidatorAccepts.

(** ** The bearer token *)

Section Bearer.
Import PyStr Server Text.

(** X4: for an [Authorization] header that starts with ["Bearer "], the
    token the verifier reads is the text after that prefix up to the next
    space: the second element of the split always exists, holds no space,
    and whatever follows a second space is ignored. *)
Theorem bearer_token_is_second_word (h : str) :
  startswith h (py "Bearer ") = true ->
  exists rest,
    h = py "Bearer " ++ bearer_token h ++ rest
    /\ (32%N ∉ bearer_token h)
    /\ (rest = [] \/ exists r, rest = 32%N :: r)
    /\ split 32%N h !! 1%nat = Some (bearer_token h).
Proof.
  intros Hs. apply startswith_true in Hs.
  set (s := drop (length (py "Bearer ")) h) in *.
  assert (E : split 32%N h = py "Bearer" :: split 32%N s).
  { rewrite Hs. change (py "Bearer " ++ s) with (py "Bearer" ++ 32%N :: s).
    apply split_app_sep. vm_compute. intros H.
    repeat (apply elem_of_cons in H as [H|H]; [discriminate|]).
    by apply elem_of_nil in H. }
  unfold bearer_token. rewrite E. cbn [lookup list_lookup].
  destruct (split_cons 32%N s) as (t & ws & Et).
  pose proof (join_split 32%N s) as Hj. pose proof (split_no_sep 32%N s) as Hn.
  rewrite Et in *. cbn [lookup list_lookup default from_option id].
  apply Forall_cons in Hn as [Ht _].
  destruct ws as [|t' ws].
  - exists []. cbn in Hj. rewrite app_nil_r. rewrite Hj. repeat split; auto.
    by rewrite <- Hj.
  - exists (32%N :: join [32%N] (t' :: ws)). rewrite join_cons in Hj.
    repeat split; eauto. rewrite Hs at 1. by rewrite <- Hj.
Qed.

Lemma bearer_token_is_second_word_witness :
  bearer_token (py "Bearer abc.def.ghi trailing words") = py "abc.def.ghi".
Proof.
  destruct (bearer_token_is_second_word (py "Bearer abc.def.ghi trailing words") eq_refl)
    as (rest & _ & _ & _ & _).
  reflexivity.
Defined.

End Bearer.

(** ** Outcomes of the identity verifier *)

Section VerifierOutcomes.
Import PyStr Server Text Http.

Lemma user_identifier_truthy (payload user : Json.value) :
  user_identifier payload = Return user -> Json.truthy user = true.
Proof.
  unfold user_identifier, get_method. destruct payload; try discriminate.
  cbn [result_bind].
  match goal with |- context [negb ?b] => destruct b eqn:E end; cbn [negb];
    [by intros [= <-] | discriminate].
Qed.

Lemma auth_handler_rejects {A} (e : exn) :
  exists detail, @auth_handler A e = (Raise (HTTPException 401 detail), [])
                 /\ detail ∈ rejections.
Proof.
  unfold rejections.
  destruct e; eexists; (split; [reflexivity|]); set_solver.
Qed.

Lemma try_except_auth_calls {A} (m : M A) : (try_except m auth_handler).2 = m.2.
Proof.
  destruct m as [[a|e] l]; [reflexivity|]. cbn.
  destruct (auth_handler_rejects (A:=A) e) as (d & -> & _). cbn. by rewrite app_nil_r.
Qed.

Lemma verify_token_truthy (w : World) (token : str) (user : Json.value) :
  (verify_token w token).1 = Return user -> Json.truthy user = true.
Proof.
  unfold verify_token, mbind, lift.
  destruct (token_payload w token) as [[payload|e] l]; [|discriminate].
  cbn. apply user_identifier_truthy.
Qed.

(** The verifier returns an identity that is true in Python's sense, or
    raises a 401 with one of four details. *)
Lemma verifier_outcome (w : World) (request : Request) :
  match (verify_authenticated_user w request).1 with
  | Return user => Json.truthy user = true
  | Raise e => exists detail, e = HTTPException 401 detail /\ detail ∈ rejections
  end.
Proof.
  unfold verify_authenticated_user.
  assert (R : py "Authentication required. Please sign in." ∈ rejections)
    by (unfold rejections; set_solver).
  destruct (headers_get request (py "Authorization")) as [h|]; [|cbn; eauto].
  destruct (truthy h && startswith h (py "Bearer ")); [|cbn; eauto].
  pose proof (verify_token_truthy w (bearer_token h)) as Ht.
  destruct (verify_token w (bearer_token h)) as [[user|e] l]; cbn in *; [auto|].
  destruct (auth_handler_rejects (A:=Json.value) e) as (d & -> & Hd). cbn. eauto.
Qed.

End VerifierOutcomes.

Section Rejections.
Import PyStr Server Text Http.

(** X5: the identity verifier either returns an identity that is true in
    Python's sense (never an empty one) or raises a 401 with one of four
    details; whatever goes wrong inside it, nothing else comes out.  A
    request it rejects is answered 401 by both endpoints, is not counted
    by the rate limiter and reaches the model on neither. *)
Theorem verifier_rejects_with_401 (w : World) (now : Z) (st : Limiter.storage)
    (request : Request) (analyze_request : AnalyzeRequest.t) (fix_request : FixRequest.t) :
  match (verify_authenticated_user w request).1 with
  | Return user => Json.truthy user = true
  | Raise e =>
      (exists detail, e = HTTPException 401 detail /\ detail ∈ rejections)
      /\ (POST_api_analyze w now st request analyze_request).1
         = (exception_response e, st)
      /\ (POST_api_fix w now st request fix_request).1 = (exception_response e, st)
      /\ status_code (exception_response e) = 401
      /\ gateway_calls (POST_api_analyze w now st request analyze_request).2 = []
      /\ gateway_calls (POST_api_fix w now st request fix_request).2 = []
  end.
Proof.
  pose proof (verifier_outcome w request) as H.
  pose proof (verify_authenticated_user_calls w request) as Hc.
  unfold POST_api_analyze, POST_api_fix.
  destruct (verify_authenticated_user w request) as [[user|e] calls] eqn:E; cbn [fst] in *;
    [done|].
  rewrite !(protected_route_unauthenticated _ _ _ _ _ _ _ _ _ E).
  destruct H as (d & -> & Hd). cbn [fst snd] in *. repeat split; eauto.
Qed.

End Rejections.

(** ** The issuer's key set *)

Section Issuer.
Import PyStr Server Text Http.

Lemma find_signing_key_some (from_jwk : Json.value -> result unit)
    (keys : list Json.value) (kid key : Json.value) :
  find_signing_key from_jwk keys kid = Return (Some key) ->
  key ∈ keys
  /\ (exists key_kid, get_method key (py "kid") Json.Null = Return key_kid
                      /\ py_eq key_kid kid = true)
  /\ from_jwk key = Return tt.
Proof.
  induction keys as [|k keys IH]; [discriminate|]. cbn [find_signing_key].
  destruct (get_method k (py "kid") Json.Null) as [kk|e] eqn:Ek; [|discriminate].
  cbn [result_bind]. destruct (py_eq kk kid) eqn:Eq.
  - destruct (from_jwk k) as [[]|e] eqn:Ef; [|discriminate]. cbn.
    intros [= <-]. repeat split; [apply list_elem_of_here|eauto|done].
  - intros H. destruct (IH H) as (? & ? & ?).
    repeat split; [by apply list_elem_of_further|done..].
Qed.

(** X6: with an issuer configured ([CLERK_FRONTEND_API] not empty), every
    request that carries a bearer token makes exactly one outbound call
    while it is verified, whatever the outcome: the fetch of the key set
    from [https://<issuer>/.well-known/jwks.json] (the key set is not
    cached between requests). *)
Theorem jwks_fetched_once (w : World) (request : Request) (h host : str) :
  headers_get request (py "Authorization") = Some h ->
  startswith h (py "Bearer ") = true ->
  getenv w (py "CLERK_FRONTEND_API") = Some host ->
  truthy host = true ->
  (verify_authenticated_user w request).2 = [JwksGet (jwks_url host)].
Proof.
  intros Hh Hb Hc Ht.
  rewrite (verify_authenticated_user_bearer _ _ _ Hh Hb), try_except_auth_calls.
  unfold verify_token, token_payload, getenv_default, getenv in *. rewrite Hc.
  cbn [default from_option id]. rewrite Ht. cbn [negb andb].
  unfold mbind at 2. cbn [mret].
  fold (jwks_url host).
  unfold logged, lift, mbind.
  destruct (httpx_get_json w (jwks_url host)) as [jwks|e]; [|reflexivity].
  match goal with |- (match ?r with _ => _ end).2 = _ => destruct r end; reflexivity.
Qed.

Lemma jwks_fetched_once_witness :
  (verify_authenticated_user (Sample.issuer_world Demo.no_reply) (Demo.request Demo.bearer)).2
  = [JwksGet (py "https://clerk.example.com/.well-known/jwks.json")].
Proof.
  exact (jwks_fetched_once (Sample.issuer_world Demo.no_reply) (Demo.request Demo.bearer)
           (py "Bearer eyJhbGciOi.eyJzdWIiOi.c2ln") (py "clerk.example.com")
           eq_refl eq_refl eq_refl eq_refl).
Defined.

(** X7: with an issuer configured, an identity is returned only for a
    token that was verified: the key set was fetched from the issuer, one
    of its keys has the [kid] of the token's header and was accepted as a
    signing key, the token decoded under that key, and the identity was
    read from the decoded payload. *)
Theorem verified_identity_has_issuer_key (w : World) (request : Request)
    (host : str) (user : Json.value) (calls : list call) :
  getenv w (py "CLERK_FRONTEND_API") = Some host ->
  truthy host = true ->
  verify_authenticated_user w request = (Return user, calls) ->
  exists h jwks keys header kid key payload,
    headers_get request (py "Authorization") = Some h
    /\ httpx_get_json w (jwks_url host) = Return jwks
    /\ (keys <- get_method jwks (py "keys") (Json.Arr []);; iterate keys) = Return keys
    /\ jwt_get_unverified_header w (bearer_token h) = Return header
    /\ get_method header (py "kid") Json.Null = Return kid
    /\ key ∈ keys
    /\ (exists key_kid, get_method key (py "kid") Json.Null = Return key_kid
                        /\ py_eq key_kid kid = true)
    /\ RSAAlgorithm_from_jwk w key = Return tt
    /\ jwt_decode w (bearer_token h) (Some key) = Return payload
    /\ user_identifier payload = Return user.
Proof.
  intros Hc Ht. unfold verify_authenticated_user.
  destruct (headers_get request (py "Authorization")) as [h|]; [|discriminate].
  destruct (truthy h && startswith h (py "Bearer ")); [|discriminate].
  unfold verify_token, token_payload, getenv_default, getenv in *. rewrite Hc.
  cbn [default from_option id]. rewrite Ht. cbn [negb andb].
  unfold mbind at 2. cbn [mret]. fold (jwks_url host).
  unfold logged, lift, mbind, try_except.
  destruct (httpx_get_json w (jwks_url host)) as [jwks|e] eqn:Ej.
  2: { destruct (auth_handler_rejects (A:=Json.value) e) as (d & -> & _). discriminate. }
  destruct (jwt_get_unverified_header w (bearer_token h)) as [header|e] eqn:Eh;
    cbn [result_bind].
  2: { destruct (auth_handler_rejects (A:=Json.value) e) as (d & -> & _). discriminate. }
  destruct (get_method header (py "kid") Json.Null) as [kid|e] eqn:Ek; cbn [result_bind].
  2: { destruct (auth_handler_rejects (A:=Json.value) e) as (d & -> & _). discriminate. }
  destruct (get_method jwks (py "keys") (Json.Arr [])) as [ks|e] eqn:Es; cbn [result_bind].
  2: { destruct (auth_handler_rejects (A:=Json.value) e) as (d & -> & _). discriminate. }
  destruct (iterate ks) as [keys|e] eqn:Ei; cbn [result_bind].
  2: { destruct (auth_handler_rejects (A:=Json.value) e) as (d & -> & _). discriminate. }
  destruct (find_signing_key (RSAAlgorithm_from_jwk w) keys kid) as [[key|]|e] eqn:Ef;
    cbn [result_bind].
  2: { discriminate. }
  2: { destruct (auth_handler_rejects (A:=Json.value) e) as (d & -> & _). discriminate. }
  destruct (jwt_decode w (bearer_token h) (Some key)) as [payload|e] eqn:Ed.
  2: { destruct (auth_handler_rejects (A:=Json.value) e) as (d & -> & _). discriminate. }
  destruct (user_identifier payload) as [u|e] eqn:Eu.
  2: { destruct (auth_handler_rejects (A:=Json.value) e) as (d & -> & _). discriminate. }
  intros [= <- <-].
  apply find_signing_key_some in Ef as (Hin & Hk & Hf).
  exists h, jwks, keys, header, kid, key, payload. rewrite Es. repeat split; auto.
Qed.

Lemma verified_identity_has_issuer_key_witness :
  let w := Sample.issuer_world Demo.no_reply in
  exists h jwks keys header kid key payload,
    headers_get (Demo.request Demo.bearer) (py "Authorization") = Some h
    /\ httpx_get_json w (jwks_url (py "clerk.example.com")) = Return jwks
    /\ (keys <- get_method jwks (py "keys") (Json.Arr []);; iterate keys) = Return keys
    /\ jwt_get_unverified_header w (bearer_token h) = Return header
    /\ get_method header (py "kid") Json.Null = Return kid
    /\ key ∈ keys
    /\ (exists key_kid, get_method key (py "kid") Json.Null = Return key_kid
                        /\ py_eq key_kid kid = true)
    /\ RSAAlgorithm_from_jwk w key = Return tt
    /\ jwt_decode w (bearer_token h) (Some key) = Return payload
    /\ user_identifier payload = Return (Json.Str (py "alice@example.com")).
Proof.
  exact (verified_identity_has_issuer_key (Sample.issuer_world Demo.no_reply)
           (Demo.request Demo.bearer) (py "clerk.example.com")
           (Json.Str (py "alice@example.com"))
           [JwksGet (py "https://clerk.example.com/.well-known/jwks.json")]
           eq_refl eq_refl eq_refl).
Defined.

End Issuer.

(** ** Verification switched off *)

Section Development.
Import PyStr Server Text Http.

(** X8: with no issuer configured and [REQUIRE_JWT_VERIFICATION] set to
    anything but ["true"], a bearer token is taken on its unverified
    payload: no outbound call is made, the identity is read from whatever
    the token decodes to without its signature being checked, and an
    expired or malformed token is refused with its own 401. *)
Theorem unverified_mode_trusts_payload (w : World) (request : Request) (h : str) :
  headers_get request (py "Authorization") = Some h ->
  startswith h (py "Bearer ") = true ->
  getenv_default w (py "CLERK_FRONTEND_API") [] = [] ->
  lower (getenv_default w (py "REQUIRE_JWT_VERIFICATION") (py "true")) <> py "true" ->
  (verify_authenticated_user w request).2 = []
  /\ (forall payload user,
        jwt_decode w (bearer_token h) None = Return payload ->
        user_identifier payload = Return user ->
        (verify_authenticated_user w request).1 = Return user)
  /\ (jwt_decode w (bearer_token h) None = Raise ExpiredSignatureError ->
      (verify_authenticated_user w request).1
      = Raise (HTTPException 401 (py "Token expired. Please sign in again.")))
  /\ (jwt_decode w (bearer_token h) None = Raise InvalidTokenError ->
      (verify_authenticated_user w request).1
      = Raise (HTTPException 401 (py "Invalid authentication token."))).
Proof.
  intros Hh Hb Hc Hr.
  rewrite (verify_authenticated_user_bearer _ _ _ Hh Hb).
  unfold verify_token, token_payload. rewrite Hc. cbn [truthy negb andb].
  unfold eqb. rewrite bool_decide_eq_false_2 by done.
  unfold lift, mbind, try_except, mret. cbn [app].
  repeat split.
  - destruct (jwt_decode w (bearer_token h) None) as [p|e].
    + destruct (user_identifier p) as [u|e]; [reflexivity|].
      destruct (auth_handler_rejects (A:=Json.value) e) as (d & -> & _). reflexivity.
    + destruct (auth_handler_rejects (A:=Json.value) e) as (d & -> & _). reflexivity.
  - intros payload user Hp Hu. rewrite Hp. cbn [app]. by rewrite Hu.
  - intros ->. reflexivity.
  - intros ->. reflexivity.
Qed.

Lemma unverified_mode_trusts_payload_witness :
  let w := Demo.world Demo.dev_env Demo.accept_all (Return Demo.alice)
             Demo.no_reply Demo.no_stream in
  verify_authenticated_user w (Demo.request Demo.bearer)
  = (Return (Json.Str (py "alice@example.com")), []).
Proof.
  cbv zeta.
  destruct (unverified_mode_trusts_payload
              (Demo.world Demo.dev_env Demo.accept_all (Return Demo.alice)
                 Demo.no_reply Demo.no_stream)
              (Demo.request Demo.bearer) (py "Bearer eyJhbGciOi.eyJzdWIiOi.c2ln")
              eq_refl eq_refl eq_refl ltac:(vm_compute; discriminate))
    as (Hc & Hu & _).
  apply injective_projections; cbn [fst snd];
    [exact (Hu Demo.alice (Json.Str (py "alice@example.com")) eq_refl eq_refl) | exact Hc].
Defined.

End Development.

(** ** The key and the window of the quota *)

Section QuotaKey.
Import PyStr Server Text Http.

Lemma verify_authenticated_user_header (w : World) (request request' : Request) :
  headers_get request' (py "Authorization") = headers_get request (py "Authorization") ->
  verify_authenticated_user w request' = verify_authenticated_user w request.
Proof. intros H. unfold verify_authenticated_user. by rewrite H. Qed.

Lemma headers_get_with_header (name name' value : str) (request : Request) :
  headers_get (with_header name value request) name' =
    if eqb (lower name') (lower name) then Some value else headers_get request name'.
Proof.
  unfold headers_get, with_header, eqb. cbn [headers]. case_bool_decide as E.
  - rewrite E. apply lookup_insert_eq.
  - by apply lookup_insert_ne.
Qed.

(** X9: the quota is counted under the [X-User-Email] header the client
    sends, not under the identity the verifier established.  Setting that
    header to another value leaves the verified identity as it was and
    moves the request to the counter of the new value: while fewer than
    seven requests are counted there, the request is answered as by a
    limiter that has counted nothing, however many requests the caller has
    made under other values of the header. *)
Theorem quota_is_keyed_by_email_header (w : World) (now : Z) (st : Limiter.storage)
    (request : Request) (email : str) (analyze_request : AnalyzeRequest.t)
    (fix_request : FixRequest.t) (user : Json.value) (calls : list call) :
  verify_authenticated_user w request = (Return user, calls) ->
  truthy email = true ->
  let request' := with_header (py "X-User-Email") email request in
  verify_authenticated_user w request' = (Return user, calls)
  /\ get_user_email request' = email
  /\ (Limiter.get now (email, py "/api/analyze") st < 7 ->
      (POST_api_analyze w now st request' analyze_request).1.1
      = (POST_api_analyze w now ∅ request analyze_request).1.1)
  /\ (Limiter.get now (email, py "/api/fix") st < 7 ->
      (POST_api_fix w now st request' fix_request).1.1
      = (POST_api_fix w now ∅ request fix_request).1.1).
Proof.
  intros Hv He request'.
  assert (Hv' : verify_authenticated_user w request' = (Return user, calls)).
  { rewrite <- Hv. apply verify_authenticated_user_header.
    unfold request'. rewrite headers_get_with_header. reflexivity. }
  assert (Hk : get_user_email request' = email).
  { unfold get_user_email, request'. rewrite headers_get_with_header.
    change (eqb _ _) with true. cbn. by rewrite He. }
  assert (Hx : headers_get request' (py "X-API-Key") = headers_get request (py "X-API-Key")).
  { unfold request'. rewrite headers_get_with_header. reflexivity. }
  assert (H0 : forall key, Limiter.get now key (∅ : Limiter.storage) = 0).
  { intros key. unfold Limiter.get. by rewrite lookup_empty. }
  split; [done|]. split; [done|].
  unfold POST_api_analyze, POST_api_fix.
  rewrite (protected_route_limit (py "/api/analyze") _ _ _ _ st _ _ _ eq_refl Hv').
  rewrite (protected_route_limit (py "/api/fix") _ _ _ _ st _ _ _ eq_refl Hv').
  rewrite (protected_route_limit (py "/api/analyze") _ _ _ _ ∅ _ _ _ eq_refl Hv).
  rewrite (protected_route_limit (py "/api/fix") _ _ _ _ ∅ _ _ _ eq_refl Hv).
  rewrite !H0, Hk, Hx. cbn [Z.ltb Z.compare].
  split; intros H; apply Z.ltb_lt in H; rewrite H; reflexivity.
Qed.

Lemma quota_is_keyed_by_email_header_witness :
  let w := Demo.world Demo.dev_env Demo.accept_all (Return Demo.alice)
             (Return [Some Sample.report_text]) Demo.no_stream in
  let request := Demo.request Demo.bearer in
  let analyze_request := {| AnalyzeRequest.code := py "import os" |} in
  let st7 := (Demo.repeat_route
                (fun st => POST_api_analyze w 0 st request analyze_request) 7 ∅).2 in
  let request' := with_header (py "X-User-Email") (py "bob@example.com") request in
  (POST_api_analyze w 10 st7 request analyze_request).1.1 = TooManyRequests
  /\ verify_authenticated_user w request' = (Return (Json.Str (py "alice@example.com")), [])
  /\ (POST_api_analyze w 10 st7 request' analyze_request).1.1 = Report Sample.report.
Proof.
  cbv zeta.
  set (w := Demo.world Demo.dev_env Demo.accept_all (Return Demo.alice)
              (Return [Some Sample.report_text]) Demo.no_stream).
  set (a := {| AnalyzeRequest.code := py "import os" |}).
  set (st7 := (Demo.repeat_route _ 7 ∅).2).
  destruct (quota_is_keyed_by_email_header w 10 st7 (Demo.request Demo.bearer)
              (py "bob@example.com") a
              {| FixRequest.code := []; FixRequest.issues := [] |}
              (Json.Str (py "alice@example.com")) [] eq_refl eq_refl)
    as (Hv & _ & Ha & _).
  split; [vm_compute; reflexivity|]. split; [exact Hv|].
  rewrite Ha; [vm_compute; reflexivity | vm_compute; reflexivity].
Defined.

(** X10: the window of the quota is fixed by the first request counted in
    it.  A request that finds no live counter under its key starts one
    that expires 86,400 seconds later; requests within the window add to
    the counter and leave its expiry where it is; from the expiry on the
    counter reads zero again. *)
Theorem quota_window_lasts_one_day (w : World) (now : Z) (st : Limiter.storage)
    (request : Request) (analyze_request : AnalyzeRequest.t)
    (user : Json.value) (calls : list call) :
  verify_authenticated_user w request = (Return user, calls) ->
  (forall window, st !! (get_user_email request, py "/api/analyze") = Some window ->
                  Limiter.expires window <= now) ->
  let key := (get_user_email request, py "/api/analyze") in
  let st' := (POST_api_analyze w now st request analyze_request).1.2 in
  st' !! key = Some {| Limiter.hits := 1; Limiter.expires := now + 86400 |}
  /\ (forall later, later < now + 86400 -> Limiter.get later key st' = 1)
  /\ (forall later, now + 86400 <= later -> Limiter.get later key st' = 0)
  /\ (forall later request' analyze_request',
        later < now + 86400 ->
        get_user_email request' = get_user_email request ->
        verify_authenticated_user w request' = (Return user, calls) ->
        (POST_api_analyze w later st' request' analyze_request').1.2 !! key
        = Some {| Limiter.hits := 2; Limiter.expires := now + 86400 |}).
Proof.
  intros Hv Hfresh key st'.
  assert (E : st' !! key = Some {| Limiter.hits := 1; Limiter.expires := now + 86400 |}).
  { unfold st', POST_api_analyze.
    rewrite (protected_route_storage (py "/api/analyze") _ _ _ _ _ _ _ _ eq_refl Hv).
    unfold Limiter.incr. cbn [snd]. fold key. rewrite lookup_insert_eq.
    destruct (st !! key) as [window|] eqn:Ek; [|reflexivity].
    apply Hfresh in Ek. apply Z.leb_le in Ek. by rewrite Ek. }
  split; [done|]. repeat split.
  - intros later Hl. unfold Limiter.get. rewrite E. cbn.
    destruct (Z.leb_spec (now + 86400) later); [lia|done].
  - intros later Hl. unfold Limiter.get. rewrite E. cbn.
    destruct (Z.leb_spec (now + 86400) later); [done|lia].
  - intros later request' a' Hl Hk Hv'. unfold POST_api_analyze.
    rewrite (protected_route_storage (py "/api/analyze") _ _ _ _ _ _ _ _ eq_refl Hv').
    unfold Limiter.incr. cbn [snd]. rewrite Hk. fold key. rewrite lookup_insert_eq, E.
    cbn [Limiter.expires Limiter.hits].
    destruct (Z.leb_spec (now + 86400) later); [lia|done].
Qed.

Lemma quota_window_lasts_one_day_witness :
  let w := Demo.world Demo.dev_env Demo.accept_all (Return Demo.alice)
             (Return [Some Sample.report_text]) Demo.no_stream in
  let request := Demo.request Demo.bearer in
  let analyze_request := {| AnalyzeRequest.code := py "import os" |} in
  let key := (py "alice@example.com", py "/api/analyze") in
  let st' := (POST_api_analyze w 1000 ∅ request analyze_request).1.2 in
  Limiter.get 87399 key st' = 1 /\ Limiter.get 87400 key st' = 0.
Proof.
  cbv zeta.
  set (w := Demo.world Demo.dev_env Demo.accept_all (Return Demo.alice)
              (Return [Some Sample.report_text]) Demo.no_stream).
  set (a := {| AnalyzeRequest.code := py "import os" |}).
  assert (Hfresh : forall window,
             (∅ : Limiter.storage) !! (get_user_email (Demo.request Demo.bearer),
                                       py "/api/analyze") = Some window ->
             Limiter.expires window <= 1000).
  { intros window H. rewrite lookup_empty in H. discriminate. }
  destruct (quota_window_lasts_one_day w 1000 ∅ (Demo.request Demo.bearer) a
              (Json.Str (py "alice@example.com")) [] eq_refl Hfresh)
    as (_ & H1 & H2 & _).
  split; [apply (H1 87399); reflexivity | apply (H2 87400); discriminate].
Defined.

End QuotaKey.

(** ** The analysis pipeline *)

Section AnalyzePipeline.
Import PyStr Server Text Http.

(** The steps of [analyze_code] in their order, each failure passed
    through the [except] clauses. *)
Lemma analyze_code_steps (w : World) (analyze_request : AnalyzeRequest.t)
    (x_api_key : option str) :
  analyze_code w analyze_request x_api_key =
    match verify_api_key w x_api_key with
    | Raise e => (Raise (masked w e), [])
    | Return _ =>
        match validate_request w analyze_request with
        | Raise e => (Raise (masked w e), [])
        | Return _ =>
            match check_api_keys w with
            | Raise e => (Raise (masked w e), [])
            | Return _ =>
                match run_security_analysis_with_mcp w
                        (AnalyzeRequest.code analyze_request) with
                | (Return report, calls) => (Return report, calls)
                | (Raise e, calls) => (Raise (masked w e), calls)
                end
            end
        end
    end.
Proof.
  unfold analyze_code, try_except, mbind, lift, mraise, masked.
  destruct (verify_api_key w x_api_key) as [?|e]; [|by destruct e].
  destruct (validate_request w analyze_request) as [?|e]; [|by destruct e].
  destruct (check_api_keys w) as [?|e]; [|by destruct e].
  destruct (run_security_analysis_with_mcp w _) as [[?|e] l]; cbn [app];
    [reflexivity|].
  destruct e; cbn; by rewrite app_nil_r.
Qed.

Lemma run_security_analysis_calls (w : World) (code : str) :
  (run_security_analysis_with_mcp w code).2 =
    match AsyncOpenAI w (getenv w (py "GROQ_API_KEY")) with
    | Return _ => [ChatCompletionsCreate (analysis_request code)]
    | Raise _ => []
    end.
Proof.
  unfold run_security_analysis_with_mcp, mbind, lift, logged.
  destruct (AsyncOpenAI w _); [|reflexivity].
  destruct (chat_completions_create w _) as [choices|]; [|reflexivity].
  reflexivity.
Qed.


Lemma verify_api_key_true (w : World) (x_api_key : option str) (b : bool) :
  verify_api_key w x_api_key = Return b -> b = true.
Proof.
  unfold verify_api_key.
  repeat match goal with
         | |- context [if ?c then _ else _] => destruct c
         | |- context [match ?r with Some _ => _ | None => _ end] => destruct r
         end; congruence.
Qed.

(** X11: the model is called for an analysis only after every check has
    passed.  If a request to [/api/analyze] makes a call to the model,
    then the caller was authenticated and within the quota, the API-key
    check, the request validator and the credential check all passed, and
    the call is the one analysis request for the submitted code. *)
Theorem analyze_gateway_call_is_guarded (w : World) (now : Z) (st : Limiter.storage)
    (request : Request) (analyze_request : AnalyzeRequest.t) :
  gateway_calls (POST_api_analyze w now st request analyze_request).2 <> [] ->
  (exists user, (verify_authenticated_user w request).1 = Return user)
  /\ Limiter.get now (get_user_email request, py "/api/analyze") st < 7
  /\ verify_api_key w (headers_get request (py "X-API-Key")) = Return true
  /\ validate_request w analyze_request = Return tt
  /\ check_api_keys w = Return tt
  /\ gateway_calls (POST_api_analyze w now st request analyze_request).2
     = [analysis_request (AnalyzeRequest.code analyze_request)].
Proof.
  unfold POST_api_analyze.
  pose proof (verify_authenticated_user_calls w request) as Hc.
  destruct (verify_authenticated_user w request) as [[user|e] calls] eqn:E.
  2: { rewrite (protected_route_unauthenticated _ _ _ _ _ _ _ _ _ E). done. }
  rewrite (protected_route_limit (py "/api/analyze") _ _ _ _ _ _ _ _ eq_refl E).
  cbn [snd] in Hc.
  destruct (Z.ltb_spec (Limiter.get now (get_user_email request, py "/api/analyze") st) 7);
    [|done].
  cbn [snd]. unfold gateway_calls in *. rewrite omap_app, Hc, app_nil_l.
  rewrite analyze_code_steps.
  pose proof (verify_api_key_true w (headers_get request (py "X-API-Key"))) as Hb.
  destruct (verify_api_key w _) as [b|]; [|intros H'; by elim H'].
  rewrite (Hb b eq_refl).
  destruct (validate_request w _) as [[]|]; [|intros H'; by elim H'].
  destruct (check_api_keys w) as [[]|]; [|intros H'; by elim H'].
  pose proof (run_security_analysis_calls w (AnalyzeRequest.code analyze_request)) as Hr.
  destruct (run_security_analysis_with_mcp w _) as [[?|?] l]; cbn [snd] in *; subst l;
    (destruct (AsyncOpenAI w _); [|intros H'; by elim H']); intros _; repeat split; eauto.
Qed.

Lemma analyze_gateway_call_is_guarded_witness :
  let w := Demo.world Demo.dev_env Demo.accept_all (Return Demo.alice)
             (Return [Some Sample.report_text]) Demo.no_stream in
  let analyze_request := {| AnalyzeRequest.code := py "import os" |} in
  validate_request w analyze_request = Return tt
  /\ gateway_calls (POST_api_analyze w 0 ∅ (Demo.request Demo.bearer) analyze_request).2
     = [analysis_request (py "import os")].
Proof.
  cbv zeta.
  set (w := Demo.world Demo.dev_env Demo.accept_all (Return Demo.alice)
              (Return [Some Sample.report_text]) Demo.no_stream).
  set (a := {| AnalyzeRequest.code := py "import os" |}).
  assert (H : gateway_calls (POST_api_analyze w 0 ∅ (Demo.request Demo.bearer) a).2 <> [])
    by (vm_compute; discriminate).
  destruct (analyze_gateway_call_is_guarded w 0 ∅ (Demo.request Demo.bearer) a H)
    as (_ & _ & _ & Hq & _ & Hg).
  split; [exact Hq | exact Hg].
Defined.






End AnalyzePipeline.

Section AnalyzeOutcomes.
Import PyStr Server Text Http.

(** X13: a failure of the analysis itself is not shown to the client.
    For a request that has passed every check, an exception raised while
    the model is called or its reply is read is answered 500 with the
    detail ["Analysis failed. Contact support with ID: "] and the first
    eight characters of the request's UUID, whatever the exception was;
    only an [HTTPException] would pass as it is. *)
Theorem analysis_failure_is_masked (w : World) (now : Z) (st : Limiter.storage)
    (request : Request) (analyze_request : AnalyzeRequest.t)
    (user : Json.value) (calls : list call) (e : exn) :
  verify_authenticated_user w request = (Return user, calls) ->
  Limiter.get now (get_user_email request, py "/api/analyze") st < 7 ->
  verify_api_key w (headers_get request (py "X-API-Key")) = Return true ->
  validate_request w analyze_request = Return tt ->
  check_api_keys w = Return tt ->
  (run_security_analysis_with_mcp w (AnalyzeRequest.code analyze_request)).1 = Raise e ->
  (POST_api_analyze w now st request analyze_request).1.1 = exception_response (masked w e)
  /\ (masked w e = e
      \/ masked w e = HTTPException 500
           (py "Analysis failed. Contact support with ID: " ++ take 8 (uuid4 w)))
  /\ ((forall status detail, e <> HTTPException status detail) -> e <> RateLimitExceeded ->
      (POST_api_analyze w now st request analyze_request).1.1
      = HTTPError 500 (py "Analysis failed. Contact support with ID: " ++ take 8 (uuid4 w))).
Proof.
  intros Hv Hl Hk Hq Hc Hr. unfold POST_api_analyze.
  rewrite (protected_route_limit (py "/api/analyze") _ _ _ _ _ _ _ _ eq_refl Hv).
  apply Z.ltb_lt in Hl. rewrite Hl. cbn [fst].
  rewrite analyze_code_steps, Hk, Hq, Hc.
  destruct (run_security_analysis_with_mcp w _) as [r l]. cbn [fst] in Hr. subst r.
  cbn [fst]. repeat split.
  - destruct e; auto.
  - intros H1 H2. destruct e as [s d| | | | | | |]; try reflexivity;
      [by destruct (H1 s d)|done].
Qed.

Lemma analysis_failure_is_masked_witness :
  let w := Demo.world Demo.dev_env Demo.accept_all (Return Demo.alice)
             Demo.no_reply Demo.no_stream in
  (POST_api_analyze w 0 ∅ (Demo.request Demo.bearer)
     {| AnalyzeRequest.code := py "import os" |}).1.1
  = HTTPError 500 (py "Analysis failed. Contact support with ID: 123e4567").
Proof.
  cbv zeta.
  assert (Hl : Limiter.get 0 (get_user_email (Demo.request Demo.bearer), py "/api/analyze")
                 (∅ : Limiter.storage) < 7) by (vm_compute; reflexivity).
  destruct (analysis_failure_is_masked
              (Demo.world Demo.dev_env Demo.accept_all (Return Demo.alice)
                 Demo.no_reply Demo.no_stream)
              0 ∅ (Demo.request Demo.bearer) {| AnalyzeRequest.code := py "import os" |}
              (Json.Str (py "alice@example.com")) [] (Error (py "APIConnectionError"))
              eq_refl Hl eq_refl eq_refl eq_refl eq_refl)
    as (_ & _ & H).
  apply H; discriminate.
Defined.

(** X14: when the credential of the model ([GROQ_API_KEY]) is unset or
    empty, a request to [/api/analyze] that has passed authentication, the
    quota, the API-key check and the validator is answered 500 with
    ["Service temporarily unavailable"], and the model is not called. *)
Theorem missing_model_credential_answers_500 (w : World) (now : Z) (st : Limiter.storage)
    (request : Request) (analyze_request : AnalyzeRequest.t)
    (user : Json.value) (calls : list call) :
  verify_authenticated_user w request = (Return user, calls) ->
  Limiter.get now (get_user_email request, py "/api/analyze") st < 7 ->
  verify_api_key w (headers_get request (py "X-API-Key")) = Return true ->
  validate_request w analyze_request = Return tt ->
  default [] (getenv w (py "GROQ_API_KEY")) = [] ->
  (POST_api_analyze w now st request analyze_request).1.1
  = HTTPError 500 (py "Service temporarily unavailable")
  /\ gateway_calls (POST_api_analyze w now st request analyze_request).2 = [].
Proof.
  intros Hv Hl Hk Hq Hg. unfold POST_api_analyze.
  pose proof (verify_authenticated_user_calls w request) as Hc. rewrite Hv in Hc.
  rewrite (protected_route_limit (py "/api/analyze") _ _ _ _ _ _ _ _ eq_refl Hv).
  apply Z.ltb_lt in Hl. rewrite Hl. cbn [fst snd] in *.
  rewrite analyze_code_steps, Hk, Hq.
  assert (E : check_api_keys w
              = Raise (HTTPException 500 (py "Service temporarily unavailable"))).
  { unfold check_api_keys. destruct (getenv w (py "GROQ_API_KEY")) as [k|]; [|done].
    cbn in Hg. by subst k. }
  rewrite E. cbn [fst snd masked exception_response]. split; [done|].
  unfold gateway_calls in *. by rewrite omap_app, Hc.
Qed.

Lemma missing_model_credential_answers_500_witness :
  let w := Demo.world [(py "REQUIRE_JWT_VERIFICATION", py "false")] Demo.accept_all
             (Return Demo.alice) (Return [Some Sample.report_text]) Demo.no_stream in
  let analyze_request := {| AnalyzeRequest.code := py "import os" |} in
  (POST_api_analyze w 0 ∅ (Demo.request Demo.bearer) analyze_request).1.1
  = HTTPError 500 (py "Service temporarily unavailable")
  /\ gateway_calls (POST_api_analyze w 0 ∅ (Demo.request Demo.bearer) analyze_request).2 = [].
Proof.
  assert (Hl : Limiter.get 0 (get_user_email (Demo.request Demo.bearer), py "/api/analyze")
                 (∅ : Limiter.storage) < 7) by (vm_compute; reflexivity).
  exact (missing_model_credential_answers_500
           (Demo.world [(py "REQUIRE_JWT_VERIFICATION", py "false")] Demo.accept_all
              (Return Demo.alice) (Return [Some Sample.report_text]) Demo.no_stream)
           0 ∅ (Demo.request Demo.bearer) {| AnalyzeRequest.code := py "import os" |}
           (Json.Str (py "alice@example.com")) [] eq_refl Hl eq_refl eq_refl eq_refl).
Defined.

(** X15: the analysis from end to end.  For a request whose body decodes
    to a valid analysis request and that passes every check, when the
    first choice of the model's reply is a JSON document of the report's
    shape and the report can be serialised, [/api/analyze] answers with
    that report, counts the request, and has made one call to the model:
    the fixed instructions as the system message and the submitted code,
    unchanged, after the line that asks for the analysis as the user
    message. *)
Theorem analyze_end_to_end (w : World) (now : Z) (st : Limiter.storage)
    (request : Request) (body_text : str) (body_value : Json.value)
    (analyze_request : AnalyzeRequest.t)
    (user : Json.value) (calls : list call) (text : str) (others : list (option str))
    (data : Json.value) (report : SecurityReport.t) :
  Json.loads (limits w) body_text = Return body_value ->
  Model.AnalyzeRequest_validate (pydantic w) body_value = Return analyze_request ->
  verify_authenticated_user w request = (Return user, calls) ->
  Limiter.get now (get_user_email request, py "/api/analyze") st < 7 ->
  verify_api_key w (headers_get request (py "X-API-Key")) = Return true ->
  validate_request w analyze_request = Return tt ->
  check_api_keys w = Return tt ->
  AsyncOpenAI w (getenv w (py "GROQ_API_KEY")) = Return tt ->
  chat_completions_create w (analysis_request (AnalyzeRequest.code analyze_request))
    = Return (Some text :: others) ->
  Json.loads (limits w) text = Return data ->
  Model.SecurityReport_init (pydantic w) data = Return report ->
  serialize_response w report = Return tt ->
  analyze_endpoint w now st request (JsonBody body_text) =
    (Report report,
     (Limiter.incr now (get_user_email request, py "/api/analyze") st).2,
     calls ++ [ChatCompletionsCreate
                 (analysis_request (AnalyzeRequest.code analyze_request))])
  /\ snd <$> messages (analysis_request (AnalyzeRequest.code analyze_request))
     = [SECURITY_RESEARCHER_INSTRUCTIONS;
        py "Analyze this Python code for security vulnerabilities:" ++ nl ++ nl
        ++ AnalyzeRequest.code analyze_request].
Proof.
  intros Hb Hbv Hv Hl Hk Hq Hc Ha Hr Hd Hi Hs. split; [|reflexivity].
  unfold analyze_endpoint. rewrite (endpoint_valid _ _ _ _ _ _ _ _ _ _ Hb Hbv Hv).
  unfold POST_api_analyze.
  rewrite (protected_route_limit (py "/api/analyze") _ _ _ _ _ _ _ _ eq_refl Hv).
  apply Z.ltb_lt in Hl. rewrite Hl.
  rewrite analyze_code_steps, Hk, Hq, Hc.
  unfold run_security_analysis_with_mcp, mbind, lift, logged. rewrite Ha, Hr.
  cbn [app]. rewrite (normalize_response_direct _ _ _ _ Hd), Hi.
  cbn [fst snd send]. by rewrite Hs.
Qed.

Lemma analyze_end_to_end_witness :
  let w := Demo.world Demo.dev_env Demo.accept_all (Return Demo.alice)
             (Return [Some Sample.report_text]) Demo.no_stream in
  let b := JsonBody (lit "{'code': 'import os'}") in
  (analyze_endpoint w 0 ∅ (Demo.request Demo.bearer) b).1.1 = Report Sample.report
  /\ (analyze_endpoint w 0 ∅ (Demo.request Demo.bearer) b).2
     = [ChatCompletionsCreate (analysis_request (py "import os"))].
Proof.
  cbv zeta.
  assert (Hl : Limiter.get 0 (get_user_email (Demo.request Demo.bearer), py "/api/analyze")
                 (∅ : Limiter.storage) < 7) by (vm_compute; reflexivity).
  destruct (analyze_end_to_end
              (Demo.world Demo.dev_env Demo.accept_all (Return Demo.alice)
                 (Return [Some Sample.report_text]) Demo.no_stream)
              0 ∅ (Demo.request Demo.bearer) (lit "{'code': 'import os'}")
              (Json.Obj [(py "code", Json.Str (py "import os"))])
              {| AnalyzeRequest.code := py "import os" |}
              (Json.Str (py "alice@example.com")) [] Sample.report_text []
              (Json.Obj [(py "summary", Json.Str (py "ok")); (py "issues", Json.Arr [])])
              Sample.report
              ltac:(vm_compute; reflexivity) eq_refl
              eq_refl Hl eq_refl eq_refl eq_refl eq_refl eq_refl
              ltac:(vm_compute; reflexivity) eq_refl eq_refl)
    as (H & _).
  rewrite H. split; reflexivity.
Defined.

End AnalyzeOutcomes.

(** ** Replies of the wrong shape *)

Section ReplyShape.
Import PyStr Server Text Http.

Lemma validate_list_raises {A} (f : Json.value -> result A) (l : list Json.value) (e : exn) :
  Model.validate_list f l = Raise e -> e = ValidationError.
Proof.
  destruct l as [|v l]; [discriminate|]. cbn.
  destruct (f v); [destruct (Model.validate_list f l)|]; congruence.
Qed.

Lemma str_field_raises (px : Pydantic) (key : str) (d : list (str * Json.value)) (e : exn) :
  Model.str_field px key d = Raise e -> e = ValidationError.
Proof.
  unfold Model.str_field.
  destruct (Json.dict_get key d) as [[]|]; try destruct (lax_str px _); congruence.
Qed.

(** A document that is not an object cannot be spread into the report's
    constructor ([TypeError]); an object of the wrong shape fails its
    validation. *)
Lemma SecurityReport_init_raises (px : Pydantic) (data : Json.value) (e : exn) :
  Model.SecurityReport_init px data = Raise e ->
  match data with
  | Json.Obj _ => e = ValidationError
  | _ => e = TypeError
  end.
Proof.
  destruct data as [| | | | |d]; try (cbn; congruence).
  unfold Model.SecurityReport_init.
  destruct (Model.str_field px (py "summary") d) eqn:Es; cbn [result_bind].
  2: { intros [= <-]. by apply str_field_raises in Es. }
  destruct (Json.dict_get (py "issues") d) as [[| | | |l|]|]; cbn [result_bind];
    try congruence.
  destruct (Model.validate_list _ l) eqn:El; cbn [result_bind]; [discriminate|].
  intros [= <-]. by apply validate_list_raises in El.
Qed.

(** X16: a reply that is valid JSON but not a report is not degraded, it
    fails.  When the reply decodes and no report can be built from it (it
    is not an object, which raises [TypeError], or an object that fails
    validation), [/api/analyze] answers 500 with the request's ID, and the
    request has been counted against the quota. *)
Theorem reply_of_wrong_shape_answers_500 (w : World) (now : Z) (st : Limiter.storage)
    (request : Request) (analyze_request : AnalyzeRequest.t)
    (user : Json.value) (calls : list call) (text : str) (others : list (option str))
    (data : Json.value) (e : exn) :
  verify_authenticated_user w request = (Return user, calls) ->
  Limiter.get now (get_user_email request, py "/api/analyze") st < 7 ->
  verify_api_key w (headers_get request (py "X-API-Key")) = Return true ->
  validate_request w analyze_request = Return tt ->
  check_api_keys w = Return tt ->
  AsyncOpenAI w (getenv w (py "GROQ_API_KEY")) = Return tt ->
  chat_completions_create w (analysis_request (AnalyzeRequest.code analyze_request))
    = Return (Some text :: others) ->
  Json.loads (limits w) text = Return data ->
  Model.SecurityReport_init (pydantic w) data = Raise e ->
  match data with
  | Json.Obj _ => e = ValidationError
  | _ => e = TypeError
  end
  /\ (POST_api_analyze w now st request analyze_request).1.1
     = HTTPError 500 (py "Analysis failed. Contact support with ID: " ++ take 8 (uuid4 w))
  /\ Limiter.get now (get_user_email request, py "/api/analyze")
       (POST_api_analyze w now st request analyze_request).1.2
     = Limiter.get now (get_user_email request, py "/api/analyze") st + 1.
Proof.
  intros Hv Hl Hk Hq Hc Ha Hr Hd Hi.
  pose proof (SecurityReport_init_raises _ _ _ Hi) as He. split; [done|].
  unfold POST_api_analyze.
  rewrite (protected_route_limit (py "/api/analyze") _ _ _ _ _ _ _ _ eq_refl Hv).
  apply Z.ltb_lt in Hl. rewrite Hl. cbn [fst snd].
  split; [|apply limiter_get_incr_same].
  rewrite analyze_code_steps, Hk, Hq, Hc.
  unfold run_security_analysis_with_mcp, mbind, lift, logged. rewrite Ha, Hr.
  cbn [app]. rewrite (normalize_response_direct _ _ _ _ Hd), Hi. cbn [fst].
  destruct data; subst e; reflexivity.
Qed.

Lemma reply_of_wrong_shape_answers_500_witness :
  let huge :=
    lit "{'summary': 'ok', 'issues': [{'title': 't', 'description': 'd', 'code': 'c', 'fix': 'f', 'cvss_score': 1"
    ++ repeat 48%N 400 ++ lit ", 'severity': 'high'}]}" in
  let world reply := Demo.world Demo.dev_env Demo.accept_all (Return Demo.alice)
                       (Return [Some reply]) Demo.no_stream in
  (POST_api_analyze (world (py "[1, 2]")) 0 ∅ (Demo.request Demo.bearer)
     {| AnalyzeRequest.code := py "import os" |}).1.1
  = HTTPError 500 (py "Analysis failed. Contact support with ID: 123e4567")
  /\ (POST_api_analyze (world huge) 0 ∅ (Demo.request Demo.bearer)
        {| AnalyzeRequest.code := py "import os" |}).1.1
     = HTTPError 500 (py "Analysis failed. Contact support with ID: 123e4567").
Proof.
  cbv zeta.
  assert (Hl : Limiter.get 0 (get_user_email (Demo.request Demo.bearer), py "/api/analyze")
                 (∅ : Limiter.storage) < 7) by (vm_compute; reflexivity).
  split.
  - destruct (reply_of_wrong_shape_answers_500
                (Demo.world Demo.dev_env Demo.accept_all (Return Demo.alice)
                   (Return [Some (py "[1, 2]")]) Demo.no_stream)
                0 ∅ (Demo.request Demo.bearer) {| AnalyzeRequest.code := py "import os" |}
                (Json.Str (py "alice@example.com")) [] (py "[1, 2]") []
                (Json.Arr [Json.Num (Json.Int 1); Json.Num (Json.Int 2)]) TypeError
                eq_refl Hl eq_refl eq_refl eq_refl eq_refl eq_refl
                ltac:(vm_compute; reflexivity) eq_refl)
      as (_ & H & _).
    exact H.
  - set (huge := lit "{'summary': 'ok', 'issues': [{'title': 't', 'description': 'd', 'code': 'c', 'fix': 'f', 'cvss_score': 1"
                 ++ repeat 48%N 400 ++ lit ", 'severity': 'high'}]}").
    destruct (reply_of_wrong_shape_answers_500
                (Demo.world Demo.dev_env Demo.accept_all (Return Demo.alice)
                   (Return [Some huge]) Demo.no_stream)
                0 ∅ (Demo.request Demo.bearer) {| AnalyzeRequest.code := py "import os" |}
                (Json.Str (py "alice@example.com")) [] huge []
                (Json.Obj
                   [(py "summary", Json.Str (py "ok"));
                    (py "issues",
                     Json.Arr
                       [Json.Obj
                          [(py "title", Json.Str (py "t"));
                           (py "description", Json.Str (py "d"));
                           (py "code", Json.Str (py "c"));
                           (py "fix", Json.Str (py "f"));
                           (py "cvss_score", Json.Num (Json.Int (10 ^ 400)));
                           (py "severity", Json.Str (py "high"))]])])
                ValidationError
                eq_refl Hl eq_refl eq_refl eq_refl eq_refl eq_refl
                ltac:(vm_compute; reflexivity) ltac:(vm_compute; reflexivity))
      as (_ & H & _).
    exact H.
Defined.

End ReplyShape.

(** ** What the fix prompt reads *)

Section FixPrompt.
Import PyStr Server Text Http.

Lemma imap_ext_fields {A B C} (f g : nat -> A -> B) (p : A -> C) (l1 l2 : list A) :
  (forall i x y, p x = p y -> f i x = g i y) ->
  p <$> l1 = p <$> l2 -> imap f l1 = imap g l2.
Proof.
  revert f g l2. induction l1 as [|x l1 IH]; intros f g [|y l2] H E; try discriminate;
    [reflexivity|].
  injection E as Ex El. cbn [imap]. f_equal; [by apply H|].
  apply IH; [|done]. intros i a b. apply H.
Qed.

(** X17: of a fix request, only the code and the titles and descriptions
    of the issues reach the model.  Two requests that agree on those send
    the same request upstream and get the same events, whatever the
    [code], [fix], [cvss_score] and [severity] of their issues are. *)
Theorem fix_prompt_reads_titles_and_descriptions (w : World) (r1 r2 : FixRequest.t) :
  FixRequest.code r1 = FixRequest.code r2 ->
  (fun issue => (SecurityIssue.title issue, SecurityIssue.description issue))
    <$> FixRequest.issues r1
  = (fun issue => (SecurityIssue.title issue, SecurityIssue.description issue))
    <$> FixRequest.issues r2 ->
  fix_chat_request r1 = fix_chat_request r2
  /\ generate_fix_stream w r1 = generate_fix_stream w r2.
Proof.
  intros Hc Hi.
  assert (E : fix_chat_request r1 = fix_chat_request r2).
  { unfold fix_chat_request, fix_prompt, issues_text. rewrite Hc.
    set (line := fun (i : nat) issue =>
                   str_of_nat (i + 1) ++ py ". " ++ SecurityIssue.title issue
                   ++ py ": " ++ SecurityIssue.description issue).
    assert (Hline : forall i x y,
               (SecurityIssue.title x, SecurityIssue.description x)
               = (SecurityIssue.title y, SecurityIssue.description y) ->
               line i x = line i y).
    { intros i x y [= Ht Hd]. unfold line. by rewrite Ht, Hd. }
    by rewrite (imap_ext_fields line line _ _ _ Hline Hi). }
  split; [done|]. unfold generate_fix_stream. by rewrite E.
Qed.

Lemma fix_prompt_reads_titles_and_descriptions_witness :
  let issue severity score :=
    {| SecurityIssue.title := py "Command Injection";
       SecurityIssue.description := py "User input reaches os.system.";
       SecurityIssue.code := py "os.system(cmd)";
       SecurityIssue.fix_ := py "Use subprocess.";
       SecurityIssue.cvss_score := score;
       SecurityIssue.severity := severity |} in
  fix_chat_request {| FixRequest.code := py "os.system(cmd)";
                      FixRequest.issues := [issue (py "high") (Json.Float false 85 (-1))] |}
  = fix_chat_request {| FixRequest.code := py "os.system(cmd)";
                        FixRequest.issues := [issue (py "low") (Json.Int 1)] |}.
Proof.
  cbv zeta.
  refine (proj1 (fix_prompt_reads_titles_and_descriptions
                   (Demo.world Demo.dev_env Demo.accept_all (Return Demo.alice)
                      Demo.no_reply Demo.no_stream) _ _ eq_refl eq_refl)).
Defined.

End FixPrompt.

(** ** The events on the wire *)

Section Encoding.
Import PyStr Json Server Http.

Lemma below_forallb (P : N -> bool) (k : nat) :
  forallb P (N.of_nat <$> seq 0 k) = true -> forall n, (n < N.of_nat k)%N -> P n = true.
Proof.
  intros H n Hn. rewrite forallb_forall in H. apply H.
  apply list_elem_of_In, list_elem_of_fmap. exists (N.to_nat n). split; [lia|].
  apply elem_of_seq. split; lia.
Qed.

Lemma hex_char_printable (d : N) : (d < 16)%N -> printable (hex_char d) = true.
Proof. revert d. apply (below_forallb (fun d => printable (hex_char d)) 16). reflexivity. Qed.

Lemma escape_u_printable (n : N) : forallb printable (escape_u n) = true.
Proof.
  unfold escape_u. cbn [app forallb].
  rewrite !hex_char_printable by (apply N.mod_lt; discriminate). reflexivity.
Qed.

Lemma escape_char_printable (c : char) : forallb printable (escape_char c) = true.
Proof.
  unfold escape_char.
  destruct (c =? 34)%N; [reflexivity|]. destruct (c =? 92)%N; [reflexivity|].
  destruct ((32 <=? c) && (c <=? 126))%N eqn:E.
  { cbn. unfold printable. by rewrite E. }
  repeat match goal with |- context [if ?b then _ else _] => destruct b end;
    rewrite ?forallb_app, ?escape_u_printable; reflexivity.
Qed.

Lemma encode_basestring_ascii_printable (s : str) :
  forallb printable (encode_basestring_ascii s) = true.
Proof.
  unfold encode_basestring_ascii. rewrite !forallb_app.
  assert (H : forallb printable (concat (escape_char <$> s)) = true).
  { induction s as [|c s IH]; [reflexivity|]. cbn [fmap list_fmap concat].
    by rewrite forallb_app, escape_char_printable, IH. }
  unfold str, char in *. rewrite H. reflexivity.
Qed.

Lemma dumps_member_printable (key s : str) :
  forallb printable (dumps_member key s) = true.
Proof.
  unfold dumps_member.
  rewrite !forallb_app, !encode_basestring_ascii_printable. reflexivity.
Qed.

Lemma hex_digit_hex_char (d : N) : (d < 16)%N -> hex_digit (hex_char d) = Some d.
Proof.
  intros H. apply (bool_decide_eq_true_1 (hex_digit (hex_char d) = Some d)). revert d H.
  apply (below_forallb (fun d => bool_decide (hex_digit (hex_char d) = Some d)) 16).
  reflexivity.
Qed.

Lemma hex_digits_value (n : N) :
  (n < 65536)%N ->
  ((((N.shiftr n 12 mod 16) * 16 + N.shiftr n 8 mod 16) * 16
    + N.shiftr n 4 mod 16) * 16 + n mod 16 = n)%N.
Proof.
  intros H. rewrite !N.shiftr_div_pow2.
  change (2 ^ 12)%N with (16 * 16 * 16)%N. change (2 ^ 8)%N with (16 * 16)%N.
  change (2 ^ 4)%N with 16%N. rewrite <- !N.Div0.div_div.
  set (a := (n / 16)%N). set (b := (a / 16)%N). set (c := (b / 16)%N).
  pose proof (N.div_mod n 16 ltac:(discriminate)) as H1.
  pose proof (N.div_mod a 16 ltac:(discriminate)) as H2.
  pose proof (N.div_mod b 16 ltac:(discriminate)) as H3.
  pose proof (N.mod_lt n 16 ltac:(discriminate)).
  pose proof (N.mod_lt a 16 ltac:(discriminate)).
  pose proof (N.mod_lt b 16 ltac:(discriminate)).
  fold a in H1. fold b in H2. fold c in H3. clearbody c.
  set (y := (b mod 16)%N) in *. clearbody y. clearbody b.
  set (z := (a mod 16)%N) in *. clearbody z. clearbody a.
  set (t := (n mod 16)%N) in *. clearbody t.
  assert (c < 16)%N by lia. rewrite (N.mod_small c 16) by done. lia.
Qed.

Lemma scanstring_escape_u (n : N) (t : str) :
  (n < 65536)%N ->
  scanstring (escape_u n ++ t) =
    match t with
    | b1 :: b2 :: r3 =>
        if is_high_surrogate n && (b1 =? 92)%N && (b2 =? 117)%N then
          match r3 with
          | a2 :: b3 :: c2 :: d2 :: r4 =>
              match decode_uXXXX a2 b3 c2 d2 with
              | None => Invalid
              | Some uni2 =>
                  if is_low_surrogate uni2
                  then scan_cons (join_surrogates n uni2) (scanstring r4)
                  else scan_cons n (scanstring t)
              end
          | _ => Invalid
          end
        else scan_cons n (scanstring t)
    | _ => scan_cons n (scanstring t)
    end.
Proof.
  intros H. unfold escape_u. cbn [app].
  assert (D : decode_uXXXX (hex_char (N.shiftr n 12 mod 16)) (hex_char (N.shiftr n 8 mod 16))
                (hex_char (N.shiftr n 4 mod 16)) (hex_char (n mod 16)) = Some n).
  { unfold decode_uXXXX. rewrite !hex_digit_hex_char by (apply N.mod_lt; discriminate).
    by rewrite hex_digits_value. }
  change (scanstring (92%N :: 117%N :: ?a :: ?b :: ?c :: ?d :: t))
    with (match decode_uXXXX a b c d with
          | None => Invalid
          | Some uni =>
              match t with
              | b1 :: b2 :: r3 =>
                  if is_high_surrogate uni && (b1 =? 92)%N && (b2 =? 117)%N then
                    match r3 with
                    | a2 :: b3 :: c2 :: d2 :: r4 =>
                        match decode_uXXXX a2 b3 c2 d2 with
                        | None => Invalid
                        | Some uni2 =>
                            if is_low_surrogate uni2
                            then scan_cons (join_surrogates uni uni2) (scanstring r4)
                            else scan_cons uni (scanstring t)
                        end
                    | _ => Invalid
                    end
                  else scan_cons uni (scanstring t)
              | _ => scan_cons uni (scanstring t)
              end
          end).
  rewrite D. reflexivity.
Qed.

Lemma lor_low_bits (a b : N) : (b < 1024)%N -> N.lor (N.shiftl a 10) b = (a * 1024 + b)%N.
Proof.
  intros Hb. rewrite <- N.lxor_lor, <- N.add_nocarry_lxor, N.shiftl_mul_pow2; try reflexivity.
  all: apply N.bits_inj; intros i; rewrite N.land_spec, N.bits_0.
  all: destruct (N.ltb_spec i 10) as [Hi|Hi];
    [by rewrite N.shiftl_spec_low | ].
  all: rewrite <- (N.mod_small b (2 ^ 10)) by exact Hb.
  all: by rewrite N.mod_pow2_bits_high, andb_false_r.
Qed.

Lemma lor_surrogate_base (base y : N) :
  base = 55296%N \/ base = 56320%N -> (y < 1024)%N -> N.lor base y = (base + y)%N.
Proof.
  intros Hbase Hy.
  replace base with (N.shiftl (base / 1024) 10) by (destruct Hbase; by subst).
  rewrite lor_low_bits by done. rewrite N.shiftl_mul_pow2. reflexivity.
Qed.

(** The surrogate pair written for a code point above the basic plane
    joins back to it. *)
Lemma surrogate_pair (c : char) :
  (65536 <= c)%N -> (c < 1114112)%N ->
  let n := (c - 65536)%N in
  let hi := N.lor 55296 (N.land (N.shiftr n 10) 1023) in
  let lo := N.lor 56320 (N.land n 1023) in
  (hi < 65536)%N /\ (lo < 65536)%N
  /\ is_high_surrogate hi = true /\ is_low_surrogate lo = true
  /\ join_surrogates hi lo = c.
Proof.
  intros H1 H2 n hi lo.
  assert (Hn : (n < 1048576)%N) by (unfold n; lia).
  assert (Ea : N.land (N.shiftr n 10) 1023 = (n / 1024)%N).
  { change 1023%N with (N.ones 10). rewrite N.land_ones, N.shiftr_div_pow2.
    apply N.mod_small. change (2 ^ 10)%N with 1024%N.
    apply N.Div0.div_lt_upper_bound. lia. }
  assert (Eb : N.land n 1023 = (n mod 1024)%N).
  { change 1023%N with (N.ones 10). by rewrite N.land_ones. }
  assert (Ha : (n / 1024 < 1024)%N) by (apply N.Div0.div_lt_upper_bound; lia).
  assert (Hb : (n mod 1024 < 1024)%N) by (apply N.mod_lt; discriminate).
  assert (Ehi : hi = (55296 + n / 1024)%N).
  { unfold hi. rewrite Ea. apply lor_surrogate_base; auto. }
  assert (Elo : lo = (56320 + n mod 1024)%N).
  { unfold lo. rewrite Eb. apply lor_surrogate_base; auto. }
  pose proof (N.div_mod n 1024 ltac:(discriminate)) as Hd.
  clearbody hi lo. subst hi lo.
  set (a := (n / 1024)%N) in *. set (b := (n mod 1024)%N) in *.
  unfold is_high_surrogate, is_low_surrogate, join_surrogates.
  replace (55296 + a - 55296)%N with a by lia.
  replace (56320 + b - 56320)%N with b by lia.
  rewrite lor_low_bits by done. clearbody a b.
  repeat split; try lia; apply andb_true_intro; split; apply N.leb_le; lia.
Qed.

Lemma scanstring_escape_char (c : char) (t : str) :
  scalar c = true -> scanstring (escape_char c ++ t) = scan_cons c (scanstring t).
Proof.
  intros Hs. unfold escape_char.
  destruct (N.eqb_spec c 34) as [->|H34]; [reflexivity|].
  destruct (N.eqb_spec c 92) as [->|H92]; [reflexivity|].
  destruct ((32 <=? c) && (c <=? 126))%N eqn:Ep.
  { apply andb_prop in Ep as [E1 E2]. apply N.leb_le in E1.
    cbn [app]. cbn [scanstring].
    destruct (N.eqb_spec c 34); [done|]. destruct (N.eqb_spec c 92); [done|].
    destruct (N.ltb_spec c 32); [lia|]. reflexivity. }
  destruct (N.eqb_spec c 8) as [->|H8]; [reflexivity|].
  destruct (N.eqb_spec c 12) as [->|H12]; [reflexivity|].
  destruct (N.eqb_spec c 10) as [->|H10]; [reflexivity|].
  destruct (N.eqb_spec c 13) as [->|H13]; [reflexivity|].
  destruct (N.eqb_spec c 9) as [->|H9]; [reflexivity|].
  unfold scalar in Hs.
  destruct (N.ltb_spec c 65536) as [Hc|Hc].
  - rewrite scanstring_escape_u by done.
    assert (Hh : is_high_surrogate c = false).
    { unfold is_high_surrogate. apply andb_false_iff.
      destruct (N.ltb_spec c 55296); [left; apply N.leb_gt; lia|].
      cbn [orb] in Hs. apply andb_prop in Hs as [Hs _]. apply N.leb_le in Hs.
      right. apply N.leb_gt. lia. }
    rewrite Hh. by destruct t as [|? [|? ?]].
  - assert (Hu : (c < 1114112)%N).
    { destruct (N.ltb_spec c 55296); [lia|]. cbn [orb] in Hs.
      apply andb_prop in Hs as [_ Hs]. by apply N.ltb_lt in Hs. }
    destruct (surrogate_pair c Hc Hu) as (Hhi & Hlo & Eh & El & Ej).
    cbv zeta. rewrite <- app_assoc, scanstring_escape_u by done.
    set (hi := N.lor 55296 _) in *. set (lo := N.lor 56320 _) in *.
    unfold escape_u at 1. cbn [app]. rewrite Eh. cbn [andb N.eqb Pos.eqb].
    assert (D : decode_uXXXX (hex_char (N.shiftr lo 12 mod 16)) (hex_char (N.shiftr lo 8 mod 16))
                  (hex_char (N.shiftr lo 4 mod 16)) (hex_char (lo mod 16)) = Some lo).
    { unfold decode_uXXXX. rewrite !hex_digit_hex_char by (apply N.mod_lt; discriminate).
      by rewrite hex_digits_value. }
    rewrite D, El, Ej. reflexivity.
Qed.

(** The decoder reads an encoded string back. *)
Lemma scanstring_escaped (s rest : str) :
  forallb scalar s = true ->
  scanstring (concat (escape_char <$> s) ++ 34%N :: rest) = Scanned s rest.
Proof.
  induction s as [|c s IH]; [reflexivity|]. cbn [forallb fmap list_fmap concat].
  intros H. apply andb_prop in H as [Hc Hs].
  rewrite <- app_assoc, scanstring_escape_char by done.
  unfold str, char in *. rewrite (IH Hs). reflexivity.
Qed.

Lemma dumps_member_text (key s : str) :
  dumps_member key s =
    123%N :: 34%N :: concat (escape_char <$> key)
    ++ 34%N :: 58%N :: 32%N :: 34%N :: concat (escape_char <$> s) ++ [34%N; 125%N].
Proof.
  unfold dumps_member, encode_basestring_ascii.
  change (py "{") with [123%N]. change (py ": ") with [58%N; 32%N].
  change (py "}") with [125%N]. cbn [app]. rewrite <- !app_assoc. reflexivity.
Qed.

Lemma scan_once_dumps_member (digits : N) (fuel depth : nat) (key s : str) :
  forallb scalar key = true -> forallb scalar s = true ->
  scan_once digits (S (S (S fuel))) (S depth) (dumps_member key s)
  = Scanned (Obj [(key, Str s)]) [].
Proof.
  intros Hk Hs. rewrite dumps_member_text.
  set (k := concat (escape_char <$> key)). set (x := concat (escape_char <$> s)).
  change (scan_once digits (S (S (S fuel))) (S depth) (123%N :: 34%N :: ?r))
    with (match object_members digits (S (S fuel)) depth r with
          | Scanned pairs r' => Scanned (Obj (dict_of_pairs pairs)) r'
          | Invalid => Invalid
          | OutOfFuel => OutOfFuel
          | Fails e => Fails e
          end).
  cbn [object_members]. unfold k. rewrite scanstring_escaped by done.
  cbn [skip_ws is_ws N.eqb Pos.eqb orb ch N_of_ascii N_of_digits N.add N.mul].
  change (scan_once digits (S fuel) depth (34%N :: ?r))
    with (match scanstring r with
          | Scanned y r' => Scanned (Str y) r'
          | Invalid => Invalid
          | OutOfFuel => OutOfFuel
          | Fails e => Fails e
          end).
  unfold x. rewrite scanstring_escaped by done. reflexivity.
Qed.

(** [json.loads(json.dumps({key: s}))] is [{key: s}] for strings of scalar
    values. *)
Lemma loads_dumps_member (lim : Limits) (key s : str) :
  (0 < recursion lim)%nat ->
  forallb scalar key = true -> forallb scalar s = true ->
  loads lim (dumps_member key s) = Return (Obj [(key, Str s)]).
Proof.
  intros Hd Hk Hs. unfold loads.
  destruct (recursion lim) as [|depth]; [lia|].
  assert (E : exists fuel, S (2 * length (dumps_member key s)) = S (S (S fuel))).
  { rewrite dumps_member_text. cbn [length]. eexists. cbn. rewrite Nat.add_succ_r. reflexivity. }
  destruct E as (fuel & ->).
  assert (W : skip_ws (dumps_member key s) = dumps_member key s)
    by (by rewrite dumps_member_text).
  rewrite W, scan_once_dumps_member by done.
  rewrite dumps_member_text. reflexivity.
Qed.

End Encoding.

Section Framing.
Import PyStr Server Text Http.

(** X18: every event of the fix stream is one well-framed server-sent
    event: an [event:] line naming one of [start], [chunk], [complete] and
    [error], a [data:] line, and an empty line, where the data consists of
    printable ASCII characters only.  No line break of the model's text
    can break the framing, for any reply of the model. *)
Theorem fix_stream_events_are_framed (w : World) (fix_request : FixRequest.t) :
  Forall (fun event =>
            exists name data,
              event = sse_event name data
              /\ name ∈ [py "start"; py "chunk"; py "complete"; py "error"]
              /\ forallb printable data = true)
         (generate_fix_stream w fix_request).1.
Proof.
  assert (Hs : exists name data,
             sse_start = sse_event name data
             /\ name ∈ [py "start"; py "chunk"; py "complete"; py "error"]
             /\ forallb printable data = true).
  { exists (py "start"), (lit "{'status': 'Starting fixes...'}").
    split; [reflexivity|]. split; [apply list_elem_of_here | by vm_compute]. }
  assert (He : exists name data,
             sse_error = sse_event name data
             /\ name ∈ [py "start"; py "chunk"; py "complete"; py "error"]
             /\ forallb printable data = true).
  { exists (py "error"), (lit "{'error': 'Fix failed'}").
    split; [reflexivity|]. split; [|by vm_compute].
    do 3 apply list_elem_of_further. apply list_elem_of_here. }
  assert (Hc : forall content, exists name data,
             sse_chunk content = sse_event name data
             /\ name ∈ [py "start"; py "chunk"; py "complete"; py "error"]
             /\ forallb printable data = true).
  { intros content. exists (py "chunk"), (Json.dumps_member (py "chunk") content).
    split; [reflexivity|]. split; [|apply dumps_member_printable].
    apply list_elem_of_further, list_elem_of_here. }
  assert (Hf : forall code, exists name data,
             sse_complete code = sse_event name data
             /\ name ∈ [py "start"; py "chunk"; py "complete"; py "error"]
             /\ forallb printable data = true).
  { intros code. exists (py "complete"), (Json.dumps_member (py "fixed_code") code).
    split; [reflexivity|]. split; [|apply dumps_member_printable].
    do 2 apply list_elem_of_further. apply list_elem_of_here. }
  rewrite generate_fix_stream_events.
  destruct (AsyncOpenAI w _); [|by repeat constructor].
  destruct (chat_completions_stream w _) as [[items failure]|]; [|by repeat constructor].
  constructor; [done|]. apply Forall_app. split.
  - apply Forall_fmap, Forall_forall. intros content _. apply Hc.
  - constructor; [|constructor].
    destruct (Stream.well_formed items); [|done]. destruct failure; [done|].
    destruct (Stream.has_text items); [apply Hf|done].
Qed.

(** X19: the data of a [chunk] or [complete] event decodes to the text
    it carries.  For every text of Unicode scalar values, the data line is
    a JSON document that [json.loads] reads back as the object with the
    one member [chunk] (or [fixed_code]) holding exactly that text, in
    every interpreter that lets the decoder enter one container. *)
Theorem sse_data_round_trip (lim : Json.Limits) (content : str) :
  (0 < Json.recursion lim)%nat ->
  forallb scalar content = true ->
  sse_chunk content = sse_event (py "chunk") (Json.dumps_member (py "chunk") content)
  /\ Json.loads lim (Json.dumps_member (py "chunk") content)
     = Return (Json.Obj [(py "chunk", Json.Str content)])
  /\ sse_complete content
     = sse_event (py "complete") (Json.dumps_member (py "fixed_code") content)
  /\ Json.loads lim (Json.dumps_member (py "fixed_code") content)
     = Return (Json.Obj [(py "fixed_code", Json.Str content)]).
Proof.
  intros Hd H. repeat split; try reflexivity; by apply loads_dumps_member.
Qed.

Lemma sse_data_round_trip_witness :
  let content := [100; 101; 102; 32; 102; 40; 41; 58; 10; 9; 34; 233; 128512; 34]%N in
  Json.dumps_member (py "chunk") content
  = lit "{'chunk': 'def f():\n\t\'\u00e9\ud83d\ude00\''}"
  /\ Json.loads Demo.cpython (Json.dumps_member (py "chunk") content)
     = Return (Json.Obj [(py "chunk", Json.Str content)]).
Proof.
  cbv zeta. split; [vm_compute; reflexivity|].
  assert (Hd : (0 < Json.recursion Demo.cpython)%nat) by (cbn; lia).
  exact (proj1 (proj2 (sse_data_round_trip Demo.cpython
                  [100; 101; 102; 32; 102; 40; 41; 58; 10; 9; 34; 233; 128512; 34]%N
                  Hd eq_refl))).
Defined.

End Framing.

(** ** JSON in prose *)

Section Embedded.
Import PyStr Re Server Text Http.

Lemma greedy_star_any_last (g : bool) (k : str -> option matched) (a s : str) (m : matched) :
  k s = Some m ->
  (forall x y, s = x ++ y -> x <> [] -> k y = None) ->
  greedy_star any g k (a ++ s) = consume_all g a (Some m).
Proof.
  intros Hk Hlast.
  assert (E : greedy_star any g k s = Some m).
  { destruct s as [|c s]; [done|]. cbn [greedy_star any].
    rewrite (greedy_star_none any g k s); [done|].
    intros x y -> _. apply (Hlast (c :: x) y); done. }
  induction a as [|c a IH]; [done|]. cbn [app greedy_star any consume_all foldr].
  rewrite IH. destruct (consume_all_group0 g a m) as (m' & Em & _).
  fold (consume_all g a (Some m)). by rewrite Em.
Qed.

Lemma search_skip (pat : list item) (pre s : str) :
  (forall x y, pre = x ++ y -> y <> [] -> match_here pat false (y ++ s) = None) ->
  search pat (pre ++ s) = search pat s.
Proof.
  induction pre as [|c pre IH]; intros H; [done|]. cbn [app search].
  pose proof (H [] (c :: pre) eq_refl ltac:(done)) as H0. cbn [app] in H0.
  rewrite H0. apply IH. intros x y -> Hy. by apply (H (c :: x) y).
Qed.

(** The brace pattern matches from the first opening brace to the last
    closing one. *)
Lemma search_brace_span_embedded (pre mid post : str) :
  123%N ∉ pre -> 125%N ∉ post ->
  search brace_span (pre ++ 123%N :: mid ++ 125%N :: post)
  = Some {| group0 := 123%N :: mid ++ [125%N]; group1 := [] |}.
Proof.
  intros Hpre Hpost.
  change brace_span with [Chr 123%N; Greedy any; Chr 125%N].
  rewrite search_skip.
  2: { intros x y -> Hy. destruct y as [|c y]; [done|].
       cbn -[N.eqb].
       destruct (N.eqb_spec 123 c) as [<-|]; [|done].
       exfalso. apply Hpre. apply elem_of_app. right. apply list_elem_of_here. }
  apply search_here. cbn -[N.eqb greedy_star].
  rewrite N.eqb_refl.
  rewrite (greedy_star_any_last false _ mid (125%N :: post)
             {| group0 := [125%N]; group1 := [] |}).
  - destruct (consume_all_group0 false mid {| group0 := [125%N]; group1 := [] |})
      as (m' & -> & G0 & G1). cbn. destruct m' as [g0 g1]. cbn in *. by subst.
  - reflexivity.
  - intros x y E Hx. destruct x as [|c x]; [done|]. injection E as Ec Ep. subst c post.
    destruct y as [|d y]; [done|]. cbn -[N.eqb].
    destruct (N.eqb_spec 125 d) as [<-|]; [|done].
    exfalso. apply Hpost. apply elem_of_app. right. apply list_elem_of_here.
Qed.

(** X20: an object with prose around it is found by the brace pattern.
    When [json.loads] raises [JSONDecodeError] on the reply as a whole,
    the reply holds no fenced block, and an opening brace that has no
    brace before it is followed by a closing brace that has none after it,
    the normaliser decodes the text from the one to the other, braces
    included, and builds the report from it, or raises what that decoding
    raises. *)
Theorem normalizer_recovers_embedded_object (lim : Json.Limits) (px : Pydantic)
    (pre mid post : str) :
  123%N ∉ pre -> 125%N ∉ post ->
  Json.loads lim (pre ++ 123%N :: mid ++ 125%N :: post) = Raise JSONDecodeError ->
  has_json_fence (pre ++ 123%N :: mid ++ 125%N :: post) = false ->
  normalize_response lim px (pre ++ 123%N :: mid ++ 125%N :: post)
  = (data <- Json.loads lim (123%N :: mid ++ [125%N]);;
     Model.SecurityReport_init px data).
Proof.
  intros Hpre Hpost Hl Hf.
  rewrite (normalize_response_fallback _ _ _ Hl), (search_json_fence_none _ Hf).
  by rewrite search_brace_span_embedded.
Qed.

Lemma normalizer_recovers_embedded_object_witness :
  normalize_response Demo.cpython Demo.strict
    (py "Here is the report: " ++ Sample.report_text ++ py " Anything else?")
  = Return Sample.report.
Proof.
  refine (eq_trans (normalizer_recovers_embedded_object Demo.cpython Demo.strict
                      (py "Here is the report: ")
                      (lit "'summary': 'ok', 'issues': []") (py " Anything else?")
                      _ _ _ _) _).
  - refine (bool_decide_eq_true_1 _ _). reflexivity.
  - refine (bool_decide_eq_true_1 _ _). reflexivity.
  - vm_compute. reflexivity.
  - vm_compute. reflexivity.
  - vm_compute. reflexivity.
Defined.

End Embedded.

Section FencedInProse.
Import PyStr Re Server Text Http.

(** The fence pattern captures the text of a fenced block that stands
    in prose. *)
Lemma search_json_fence_embedded (pre ws1 j0 ws2 post : str) (c : char) :
  96%N ∉ pre ->
  blank ws1 = true -> blank ws2 = true ->
  match j0 ++ [c] with [] => True | c0 :: _ => isspace c0 = false end ->
  isspace c = false -> c <> 96%N ->
  contains (py "```") (j0 ++ [c]) = false ->
  exists m, search json_fence (pre ++ fenced ws1 (j0 ++ [c]) ws2 ++ post) = Some m
            /\ group1 m = j0 ++ [c].
Proof.
  intros Hpre H1 H2 Hhead Hlast Hc Hfree. set (j := j0 ++ [c]) in *.
  set (tail := py "```" ++ post).
  set (K3 := match_here (literal (py "```")) false).
  set (K2 := greedy_star space false K3).
  set (m3 := {| group0 := py "```"; group1 := [] |}).
  assert (E3 : K3 tail = Some m3).
  { unfold K3, tail. rewrite <- (app_nil_r (literal (py "```"))), match_here_literal.
    reflexivity. }
  assert (E2 : K2 (ws2 ++ tail) = consume_all false ws2 (Some m3)).
  { apply greedy_star_run; [done..|]. reflexivity. }
  destruct (consume_all_group0 false ws2 m3) as (m2 & Em2 & _ & G2).
  rewrite Em2 in E2. cbn in G2.
  assert (E1 : lazy_star any true K2 (j ++ ws2 ++ tail) = consume_all true j (Some m2)).
  { apply lazy_star_first; [clear; by induction j| |done].
    intros a b Hj Hb. apply greedy_star_none.
    intros a' s' Hs Ha'.
    assert (exists b', b = a' ++ b' /\ b' <> [] /\ s' = b' ++ ws2 ++ tail)
      as (b' & -> & Hb' & ->).
    { destruct (nonempty_suffix_last _ _ _ _ Hj Hb) as (b0 & Eb).
      apply app_eq_app in Hs as (l & [[Hl ->]|[-> _]]).
      - destruct l as [|d l].
        + exfalso. rewrite app_nil_r in Hl. rewrite <- Hl, Eb in Ha'.
          rewrite forallb_app in Ha'. cbn in Ha'.
          unfold space in Ha'. rewrite Hlast in Ha'.
          by rewrite andb_false_r in Ha'.
        + by exists (d :: l).
      - exfalso. rewrite Eb, !forallb_app in Ha'. cbn in Ha'.
        unfold space in Ha'. rewrite Hlast in Ha'.
        by rewrite !andb_false_r in Ha'. }
    unfold K3. rewrite <- (app_nil_r (literal (py "```"))).
    apply match_here_literal_none.
    apply (suffix_not_fence j0 (a ++ a') b' _ c); [done..| |done].
    by rewrite <- app_assoc. }
  destruct (consume_all_group0 true j m2) as (m1 & Em1 & _ & G1). rewrite Em1 in E1.
  rewrite G2 in G1. change (group1 m3) with (@nil N) in G1. rewrite app_nil_r in G1.
  assert (E0 : greedy_star space false (lazy_star any true K2) (ws1 ++ j ++ ws2 ++ tail)
               = consume_all false ws1 (Some m1)).
  { apply greedy_star_run; [done..|]. subst j. by destruct j0. }
  destruct (consume_all_group0 false ws1 m1) as (m0 & Em0 & _ & G0). rewrite Em0 in E0.
  destruct (consume_all_group0 false (py "```json") m0) as (m & Em & _ & G).
  exists m. split; [|by rewrite G, G0, G1].
  assert (Et : fenced ws1 j ws2 ++ post = py "```json" ++ ws1 ++ j ++ ws2 ++ tail).
  { unfold fenced, tail. by rewrite <- !app_assoc. }
  rewrite Et, search_skip.
  2: { intros x y -> Hy. unfold json_fence. apply match_here_literal_none.
       destruct y as [|d y]; [done|].
       change (py "```json") with (96%N :: [96; 96; 106; 115; 111; 110]%N).
       cbn [app startswith].
       destruct (N.eqb_spec 96 d) as [<-|]; [|done].
       exfalso. apply Hpre. apply elem_of_app. right. apply list_elem_of_here. }
  apply search_here. unfold json_fence.
  rewrite match_here_literal. cbn [app match_here].
  change (consume_all false (py "```json")
            (greedy_star space false (lazy_star any true K2)
               (ws1 ++ j ++ ws2 ++ tail)) = Some m).
  by rewrite E0.
Qed.

(** X21: a fenced block with prose around it is read.  When
    [json.loads] raises [JSONDecodeError] on the reply as a whole, and a
    block tagged [json] holds a text that [json.loads] decodes, without
    white space around it and without three backticks in a row, then,
    whatever follows the block and whatever free of backticks precedes it,
    the normaliser builds the report from the value decoded. *)
Theorem normalizer_reads_fenced_block_in_prose (lim : Json.Limits) (px : Pydantic)
    (pre ws1 j ws2 post : str) (data : Json.value) :
  96%N ∉ pre ->
  Json.loads lim j = Return data -> strip j = j -> contains (py "```") j = false ->
  blank ws1 = true -> blank ws2 = true ->
  Json.loads lim (pre ++ fenced ws1 j ws2 ++ post) = Raise JSONDecodeError ->
  normalize_response lim px (pre ++ fenced ws1 j ws2 ++ post)
  = Model.SecurityReport_init px data.
Proof.
  intros Hpre Hl Hs Hfree H1 H2 Hno.
  destruct (loads_stripped_ends _ _ _ Hl Hs) as (j0 & c & -> & Hc).
  apply andb_true_iff in Hc as [Hsp Hbt].
  apply negb_true_iff in Hsp. apply negb_true_iff, N.eqb_neq in Hbt.
  destruct (search_json_fence_embedded pre ws1 j0 ws2 post c Hpre H1 H2) as (m & Em & Gm);
    [by apply strip_fixed|done..|].
  rewrite (normalize_response_fallback _ _ _ Hno).
  unfold str, char in *. rewrite Em, Gm, Hl. done.
Qed.

Lemma normalizer_reads_fenced_block_in_prose_witness :
  normalize_response Demo.cpython Demo.strict
    (py "Here is the analysis:" ++ [10%N]
     ++ fenced [10%N] Sample.report_text [10%N]
     ++ [10%N] ++ py "Every `issue` has a CVSS score.")
  = Return Sample.report.
Proof.
  refine (eq_trans (normalizer_reads_fenced_block_in_prose Demo.cpython Demo.strict
                      (py "Here is the analysis:" ++ [10%N]) [10%N] Sample.report_text
                      [10%N] ([10%N] ++ py "Every `issue` has a CVSS score.")
                      (Json.Obj [(py "summary", Json.Str (py "ok"));
                                 (py "issues", Json.Arr [])])
                      _ _ _ _ _ _ _) _).
  - refine (bool_decide_eq_true_1 _ _). reflexivity.
  - vm_compute. reflexivity.
  - vm_compute. reflexivity.
  - vm_compute. reflexivity.
  - reflexivity.
  - reflexivity.
  - vm_compute. reflexivity.
  - reflexivity.
Defined.

End FencedInProse.

(** ** Order of the checks, and the counters left alone *)

Section Order.
Import PyStr Server Text Http.

Lemma verify_api_key_outcome (w : World) (x_api_key : option str) :
  verify_api_key w x_api_key = Return true
  \/ verify_api_key w x_api_key = Raise (HTTPException 401 (py "Invalid or missing API key")).
Proof.
  unfold verify_api_key.
  repeat match goal with
         | |- context [if ?c then _ else _] => destruct c
         | |- context [match ?r with Some _ => _ | None => _ end] => destruct r
         end; auto.
Qed.

(** X22: the checks of an endpoint run in a fixed order and the first
    failure decides the answer.  For an authenticated request within the
    quota: when the API-key check fails, both endpoints answer 401
    ["Invalid or missing API key"] whatever the code is, and [/api/fix]
    calls nothing; when it passes and the validator refuses the code with
    a 400, [/api/analyze] answers that 400, whether or not the model's
    credential is configured. *)
Theorem analyze_first_failure_decides (w : World) (now : Z) (st : Limiter.storage)
    (request : Request) (analyze_request : AnalyzeRequest.t) (fix_request : FixRequest.t)
    (user : Json.value) (calls : list call) :
  verify_authenticated_user w request = (Return user, calls) ->
  Limiter.get now (get_user_email request, py "/api/analyze") st < 7 ->
  Limiter.get now (get_user_email request, py "/api/fix") st < 7 ->
  (verify_api_key w (headers_get request (py "X-API-Key")) <> Return true ->
     (POST_api_analyze w now st request analyze_request).1.1
     = HTTPError 401 (py "Invalid or missing API key")
     /\ (POST_api_fix w now st request fix_request).1.1
        = HTTPError 401 (py "Invalid or missing API key")
     /\ gateway_calls (POST_api_fix w now st request fix_request).2 = [])
  /\ (verify_api_key w (headers_get request (py "X-API-Key")) = Return true ->
      forall detail,
        validate_request w analyze_request = Raise (HTTPException 400 detail) ->
        (POST_api_analyze w now st request analyze_request).1.1 = HTTPError 400 detail).
Proof.
  intros Hv Ha Hf. unfold POST_api_analyze, POST_api_fix.
  pose proof (verify_authenticated_user_calls w request) as Hc. rewrite Hv in Hc.
  rewrite (protected_route_limit (py "/api/analyze") _ _ _ _ _ _ _ _ eq_refl Hv).
  rewrite (protected_route_limit (py "/api/fix") _ _ _ _ _ _ _ _ eq_refl Hv).
  apply Z.ltb_lt in Ha, Hf. rewrite Ha, Hf. cbn [fst snd] in *.
  rewrite analyze_code_steps. unfold fix_security_issues, mbind, lift.
  split.
  - intros Hk.
    destruct (verify_api_key_outcome w (headers_get request (py "X-API-Key"))) as [E|E];
      [done|].
    rewrite E. cbn [fst snd masked exception_response]. repeat split.
    unfold gateway_calls in *. by rewrite omap_app, Hc.
  - intros -> detail ->. reflexivity.
Qed.

Lemma analyze_first_failure_decides_witness :
  let w := Demo.world Sample.keyed_env Demo.reject_all (Return Demo.alice)
             Demo.no_reply Demo.no_stream in
  let bad := {| AnalyzeRequest.code := py "x = (" |} in
  (POST_api_analyze w 0 ∅ (Demo.request Demo.bearer) bad).1.1
  = HTTPError 401 (py "Invalid or missing API key")
  /\ (POST_api_analyze w 0 ∅
        (Demo.request ((py "x-api-key", py "k-one") :: Demo.bearer)) bad).1.1
     = HTTPError 400 (py "Invalid Python syntax: invalid syntax (<string>, line 1)").
Proof.
  cbv zeta.
  set (w := Demo.world Sample.keyed_env Demo.reject_all (Return Demo.alice)
              Demo.no_reply Demo.no_stream).
  set (bad := {| AnalyzeRequest.code := py "x = (" |}).
  set (fx := {| FixRequest.code := []; FixRequest.issues := [] |}).
  set (r2 := Demo.request ((py "x-api-key", py "k-one") :: Demo.bearer)).
  assert (H1 : Limiter.get 0 (get_user_email (Demo.request Demo.bearer), py "/api/analyze")
                 (∅ : Limiter.storage) < 7) by (vm_compute; reflexivity).
  assert (H2 : Limiter.get 0 (get_user_email (Demo.request Demo.bearer), py "/api/fix")
                 (∅ : Limiter.storage) < 7) by (vm_compute; reflexivity).
  assert (H3 : Limiter.get 0 (get_user_email r2, py "/api/analyze")
                 (∅ : Limiter.storage) < 7) by (vm_compute; reflexivity).
  assert (H4 : Limiter.get 0 (get_user_email r2, py "/api/fix")
                 (∅ : Limiter.storage) < 7) by (vm_compute; reflexivity).
  split.
  - destruct (analyze_first_failure_decides w 0 ∅ (Demo.request Demo.bearer) bad fx
                (Json.Str (py "alice@example.com")) [] eq_refl H1 H2) as (H & _).
    apply H. vm_compute. discriminate.
  - destruct (analyze_first_failure_decides w 0 ∅ r2 bad fx
                (Json.Str (py "alice@example.com")) [] eq_refl H3 H4) as (_ & H).
    apply H; vm_compute; reflexivity.
Defined.

End Order.

Section Frame.
Import PyStr Server Text Http.

Lemma route_storage_frame {A} (path : str) (body : M A) (respond : A -> response)
    (w : World) (now : Z) (st : Limiter.storage) (request : Request) (key : str * str) :
  path = py "/api/analyze" \/ path = py "/api/fix" ->
  key <> (get_user_email request, path) ->
  (protected_route path body respond w now st request).1.2 !! key = st !! key.
Proof.
  intros Hp Hk.
  destruct (verify_authenticated_user w request) as [[user|e] calls] eqn:E.
  2: { by rewrite (protected_route_unauthenticated _ _ _ _ _ _ _ _ _ E). }
  destruct Hp as [-> | ->].
  - rewrite (protected_route_storage (py "/api/analyze") _ _ _ _ _ _ _ _ eq_refl E).
    unfold Limiter.incr. cbn [snd]. by rewrite lookup_insert_ne.
  - rewrite (protected_route_storage (py "/api/fix") _ _ _ _ _ _ _ _ eq_refl E).
    unfold Limiter.incr. cbn [snd]. by rewrite lookup_insert_ne.
Qed.

(** An endpoint leaves the limiter as it was, or as its route leaves it. *)
Lemma endpoint_storage {A} (validate : Json.value -> result A)
    (route : A -> response * Limiter.storage * list call)
    (w : World) (st : Limiter.storage) (request : Request) (b : body) :
  (endpoint validate route w st request b).1.2 = st
  \/ exists a, (endpoint validate route w st request b).1.2 = (route a).1.2.
Proof.
  unfold endpoint.
  destruct (read_body (limits w) b) as [[v|]| |]; try (by left);
    destruct (verify_authenticated_user w request) as [[user|e] calls]; try (by left).
  destruct (validate v) as [a|]; [|by left].
  right. exists a. by destruct (route a) as [[r st'] calls'].
Qed.

(** X23: a request changes no counter but its own.  Whatever the request
    and its outcome, a request to [/api/analyze] leaves the limiter's
    entry under every key but the caller's key for [/api/analyze] as it
    was - the caller's own counter for [/api/fix] among them - and a
    request to [/api/fix] every entry but the caller's for [/api/fix]:
    from the route's function on, and from the bytes of the request
    on. *)
Theorem request_touches_one_counter (w : World) (now : Z) (st : Limiter.storage)
    (request : Request) (key : str * str) :
  (key <> (get_user_email request, py "/api/analyze") ->
   (forall analyze_request,
      (POST_api_analyze w now st request analyze_request).1.2 !! key = st !! key)
   /\ (forall b, (analyze_endpoint w now st request b).1.2 !! key = st !! key))
  /\ (key <> (get_user_email request, py "/api/fix") ->
      (forall fix_request,
         (POST_api_fix w now st request fix_request).1.2 !! key = st !! key)
      /\ (forall b, (fix_endpoint w now st request b).1.2 !! key = st !! key)).
Proof.
  split; intros Hk.
  - assert (H : forall analyze_request,
              (POST_api_analyze w now st request analyze_request).1.2 !! key = st !! key).
    { intros a. apply route_storage_frame; auto. }
    split; [exact H|]. intros b. unfold analyze_endpoint.
    destruct (endpoint_storage (Model.AnalyzeRequest_validate (pydantic w))
                (POST_api_analyze w now st request) w st request b) as [-> | [a ->]];
      [done|apply H].
  - assert (H : forall fix_request,
              (POST_api_fix w now st request fix_request).1.2 !! key = st !! key).
    { intros a. apply route_storage_frame; auto. }
    split; [exact H|]. intros b. unfold fix_endpoint.
    destruct (endpoint_storage (Model.FixRequest_validate (pydantic w))
                (POST_api_fix w now st request) w st request b) as [-> | [a ->]];
      [done|apply H].
Qed.

Lemma request_touches_one_counter_witness :
  let w := Demo.world Demo.dev_env Demo.accept_all (Return Demo.alice)
             (Return [Some Sample.report_text]) Demo.no_stream in
  let fixes := {| Limiter.hits := 3; Limiter.expires := 86400 |} in
  let st : Limiter.storage := {[ (py "alice@example.com", py "/api/fix") := fixes ]} in
  let answer := analyze_endpoint w 10 st (Demo.request Demo.bearer)
                  (JsonBody (lit "{'code': 'import os'}")) in
  answer.1.1 = Report Sample.report
  /\ answer.1.2 !! (py "alice@example.com", py "/api/fix") = Some fixes
  /\ Limiter.get 10 (py "alice@example.com", py "/api/analyze") answer.1.2 = 1.
Proof.
  cbv zeta.
  set (w := Demo.world Demo.dev_env Demo.accept_all (Return Demo.alice)
              (Return [Some Sample.report_text]) Demo.no_stream).
  set (fixes := {| Limiter.hits := 3; Limiter.expires := 86400 |}).
  set (st := ({[ (py "alice@example.com", py "/api/fix") := fixes ]} : Limiter.storage)).
  set (key := (py "alice@example.com", py "/api/fix")).
  assert (Hk : key <> (get_user_email (Demo.request Demo.bearer), py "/api/analyze"))
    by (vm_compute; discriminate).
  destruct (request_touches_one_counter w 10 st (Demo.request Demo.bearer) key)
    as ((_ & H) & _); [exact Hk|].
  split; [vm_compute; reflexivity|]. split.
  - rewrite H. subst st key. apply lookup_singleton_eq.
  - vm_compute. reflexivity.
Defined.

End Frame.
